(** * Thermostat control logic (ThermostatV4.py): a shallow embedding

    The controller is a Python program built from a handful of small
    stateful objects: a moving-average filter, a three-state machine with a
    single [cycle] event, a schedule lookup done with [bisect.bisect_right],
    and a display/telemetry loop.  Every method is translated into a
    function of a state-and-exception monad [M S A := S -> pyres A * S]:
    the state component is the object (or the whole controller together with
    the devices it drives), and [Raise] is a Python exception that leaves the
    mutations done so far in place.

    A Python [float] is an IEEE 754 binary64 number.  A finite one is
    represented by the rational it denotes ([Q]), and every operation on
    floats returns the exact result rounded to the nearest binary64 number,
    ties going to the even significand ([round64]).  Not-a-number and the
    infinities are not represented: the temperatures handled here are
    finite, and overflow needs magnitudes near 1.8e308.  Python [int]s are
    [Z].  Console output done under [DEBUG] is not modelled, the two LEDs
    are taken to obey, and a button press is handled between two iterations
    of the display loop, never in the middle of one.

    ThermostatV3.py has the same filter, schedule lookup, state machine,
    actuation policy and loop counters; it only lacks the database.  The
    earliest version has the same [cycle] event and the same counters. *)

From Equations Require Import Equations.
From Stdlib Require Import String Ascii DecimalString.
From Stdlib Require Import ZArith QArith Qround List Sorted Permutation Bool
  Lia.
Import ListNotations.

Open Scope Z_scope.

(** ** Python results and the state-and-exception monad *)

Inductive exn : Type :=
| ZeroDivisionError
| IndexError
| TransitionNotAllowed
| SerialException
| OSError.

Inductive pyres (A : Type) : Type :=
| Ok (a : A)
| Raise (e : exn).
Arguments Ok {A} a.
Arguments Raise {A} e.

Definition M (S A : Type) : Type := S -> pyres A * S.

Definition ret {S A} (a : A) : M S A := fun s => (Ok a, s).

Definition bind {S A B} (c : M S A) (k : A -> M S B) : M S B :=
  fun s =>
    match c s with
    | (Ok a, s') => k a s'
    | (Raise e, s') => (Raise e, s')
    end.

Definition raise {S A} (e : exn) : M S A := fun s => (Raise e, s).

Definition get {S} : M S S := fun s => (Ok s, s).

Definition modify {S} (f : S -> S) : M S unit := fun s => (Ok tt, f s).

(** The outcome of a call that does not touch the state. *)
Definition lift {S A} (r : pyres A) : M S A := fun s => (r, s).

(** [try: body / except Exception: handler] *)
Definition try_except {S A} (body : M S A) (handler : exn -> M S A) : M S A :=
  fun s =>
    match body s with
    | (Ok a, s') => (Ok a, s')
    | (Raise e, s') => handler e s'
    end.

(** Running a method of a component object held in a field of [S]. *)
Definition zoom {S T A} (proj : S -> T) (upd : T -> S -> S) (c : M T A)
  : M S A :=
  fun s => let (r, t') := c (proj s) in (r, upd t' s).

Declare Scope py_scope.
Delimit Scope py_scope with py.
Notation "x <- c ;; k" := (bind c (fun x => k))
  (at level 61, c at next level, right associativity) : py_scope.
Notation "c ;; k" := (bind c (fun _ => k))
  (at level 61, right associativity) : py_scope.
Open Scope py_scope.

Definition is_ok {A} (r : pyres A) : bool :=
  match r with Ok _ => true | Raise _ => false end.

(** ** Python numbers as constructor arguments *)

Inductive pynum : Type :=
| PyInt (z : Z)
| PyFloat (q : Q).

(** [int(x)]: identity on an int, truncation toward zero on a float. *)
Definition py_int (x : pynum) : Z :=
  match x with
  | PyInt z => z
  | PyFloat q => Z.quot (Qnum q) (Zpos (Qden q))
  end.

(** ** Python floats *)

(** [floor(log2(a / b))] for positive [a] and [b]. *)
Definition ilog2 (a b : Z) : Z :=
  let k := Z.log2 a - Z.log2 b in
  if (if 0 <=? k then b * 2 ^ k <=? a else b <=? a * 2 ^ (- k))
  then k else k - 1.

(** [n / d] rounded to the nearest integer, a tie going to the even one;
    [n] is not negative and [d] is positive. *)
Definition round_half_even (n d : Z) : Z :=
  let q := n / d in
  let r := n mod d in
  if 2 * r <? d then q
  else if d <? 2 * r then q + 1
  else if Z.even q then q else q + 1.

(** [m * 2 ^ e] *)
Definition scale2 (m e : Z) : Q :=
  if 0 <=? e then inject_Z (m * 2 ^ e)
  else Qred (m # Z.to_pos (2 ^ (- e))).

(** The binary64 number nearest to [a / b], for positive [a] and [b]: a
    significand of 53 bits, or fewer below [2 ^ -1022] where the exponent
    stays at its least value. *)
Definition round64_pos (a b : Z) : Q :=
  let e := Z.max (ilog2 a b - 52) (-1074) in
  let m := if 0 <=? e then round_half_even a (b * 2 ^ e)
           else round_half_even (a * 2 ^ (- e)) b in
  scale2 m e.

(** Rounding to binary64. *)
Definition round64 (q : Q) : Q :=
  let r := Qred q in
  match Qnum r with
  | Z0 => 0%Q
  | Zpos a => round64_pos (Zpos a) (Zpos (Qden r))
  | Zneg a => (- round64_pos (Zpos a) (Zpos (Qden r)))%Q
  end.

(** [x + y], [x - y], [x * y] and [x / y] on floats; an int operand is
    converted first, which changes nothing below [2 ^ 53]. *)
Definition fadd (x y : Q) : Q := round64 (x + y).
Definition fsub (x y : Q) : Q := round64 (x - y).
Definition fmul (x y : Q) : Q := round64 (x * y).
Definition fdiv (x y : Q) : Q := round64 (x / y).

(** [a / n] with [n] an int: raises on a zero divisor. *)
Definition truediv (a : Q) (n : Z) : pyres Q :=
  if n =? 0 then Raise ZeroDivisionError else Ok (fdiv a (inject_Z n)).

(** [math.floor(x)]: it refuses only not-a-number and the infinities,
    which are no values here. *)
Definition floor (x : Q) : pyres Z := Ok (Qfloor x).

(** [len(l)] *)
Definition len {A} (l : list A) : Z := Z.of_nat (length l).

(** ** Tunable parameters *)

Definition MA_WINDOW : Z := 10.
Definition HYSTERESIS_F : Q := 1.
Definition SAMPLE_PERIOD_S : Z := 1.
Definition STATUS_PERIOD_S : Z := 30.

(** ** MovingAverage *)

Module MovingAverage.

Record t : Type := mk { window : Z; buf : list Q; sum : Q }.

(** [__init__(self, window)] *)
Definition init (w : pynum) : t :=
  {| window := Z.max 1 (py_int w); buf := []; sum := 0 |}.

Definition set_buf (b : list Q) (m : t) : t :=
  {| window := window m; buf := b; sum := sum m |}.

Definition set_sum (x : Q) (m : t) : t :=
  {| window := window m; buf := buf m; sum := x |}.

(** [self.buf.popleft()]: raises [IndexError] on an empty deque. *)
Definition popleft : M t Q :=
  fun m =>
    match buf m with
    | [] => (Raise IndexError, m)
    | y :: rest => (Ok y, set_buf rest m)
    end.

(** [value(self)] *)
Definition value : M t (option Q) :=
  m <- get ;;
  match buf m with
  | [] => ret None
  | _ :: _ =>
      fun s =>
        match truediv (sum m) (len (buf m)) with
        | Ok a => (Ok (Some a), s)
        | Raise e => (Raise e, s)
        end
  end.

(** [push(self, x)] *)
Definition push (x : Q) : M t (option Q) :=
  modify (fun m => set_buf (buf m ++ [x]) m) ;;
  modify (fun m => set_sum (fadd (sum m) x) m) ;;
  m <- get ;;
  (if len (buf m) >? window m
   then y <- popleft ;; modify (fun m' => set_sum (fsub (sum m') y) m')
   else ret tt) ;;
  value.

(** Pushing a sequence of samples, keeping every returned value. *)
Fixpoint pushes (xs : list Q) (m : t) : list (pyres (option Q)) * t :=
  match xs with
  | [] => ([], m)
  | x :: xs' =>
      let (r, m') := push x m in
      let (rs, m'') := pushes xs' m' in
      (r :: rs, m'')
  end.

End MovingAverage.

(** ** Strings *)

Open Scope string_scope.

(** [str(n)] for an int. *)
Definition str (z : Z) : string := NilZero.string_of_int (Z.to_int z).

Fixpoint spaces (n : nat) : string :=
  match n with
  | O => ""
  | S n' => String " " (spaces n')
  end.

(** [s.ljust(n)] *)
Definition ljust (n : nat) (s : string) : string :=
  s ++ spaces (n - String.length s).

(** [s[:n]] *)
Definition slice_to (n : nat) (s : string) : string := substring 0 n s.

Definition upper_ascii (c : ascii) : ascii :=
  let n := nat_of_ascii c in
  if ((97 <=? n)%nat && (n <=? 122)%nat)%bool then ascii_of_nat (n - 32) else c.

(** [s.upper()] *)
Fixpoint upper (s : string) : string :=
  match s with
  | EmptyString => EmptyString
  | String c s' => String (upper_ascii c) (upper s')
  end.

Definition newline : string := String (ascii_of_nat 10) "".

(** [s.split("\n", 1)]: the text before the first newline, and the text
    after it when there is one. *)
Fixpoint split_newline (s : string) : string * option string :=
  match s with
  | EmptyString => (EmptyString, None)
  | String c s' =>
      if Ascii.eqb c (ascii_of_nat 10) then (EmptyString, Some s')
      else let (a, b) := split_newline s' in (String c a, b)
  end.

(** ** The clock *)

Record datetime : Type :=
  { month : Z; day : Z; hour : Z; minute : Z; second : Z }.

Definition pad2 (z : Z) : string :=
  if (z <? 10)%Z then "0" ++ str z else str z.

(** [strftime("%m/%d %H:%M:%S")] *)
Definition strftime (d : datetime) : string :=
  pad2 (month d) ++ "/" ++ pad2 (day d) ++ " " ++
  pad2 (hour d) ++ ":" ++ pad2 (minute d) ++ ":" ++ pad2 (second d).

Close Scope string_scope.

(** ** [bisect.bisect_right] and list indexing *)

Equations? bisect_right_loop (a : list Z) (x : Z) (lo hi : nat) : nat
  by wf (hi - lo)%nat lt :=
  bisect_right_loop a x lo hi with lt_dec lo hi => {
    | left _ =>
        if x <? nth ((lo + hi) / 2) a 0
        then bisect_right_loop a x lo ((lo + hi) / 2)
        else bisect_right_loop a x ((lo + hi) / 2 + 1) hi
    | right _ => lo }.
Proof.
  all: change (fst (Nat.divmod (lo + hi) 1 0 1)) with ((lo + hi) / 2)%nat.
  all: assert (((lo + hi) / 2 < hi)%nat)
    by (apply Nat.Div0.div_lt_upper_bound; lia).
  all: assert ((lo <= (lo + hi) / 2)%nat)
    by (apply Nat.div_le_lower_bound; lia).
  all: lia.
Qed.

(** [bisect.bisect_right(a, x)] *)
Definition bisect_right (a : list Z) (x : Z) : nat :=
  bisect_right_loop a x 0 (length a).

(** [l[i]]: a negative index counts from the end; out of range raises. *)
Definition getitem {A} (l : list A) (i : Z) : pyres A :=
  let j := if i <? 0 then i + len l else i in
  if j <? 0 then Raise IndexError
  else match nth_error l (Z.to_nat j) with
       | Some a => Ok a
       | None => Raise IndexError
       end.

(** [x < y] on floats. *)
Definition Qltb (x y : Q) : bool :=
  (Qnum x * QDen y <? Qnum y * QDen x)%Z.

(** ** The controller and the devices it drives *)

(** States of the machine; [State_id] is [current_state.id]. *)
Inductive State : Type := off | heat | cool.

Definition State_id (s : State) : string :=
  match s with
  | off => "off"
  | heat => "heat"
  | cool => "cool"
  end.

(** A [PWMLED]: [off()], [value = 1.0], or a background [pulse(...)]. *)
Inductive Led : Type := LedOff | LedSolid | LedPulse.

(** Module-level objects read by the controller.  [schedule] is the list
    of (minutes since midnight, setpoint) pairs in the order in which the
    preprocessing loop appends them to [_schedule_minutes] and
    [_schedule_values].  [thSensor] and [ser] are [None] when their
    initialisation failed; otherwise they give the outcome of the n-th
    sensor transaction (degrees Celsius) and of the n-th [ser.write].
    [now] is the n-th reading of [datetime.now()]. *)
Record Env : Type :=
  { SCHEDULE_ENABLED : bool;
    schedule : list (Z * Z);
    thSensor : option (nat -> pyres Q);
    ser : option (nat -> pyres unit);
    now : nat -> datetime }.

Definition _schedule_minutes (g : Env) : list Z := map fst (schedule g).
Definition _schedule_values (g : Env) : list Z := map snd (schedule g).

(** The [TemperatureMachine] instance together with the two LEDs, the
    number of sensor transactions and clock readings made so far, and what
    has been handed to the display, the serial port and the database. *)
Record Thermostat : Type :=
  { current_state : State;
    baseSetPoint : Z;
    manualOffset : Z;
    setPoint : Z;
    ma : MovingAverage.t;
    redLight : Led;
    blueLight : Led;
    sensor_reads : nat;
    clock_reads : nat;
    screen : list (string * string);
    ser_out : list string;
    db_events : list string;
    db_readings : list (Q * Z * string) }.

Definition set_current_state (v : State) (s : Thermostat) : Thermostat :=
  {| current_state := v;
     baseSetPoint := baseSetPoint s;
     manualOffset := manualOffset s;
     setPoint := setPoint s;
     ma := ma s;
     redLight := redLight s;
     blueLight := blueLight s;
     sensor_reads := sensor_reads s;
     clock_reads := clock_reads s;
     screen := screen s;
     ser_out := ser_out s;
     db_events := db_events s;
     db_readings := db_readings s |}.

Definition set_baseSetPoint (v : Z) (s : Thermostat) : Thermostat :=
  {| current_state := current_state s;
     baseSetPoint := v;
     manualOffset := manualOffset s;
     setPoint := setPoint s;
     ma := ma s;
     redLight := redLight s;
     blueLight := blueLight s;
     sensor_reads := sensor_reads s;
     clock_reads := clock_reads s;
     screen := screen s;
     ser_out := ser_out s;
     db_events := db_events s;
     db_readings := db_readings s |}.

Definition set_manualOffset (v : Z) (s : Thermostat) : Thermostat :=
  {| current_state := current_state s;
     baseSetPoint := baseSetPoint s;
     manualOffset := v;
     setPoint := setPoint s;
     ma := ma s;
     redLight := redLight s;
     blueLight := blueLight s;
     sensor_reads := sensor_reads s;
     clock_reads := clock_reads s;
     screen := screen s;
     ser_out := ser_out s;
     db_events := db_events s;
     db_readings := db_readings s |}.

Definition set_setPoint (v : Z) (s : Thermostat) : Thermostat :=
  {| current_state := current_state s;
     baseSetPoint := baseSetPoint s;
     manualOffset := manualOffset s;
     setPoint := v;
     ma := ma s;
     redLight := redLight s;
     blueLight := blueLight s;
     sensor_reads := sensor_reads s;
     clock_reads := clock_reads s;
     screen := screen s;
     ser_out := ser_out s;
     db_events := db_events s;
     db_readings := db_readings s |}.

Definition set_ma (v : MovingAverage.t) (s : Thermostat) : Thermostat :=
  {| current_state := current_state s;
     baseSetPoint := baseSetPoint s;
     manualOffset := manualOffset s;
     setPoint := setPoint s;
     ma := v;
     redLight := redLight s;
     blueLight := blueLight s;
     sensor_reads := sensor_reads s;
     clock_reads := clock_reads s;
     screen := screen s;
     ser_out := ser_out s;
     db_events := db_events s;
     db_readings := db_readings s |}.

Definition set_redLight (v : Led) (s : Thermostat) : Thermostat :=
  {| current_state := current_state s;
     baseSetPoint := baseSetPoint s;
     manualOffset := manualOffset s;
     setPoint := setPoint s;
     ma := ma s;
     redLight := v;
     blueLight := blueLight s;
     sensor_reads := sensor_reads s;
     clock_reads := clock_reads s;
     screen := screen s;
     ser_out := ser_out s;
     db_events := db_events s;
     db_readings := db_readings s |}.

Definition set_blueLight (v : Led) (s : Thermostat) : Thermostat :=
  {| current_state := current_state s;
     baseSetPoint := baseSetPoint s;
     manualOffset := manualOffset s;
     setPoint := setPoint s;
     ma := ma s;
     redLight := redLight s;
     blueLight := v;
     sensor_reads := sensor_reads s;
     clock_reads := clock_reads s;
     screen := screen s;
     ser_out := ser_out s;
     db_events := db_events s;
     db_readings := db_readings s |}.

Definition set_sensor_reads (v : nat) (s : Thermostat) : Thermostat :=
  {| current_state := current_state s;
     baseSetPoint := baseSetPoint s;
     manualOffset := manualOffset s;
     setPoint := setPoint s;
     ma := ma s;
     redLight := redLight s;
     blueLight := blueLight s;
     sensor_reads := v;
     clock_reads := clock_reads s;
     screen := screen s;
     ser_out := ser_out s;
     db_events := db_events s;
     db_readings := db_readings s |}.

Definition set_clock_reads (v : nat) (s : Thermostat) : Thermostat :=
  {| current_state := current_state s;
     baseSetPoint := baseSetPoint s;
     manualOffset := manualOffset s;
     setPoint := setPoint s;
     ma := ma s;
     redLight := redLight s;
     blueLight := blueLight s;
     sensor_reads := sensor_reads s;
     clock_reads := v;
     screen := screen s;
     ser_out := ser_out s;
     db_events := db_events s;
     db_readings := db_readings s |}.

Definition set_screen (v : list (string * string)) (s : Thermostat) : Thermostat :=
  {| current_state := current_state s;
     baseSetPoint := baseSetPoint s;
     manualOffset := manualOffset s;
     setPoint := setPoint s;
     ma := ma s;
     redLight := redLight s;
     blueLight := blueLight s;
     sensor_reads := sensor_reads s;
     clock_reads := clock_reads s;
     screen := v;
     ser_out := ser_out s;
     db_events := db_events s;
     db_readings := db_readings s |}.

Definition set_ser_out (v : list string) (s : Thermostat) : Thermostat :=
  {| current_state := current_state s;
     baseSetPoint := baseSetPoint s;
     manualOffset := manualOffset s;
     setPoint := setPoint s;
     ma := ma s;
     redLight := redLight s;
     blueLight := blueLight s;
     sensor_reads := sensor_reads s;
     clock_reads := clock_reads s;
     screen := screen s;
     ser_out := v;
     db_events := db_events s;
     db_readings := db_readings s |}.

Definition set_db_events (v : list string) (s : Thermostat) : Thermostat :=
  {| current_state := current_state s;
     baseSetPoint := baseSetPoint s;
     manualOffset := manualOffset s;
     setPoint := setPoint s;
     ma := ma s;
     redLight := redLight s;
     blueLight := blueLight s;
     sensor_reads := sensor_reads s;
     clock_reads := clock_reads s;
     screen := screen s;
     ser_out := ser_out s;
     db_events := v;
     db_readings := db_readings s |}.

Definition set_db_readings (v : list (Q * Z * string)) (s : Thermostat) : Thermostat :=
  {| current_state := current_state s;
     baseSetPoint := baseSetPoint s;
     manualOffset := manualOffset s;
     setPoint := setPoint s;
     ma := ma s;
     redLight := redLight s;
     blueLight := blueLight s;
     sensor_reads := sensor_reads s;
     clock_reads := clock_reads s;
     screen := screen s;
     ser_out := ser_out s;
     db_events := db_events s;
     db_readings := v |}.

(** The controller as [tsm = TemperatureMachine()] leaves it: the class
    attributes, and the initial state entered, so that [on_enter_off] has
    switched both LEDs off and logged the state change. *)
Definition initial : Thermostat :=
  {| current_state := off;
     baseSetPoint := 72;
     manualOffset := 0;
     setPoint := 72;
     ma := MovingAverage.init (PyInt MA_WINDOW);
     redLight := LedOff;
     blueLight := LedOff;
     sensor_reads := 0;
     clock_reads := 0;
     screen := [];
     ser_out := [];
     db_events := ["state_change:off"%string];
     db_readings := [] |}.

(** *** Collaborators *)

(** [datetime.now()] *)
Definition datetime_now (g : Env) : M Thermostat datetime :=
  fun s => (Ok (now g (clock_reads s)), set_clock_reads (S (clock_reads s)) s).

(** [thSensor.temperature] on an initialised sensor. *)
Definition temperature (dev : nat -> pyres Q) : M Thermostat Q :=
  fun s => (dev (sensor_reads s), set_sensor_reads (S (sensor_reads s)) s).

(** [ser.write(line.encode("utf-8"))] on an open port. *)
Definition ser_write (port : nat -> pyres unit) (line : string)
  : M Thermostat unit :=
  fun s => (port (length (ser_out s)), set_ser_out (ser_out s ++ [line]) s).

(** [db.log_event(event_type)]; failures stay inside the call. *)
Definition log_event (event_type : string) : M Thermostat unit :=
  modify (fun s => set_db_events (db_events s ++ [event_type]) s).

(** [db.log_reading(temperature, setpoint, state)]; failures stay inside
    the call. *)
Definition log_reading (temp : Q) (sp : Z) (state : string)
  : M Thermostat unit :=
  modify (fun s => set_db_readings (db_readings s ++ [(temp, sp, state)]) s).

(** [screen.updateScreen(message)]; failures of the LCD stay inside the
    call. *)
Definition updateScreen (message : string) : M Thermostat unit :=
  let parts := split_newline message in
  let line1 := slice_to 16 (ljust 16 (fst parts)) in
  let line2 :=
    slice_to 16 (ljust 16 (match snd parts with
                           | Some p => p
                           | None => EmptyString
                           end)) in
  modify (fun s => set_screen (screen s ++ [(line1, line2)]) s).

(** [sleep(SAMPLE_PERIOD_S)] *)
Definition sleep (seconds : Z) : M Thermostat unit := ret tt.

(** *** TemperatureMachine *)

(** [_refreshEffectiveSetPoint(self)] *)
Definition _refreshEffectiveSetPoint (g : Env) : M Thermostat unit :=
  (if SCHEDULE_ENABLED g && negb (len (_schedule_minutes g) =? 0)
   then
     now_ <- datetime_now g ;;
     let minutes := hour now_ * 60 + minute now_ in
     let idx := Z.of_nat (bisect_right (_schedule_minutes g) minutes) - 1 in
     base <- (fun s =>
                (if idx <? 0 then getitem (_schedule_values g) (-1)
                 else getitem (_schedule_values g) idx, s)) ;;
     modify (set_baseSetPoint base)
   else ret tt) ;;
  s <- get ;;
  modify (set_setPoint (baseSetPoint s + manualOffset s)).

(** [getFahrenheit(self)].  The I2C lock is taken and released around the
    sensor transaction; it has no effect in a sequential run. *)
Definition getFahrenheit (g : Env) : M Thermostat (option Q) :=
  match thSensor g with
  | None => ret None
  | Some dev =>
      try_except
        (t <- temperature dev ;; ret (Some (fadd (fmul (fdiv 9 5) t) 32)))
        (fun _ => ret None)
  end.

(** [_getSmoothedFahrenheit(self)] *)
Definition _getSmoothedFahrenheit (g : Env) : M Thermostat (option Q) :=
  t_f <- getFahrenheit g ;;
  match t_f with
  | None => ret None
  | Some x => zoom ma set_ma (MovingAverage.push x)
  end.

(** [updateLights(self)].  [self.setPoint - HYSTERESIS_F] and
    [self.setPoint + HYSTERESIS_F] are exact in binary64 for every setpoint
    of magnitude below [2 ^ 53]. *)
Definition updateLights (g : Env) : M Thermostat unit :=
  _refreshEffectiveSetPoint g ;;
  temp <- _getSmoothedFahrenheit g ;;
  modify (set_redLight LedOff) ;;
  modify (set_blueLight LedOff) ;;
  s <- get ;;
  let state := State_id (current_state s) in
  if (state =? "off")%string then ret tt
  else
    match temp with
    | None =>
        if (state =? "heat")%string then modify (set_redLight LedSolid)
        else if (state =? "cool")%string then modify (set_blueLight LedSolid)
        else ret tt
    | Some t =>
        if (state =? "heat")%string then
          if Qltb t (inject_Z (setPoint s) - HYSTERESIS_F)
          then modify (set_redLight LedPulse)
          else modify (set_redLight LedSolid)
        else if (state =? "cool")%string then
          if Qltb (inject_Z (setPoint s) + HYSTERESIS_F) t
          then modify (set_blueLight LedPulse)
          else modify (set_blueLight LedSolid)
        else ret tt
    end.

Definition on_enter_heat (g : Env) : M Thermostat unit :=
  updateLights g ;; log_event "state_change:heat".

Definition on_exit_heat : M Thermostat unit := modify (set_redLight LedOff).

Definition on_enter_cool (g : Env) : M Thermostat unit :=
  updateLights g ;; log_event "state_change:cool".

Definition on_exit_cool : M Thermostat unit := modify (set_blueLight LedOff).

Definition on_enter_off : M Thermostat unit :=
  modify (set_redLight LedOff) ;;
  modify (set_blueLight LedOff) ;;
  log_event "state_change:off".

(** The state machine library runs [on_exit_<source>] before the state
    changes and [on_enter_<target>] after it. *)
Definition on_exit_state (st : State) : M Thermostat unit :=
  match st with
  | off => ret tt
  | heat => on_exit_heat
  | cool => on_exit_cool
  end.

Definition on_enter_state (g : Env) (st : State) : M Thermostat unit :=
  match st with
  | off => on_enter_off
  | heat => on_enter_heat g
  | cool => on_enter_cool g
  end.

Definition State_eqb (a b : State) : bool :=
  match a, b with
  | off, off | heat, heat | cool, cool => true
  | _, _ => false
  end.

(** [cycle = off.to(heat) | heat.to(cool) | cool.to(off)] *)
Definition cycle_transitions : list (State * State) :=
  [(off, heat); (heat, cool); (cool, off)].

(** The target of the first transition of the event leaving [st]. *)
Definition cycle_target (st : State) : option State :=
  option_map snd (find (fun tr => State_eqb (fst tr) st) cycle_transitions).

(** Sending the [cycle] event. *)
Definition cycle (g : Env) : M Thermostat unit :=
  s <- get ;;
  match cycle_target (current_state s) with
  | None => raise TransitionNotAllowed
  | Some target =>
      on_exit_state (current_state s) ;;
      modify (set_current_state target) ;;
      on_enter_state g target
  end.

(** [processTempStateButton(self)] *)
Definition processTempStateButton (g : Env) : M Thermostat unit :=
  log_event "button:mode" ;;
  cycle g.

(** [processTempIncButton(self)] *)
Definition processTempIncButton (g : Env) : M Thermostat unit :=
  modify (fun s => set_manualOffset (manualOffset s + 1) s) ;;
  log_event "button:increase" ;;
  _refreshEffectiveSetPoint g ;;
  updateLights g.

(** [processTempDecButton(self)] *)
Definition processTempDecButton (g : Env) : M Thermostat unit :=
  modify (fun s => set_manualOffset (manualOffset s - 1) s) ;;
  log_event "button:decrease" ;;
  _refreshEffectiveSetPoint g ;;
  updateLights g.

(** [setupSerialOutput(self)] *)
Definition setupSerialOutput (g : Env) : M Thermostat string :=
  s <- get ;;
  let state := State_id (current_state s) in
  temp_sm <- _getSmoothedFahrenheit g ;;
  temp_f <-
    try_except
      (match temp_sm with
       | Some t => n <- lift (floor t) ;; ret (str n)
       | None => ret "NA"%string
       end)
      (fun _ => ret "NA"%string) ;;
  s' <- get ;;
  ret (state ++ "," ++ temp_f ++ "," ++ str (setPoint s'))%string.

(** One iteration of the [while] loop of [manageMyDisplay]; the pair is
    [(counter, altCounter)]. *)
Definition tick (g : Env) (counters : Z * Z) : M Thermostat (Z * Z) :=
  let (counter, altCounter) := counters in
  _refreshEffectiveSetPoint g ;;
  current_time <- datetime_now g ;;
  let lcd_line_1 := (ljust 16 (strftime current_time) ++ newline)%string in
  shown <-
    (if altCounter <? 6 then
       temp_sm <- _getSmoothedFahrenheit g ;;
       t_show <-
         (match temp_sm with
          | None => ret "--"%string
          | Some t => n <- lift (floor t) ;; ret (str n)
          end) ;;
       s <- get ;;
       ret (slice_to 16
              (ljust 16 ("Temp:" ++ t_show ++ "F Set:"
                           ++ str (setPoint s) ++ "F")%string),
            altCounter + 1)
     else
       s <- get ;;
       let state_label := upper (State_id (current_state s)) in
       let lcd_line_2 := slice_to 16 (ljust 16 state_label) in
       if altCounter + 1 >=? 11
       then updateLights g ;; ret (lcd_line_2, 1)
       else ret (lcd_line_2, altCounter + 1)) ;;
  updateScreen (lcd_line_1 ++ fst shown)%string ;;
  counter' <-
    (if counter mod STATUS_PERIOD_S =? 0 then
       try_except
         ((match ser g with
           | Some port =>
               line <- setupSerialOutput g ;;
               ser_write port (line ++ newline)%string
           | None => ret tt
           end) ;;
          temp_val <- _getSmoothedFahrenheit g ;;
          s <- get ;;
          log_reading (match temp_val with Some t => t | None => 0%Q end)
                      (setPoint s) (State_id (current_state s)))
         (fun _ => ret tt) ;;
       ret 1
     else ret (counter + 1)) ;;
  sleep SAMPLE_PERIOD_S ;;
  ret (counter', snd shown).

(** Button presses *)
Inductive Event : Type := CycleMode | Increment | Decrement.

Definition handle (g : Env) (e : Event) : M Thermostat unit :=
  match e with
  | CycleMode => processTempStateButton g
  | Increment => processTempIncButton g
  | Decrement => processTempDecButton g
  end.

(** Callbacks run on the button library's own thread: an exception
    raised by one of them does not reach the display loop. *)
Fixpoint handle_all (g : Env) (es : list Event) : M Thermostat unit :=
  match es with
  | [] => ret tt
  | e :: es' =>
      try_except (handle g e) (fun _ => ret tt) ;;
      handle_all g es'
  end.

(** The loop of [manageMyDisplay], for as many iterations as there are
    elements in [rounds]; each element lists the button presses handled
    since the previous iteration. *)
Fixpoint loop (g : Env) (rounds : list (list Event)) (counters : Z * Z)
  : M Thermostat (Z * Z) :=
  match rounds with
  | [] => ret counters
  | es :: rounds' =>
      handle_all g es ;;
      counters' <- tick g counters ;;
      loop g rounds' counters'
  end.

(** [manageMyDisplay(self)], leaving the loop after [length rounds]
    iterations; the final clean-up of the display is outside the model. *)
Definition manageMyDisplay (g : Env) (rounds : list (list Event))
  : M Thermostat (Z * Z) :=
  loop g rounds (1, 1).

(** ** The schedule table built at import time

    The text handled here is ASCII. *)

(** What can stop the module while it is being imported. *)
Inductive import_exn : Type := ValueError.

Inductive loaded (A : Type) : Type :=
| Done (a : A)
| Fail (e : import_exn).
Arguments Done {A} a.
Arguments Fail {A} e.

(** White space as [int] skips it around a literal: the blank and the
    characters from tab to carriage return. *)
Definition is_space (c : ascii) : bool :=
  let n := nat_of_ascii c in
  (((9 <=? n) && (n <=? 13)) || (n =? 32))%nat.

Definition digit_of (c : ascii) : option Z :=
  let n := nat_of_ascii c in
  if ((48 <=? n) && (n <=? 57))%nat then Some (Z.of_nat (n - 48)) else None.

Fixpoint lstrip (s : string) : string :=
  match s with
  | String c s' => if is_space c then lstrip s' else s
  | EmptyString => EmptyString
  end.

(** Decimal digits, with single underscores allowed between two digits;
    [after_digit] tells whether the previous character was a digit. *)
Fixpoint digits_value (acc : Z) (after_digit : bool) (s : string)
  : option Z :=
  match s with
  | EmptyString => if after_digit then Some acc else None
  | String c s' =>
      match digit_of c with
      | Some d => digits_value (acc * 10 + d) true s'
      | None =>
          if Ascii.eqb c "_" then
            if after_digit then digits_value acc false s' else None
          else if is_space c then
            (* only white space may follow the digits *)
            if after_digit
            then match lstrip s' with
                 | EmptyString => Some acc
                 | String _ _ => None
                 end
            else None
          else None
      end
  end.

(** [int(s)] for a string: white space, an optional sign, digits, white
    space. *)
Definition int_of_str (s : string) : loaded Z :=
  match lstrip s with
  | String c s' =>
      if Ascii.eqb c "-" then
        match digits_value 0 false s' with
        | Some v => Done (- v)
        | None => Fail ValueError
        end
      else if Ascii.eqb c "+" then
        match digits_value 0 false s' with
        | Some v => Done v
        | None => Fail ValueError
        end
      else
        match digits_value 0 false (String c s') with
        | Some v => Done v
        | None => Fail ValueError
        end
  | EmptyString => Fail ValueError
  end.

(** [s.split(":")] *)
Fixpoint split_colon (s : string) : list string :=
  match s with
  | EmptyString => [EmptyString]
  | String c s' =>
      if Ascii.eqb c ":" then EmptyString :: split_colon s'
      else match split_colon s' with
           | p :: ps => String c p :: ps
           | [] => [String c EmptyString]
           end
  end.

(** [_hhmm_to_minutes(hhmm)]: the unpacking [h, m = ...] needs exactly two
    parts. *)
Definition _hhmm_to_minutes (hhmm : string) : loaded Z :=
  match split_colon hhmm with
  | [h; m] =>
      match int_of_str h with
      | Done hv =>
          match int_of_str m with
          | Done mv => Done (hv * 60 + mv)
          | Fail e => Fail e
          end
      | Fail e => Fail e
      end
  | _ => Fail ValueError
  end.

(** An element of [SCHEDULE_ENTRIES]. *)
Record entry : Type := { start : string; setpoint : Z }.

Definition SCHEDULE_ENTRIES : list entry :=
  [ {| start := "06:00"; setpoint := 70 |};
    {| start := "22:00"; setpoint := 65 |} ].

(** [sorted(entries, key=lambda e: e["start"])].  The sort is stable and
    compares the keys with [<] on strings; an insertion sort that places
    each element after the ones that are not greater gives the same
    list. *)
Fixpoint insert_by_start (e : entry) (l : list entry) : list entry :=
  match l with
  | [] => [e]
  | x :: rest =>
      if String.ltb (start e) (start x) then e :: l
      else x :: insert_by_start e rest
  end.

Definition sorted_by_start (l : list entry) : list entry :=
  fold_left (fun acc e => insert_by_start e acc) l [].

(** The loop that fills [_schedule_minutes] and [_schedule_values]. *)
Fixpoint preprocess_loop (es : list entry) (minutes values : list Z)
  : loaded (list Z * list Z) :=
  match es with
  | [] => Done (minutes, values)
  | e :: rest =>
      match _hhmm_to_minutes (start e) with
      | Done m => preprocess_loop rest (minutes ++ [m]) (values ++ [setpoint e])
      | Fail x => Fail x
      end
  end.

Definition preprocess (entries : list entry) : loaded (list Z * list Z) :=
  preprocess_loop (sorted_by_start entries) [] [].

(** ** The first version of the controller

    The earliest file has no schedule, no filter and no database: the
    buttons move [setPoint] itself, the temperature is the floor of one
    sensor read, and neither the sensor, nor the serial port, nor the LCD is
    guarded by a [try].  The state is the same record, of which
    [baseSetPoint], [manualOffset], [ma] and the database fields are not
    used. *)

Module V1.

(** [thSensor] and [ser] are created without a guard, so both exist
    whenever the program runs.  [lcd] is the outcome of the n-th update of
    the display. *)
Record Devices : Type :=
  { thSensor : nat -> pyres Q;
    ser : nat -> pyres unit;
    lcd : nat -> pyres unit;
    now : nat -> datetime }.

Definition datetime_now (d : Devices) : M Thermostat datetime :=
  fun s => (Ok (now d (clock_reads s)), set_clock_reads (S (clock_reads s)) s).

(** [getFahrenheit(self)] *)
Definition getFahrenheit (d : Devices) : M Thermostat Q :=
  t <- temperature (thSensor d) ;;
  ret (fadd (fmul (fdiv 9 5) t) 32).

(** [screen.updateScreen(message)]: an exception of the LCD leaves the
    call.  [screen] records the rows of every call. *)
Definition updateScreen (d : Devices) (message : string) : M Thermostat unit :=
  let parts := split_newline message in
  let line1 := slice_to 16 (ljust 16 (fst parts)) in
  let line2 :=
    slice_to 16 (ljust 16 (match snd parts with
                           | Some p => p
                           | None => EmptyString
                           end)) in
  fun s =>
    (lcd d (length (screen s)), set_screen (screen s ++ [(line1, line2)]) s).

(** [updateLights(self)] *)
Definition updateLights (d : Devices) : M Thermostat unit :=
  f <- getFahrenheit d ;;
  temp <- lift (floor f) ;;
  modify (set_redLight LedOff) ;;
  modify (set_blueLight LedOff) ;;
  s <- get ;;
  let state := State_id (current_state s) in
  if (state =? "off")%string then ret tt
  else if (state =? "heat")%string then
    if temp <? setPoint s
    then modify (set_redLight LedPulse)
    else modify (set_redLight LedSolid)
  else if (state =? "cool")%string then
    if temp >? setPoint s
    then modify (set_blueLight LedPulse)
    else modify (set_blueLight LedSolid)
  else ret tt.

Definition on_exit_state (st : State) : M Thermostat unit :=
  match st with
  | off => ret tt
  | heat => modify (set_redLight LedOff)
  | cool => modify (set_blueLight LedOff)
  end.

Definition on_enter_state (d : Devices) (st : State) : M Thermostat unit :=
  match st with
  | off => modify (set_redLight LedOff) ;; modify (set_blueLight LedOff)
  | heat => updateLights d
  | cool => updateLights d
  end.

(** Sending the [cycle] event; [processTempStateButton] does nothing
    else. *)
Definition cycle (d : Devices) : M Thermostat unit :=
  s <- get ;;
  match cycle_target (current_state s) with
  | None => raise TransitionNotAllowed
  | Some target =>
      on_exit_state (current_state s) ;;
      modify (set_current_state target) ;;
      on_enter_state d target
  end.

(** [processTempIncButton(self)] *)
Definition processTempIncButton (d : Devices) : M Thermostat unit :=
  modify (fun s => set_setPoint (setPoint s + 1) s) ;;
  updateLights d.

(** [processTempDecButton(self)] *)
Definition processTempDecButton (d : Devices) : M Thermostat unit :=
  modify (fun s => set_setPoint (setPoint s - 1) s) ;;
  updateLights d.

(** [setupSerialOutput(self)] *)
Definition setupSerialOutput (d : Devices) : M Thermostat string :=
  s <- get ;;
  let state := State_id (current_state s) in
  f <- getFahrenheit d ;;
  temp_f <- lift (floor f) ;;
  s' <- get ;;
  ret (state ++ "," ++ str temp_f ++ "," ++ str (setPoint s'))%string.

(** One iteration of the loop of [manageMyDisplay]. *)
Definition tick (d : Devices) (counters : Z * Z) : M Thermostat (Z * Z) :=
  let (counter, altCounter) := counters in
  current_time <- datetime_now d ;;
  let lcd_line_1 := (ljust 16 (strftime current_time) ++ newline)%string in
  shown <-
    (if altCounter <? 6 then
       f <- getFahrenheit d ;;
       temp_f <- lift (floor f) ;;
       s <- get ;;
       ret (slice_to 16
              (ljust 16 ("Temp:" ++ str temp_f ++ "F Set:"
                           ++ str (setPoint s) ++ "F")%string),
            altCounter + 1)
     else
       s <- get ;;
       let state_label := upper (State_id (current_state s)) in
       let lcd_line_2 := slice_to 16 (ljust 16 state_label) in
       if altCounter + 1 >=? 11
       then updateLights d ;; ret (lcd_line_2, 1)
       else ret (lcd_line_2, altCounter + 1)) ;;
  updateScreen d (lcd_line_1 ++ fst shown)%string ;;
  counter' <-
    (if counter mod 30 =? 0 then
       line <- setupSerialOutput d ;;
       ser_write (ser d) (line ++ newline)%string ;;
       ret 1
     else ret (counter + 1)) ;;
  sleep 1 ;;
  ret (counter', snd shown).

(** [n] iterations of the loop; an exception ends the thread. *)
Fixpoint loop (d : Devices) (n : nat) (counters : Z * Z)
  : M Thermostat (Z * Z) :=
  match n with
  | O => ret counters
  | S n' =>
      counters' <- tick d counters ;;
      loop d n' counters'
  end.

Definition manageMyDisplay (d : Devices) (n : nat) : M Thermostat (Z * Z) :=
  loop d n (1, 1).

(** A button press, and several in a row. *)
Definition handle (d : Devices) (e : Event) : M Thermostat unit :=
  match e with
  | CycleMode => cycle d
  | Increment => processTempIncButton d
  | Decrement => processTempDecButton d
  end.

Fixpoint handle_all (d : Devices) (es : list Event) : M Thermostat unit :=
  match es with
  | [] => ret tt
  | e :: es' => handle d e ;; handle_all d es'
  end.

End V1.

(** * Definitions used to state the properties *)

(** Sum of a list of samples. *)
Definition Qsum (l : list Q) : Q := fold_right Qplus 0%Q l.

(** The [n] most recent elements of [l]. *)
Definition lastn {A} (n : Z) (l : list A) : list A :=
  skipn (length l - Z.to_nat n) l.

(** Results are compared after reduction to lowest terms. *)
Definition normalise (r : pyres (option Q)) : pyres (option Q) :=
  match r with
  | Ok (Some q) => Ok (Some (Qred q))
  | other => other
  end.

(** The state in which [push x] calls [value]. *)
Definition pushed (x : Q) (m : MovingAverage.t) : MovingAverage.t :=
  let b := MovingAverage.buf m ++ [x] in
  if len b >? MovingAverage.window m
  then MovingAverage.mk (MovingAverage.window m) (tl b)
         (fsub (fadd (MovingAverage.sum m) x) (hd 0%Q b))
  else MovingAverage.mk (MovingAverage.window m) b
         (fadd (MovingAverage.sum m) x).

(** What holds of a filter of window [W] after the samples [xs] have been
    pushed, oldest first. *)
Record ma_inv (W : Z) (xs : list Q) (m : MovingAverage.t) : Prop :=
  { inv_window : MovingAverage.window m = W;
    inv_buf : MovingAverage.buf m = lastn W xs }.

(** A sample that is a whole number of magnitude at most [B]. *)
Definition small_int (B : Z) (q : Q) : Prop :=
  exists z, q = inject_Z z /\ Z.abs z <= B.

(** The decimal literal [d] as Python reads it. *)
Definition float_of (d : Q) : Q := round64 d.

(** The entry in force at minute [m] as the specification words it: the
    entry with the greatest start among those starting at or before [m]. *)
Definition greatest_at_or_before (entries : list (Z * Z)) (m : Z)
  (e : Z * Z) : Prop :=
  In e entries /\ fst e <= m /\
  forall e', In e' entries -> fst e' <= m -> fst e' <= fst e.

(** The setpoint the specification asks of the lookup: that of the entry in
    force, or of the last entry when [m] is before every start. *)
Definition lookup_spec (entries : list (Z * Z)) (m : Z) (v : Z) : Prop :=
  (exists e, greatest_at_or_before entries m e /\ v = snd e) \/
  ((forall e, In e entries -> m < fst e) /\
   exists front e, entries = front ++ [e] /\ v = snd e).

(** The outputs a decision table can ask for. *)
Inductive Colour : Type := Red | Blue.

Inductive ActuationDecision : Type :=
| OffBoth
| Solid (c : Colour)
| Pulsing (c : Colour).

(** The decision the two LEDs show, when at most one of them is lit. *)
Definition decision (s : Thermostat) : option ActuationDecision :=
  match redLight s, blueLight s with
  | LedOff, LedOff => Some OffBoth
  | LedSolid, LedOff => Some (Solid Red)
  | LedPulse, LedOff => Some (Pulsing Red)
  | LedOff, LedSolid => Some (Solid Blue)
  | LedOff, LedPulse => Some (Pulsing Blue)
  | _, _ => None
  end.

(** The successor of a mode in the cycle Off, Heat, Cool. *)
Definition next_mode (st : State) : State :=
  match st with
  | off => heat
  | heat => cool
  | cool => off
  end.

(** A clock that always shows the given hour and minute. *)
Definition clock_at (h mi : Z) : nat -> datetime :=
  fun _ => {| month := 1; day := 1; hour := h; minute := mi; second := 0 |}.

(** The configuration of the source: schedule 06:00 -> 70, 22:00 -> 65,
    with devices that always answer. *)
Definition env_at (h mi : Z) (celsius : nat -> Q) : Env :=
  {| SCHEDULE_ENABLED := true;
     schedule := [(360, 70); (1320, 65)];
     thSensor := Some (fun n => Ok (celsius n));
     ser := Some (fun _ => Ok tt);
     now := clock_at h mi |}.

(** Minutes since midnight, as [_refreshEffectiveSetPoint] computes them. *)
Definition minute_of_day (d : datetime) : Z := hour d * 60 + minute d.

(** Whether [_refreshEffectiveSetPoint] consults the schedule. *)
Definition schedule_in_use (g : Env) : bool :=
  SCHEDULE_ENABLED g && negb (len (_schedule_minutes g) =? 0).

(** The element of [_schedule_values] it picks at minute [m]. *)
Definition schedule_pick (g : Env) (m : Z) : pyres Z :=
  let idx := Z.of_nat (bisect_right (_schedule_minutes g) m) - 1 in
  if idx <? 0 then getitem (_schedule_values g) (-1)
  else getitem (_schedule_values g) idx.

(** ** What each method leaves behind

    The functions below give the state reached by each method, and the
    value it returns, in closed form.  The lemmas named [.._eq] show that
    the methods, written as in the source, compute exactly these. *)

(** A function of the state that does not look at the field written by
    [setter]. *)
Definition ignores {V B} (setter : V -> Thermostat -> Thermostat)
  (f : Thermostat -> B) : Prop :=
  forall v s, f (setter v s) = f s.

(** After [_refreshEffectiveSetPoint]. *)
Definition refreshed (g : Env) (s : Thermostat) : Thermostat :=
  if schedule_in_use g then
    match schedule_pick g (minute_of_day (now g (clock_reads s))) with
    | Ok base =>
        set_setPoint (base + manualOffset s)
          (set_baseSetPoint base (set_clock_reads (S (clock_reads s)) s))
    | Raise _ => set_clock_reads (S (clock_reads s)) s
    end
  else set_setPoint (baseSetPoint s + manualOffset s) s.

(** The Fahrenheit value computed from a reading in degrees Celsius. *)
Definition fahrenheit (t : Q) : Q := fadd (fmul (fdiv 9 5) t) 32.

(** What [getFahrenheit] returns, and the state after it. *)
Definition sample (g : Env) (s : Thermostat) : option Q :=
  match thSensor g with
  | None => None
  | Some dev =>
      match dev (sensor_reads s) with
      | Ok t => Some (fahrenheit t)
      | Raise _ => None
      end
  end.

Definition sampled (g : Env) (s : Thermostat) : Thermostat :=
  match thSensor g with
  | None => s
  | Some _ => set_sensor_reads (S (sensor_reads s)) s
  end.

(** What [value()] returns. *)
Definition average (m : MovingAverage.t) : option Q :=
  match MovingAverage.buf m with
  | [] => None
  | _ :: _ =>
      Some (fdiv (MovingAverage.sum m) (inject_Z (len (MovingAverage.buf m))))
  end.

(** What [_getSmoothedFahrenheit] returns, and the state after it. *)
Definition smoothed_value (g : Env) (s : Thermostat) : option Q :=
  match sample g s with
  | None => None
  | Some x => average (pushed x (ma s))
  end.

Definition smoothed (g : Env) (s : Thermostat) : Thermostat :=
  match sample g s with
  | None => sampled g s
  | Some x => set_ma (pushed x (ma s)) (sampled g s)
  end.

(** The LEDs as the second half of [updateLights] sets them, given the
    smoothed temperature it obtained. *)
Definition lights_set (temp : option Q) (s : Thermostat) : Thermostat :=
  let dark := set_blueLight LedOff (set_redLight LedOff s) in
  match current_state s with
  | off => dark
  | heat =>
      set_redLight
        match temp with
        | None => LedSolid
        | Some t =>
            if Qltb t (inject_Z (setPoint s) - HYSTERESIS_F)
            then LedPulse else LedSolid
        end dark
  | cool =>
      set_blueLight
        match temp with
        | None => LedSolid
        | Some t =>
            if Qltb (inject_Z (setPoint s) + HYSTERESIS_F) t
            then LedPulse else LedSolid
        end dark
  end.

(** After [updateLights]. *)
Definition updated (g : Env) (s : Thermostat) : Thermostat :=
  lights_set (smoothed_value g (refreshed g s)) (smoothed g (refreshed g s)).

(** After [db.log_event]. *)
Definition logged (event_type : string) (s : Thermostat) : Thermostat :=
  set_db_events (db_events s ++ [event_type]) s.

(** After the [cycle] event. *)
Definition cycled (g : Env) (s : Thermostat) : Thermostat :=
  match current_state s with
  | off => logged "state_change:heat" (updated g (set_current_state heat s))
  | heat =>
      logged "state_change:cool"
        (updated g (set_current_state cool (set_redLight LedOff s)))
  | cool =>
      logged "state_change:off"
        (set_blueLight LedOff
           (set_redLight LedOff
              (set_current_state off (set_blueLight LedOff s))))
  end.

(** After a press of the increase or decrease button, [delta] being the
    change of the manual offset. *)
Definition adjusted (g : Env) (delta : Z) (label : string) (s : Thermostat)
  : Thermostat :=
  updated g
    (refreshed g (logged label (set_manualOffset (manualOffset s + delta) s))).

(** After one button press. *)
Definition handled (g : Env) (e : Event) (s : Thermostat) : Thermostat :=
  match e with
  | CycleMode => cycled g (logged "button:mode" s)
  | Increment => adjusted g 1 "button:increase" s
  | Decrement => adjusted g (-1) "button:decrease" s
  end.

(** The next value of [altCounter] and of [counter]. *)
Definition display_alt (altCounter : Z) : Z :=
  if altCounter <? 6 then altCounter + 1
  else if altCounter + 1 >=? 11 then 1 else altCounter + 1.

Definition status_counter (counter : Z) : Z :=
  if counter mod STATUS_PERIOD_S =? 0 then 1 else counter + 1.

(** The two rows [updateScreen] derives from its argument. *)
Definition screen_rows (message : string) : string * string :=
  (slice_to 16 (ljust 16 (fst (split_newline message))),
   slice_to 16 (ljust 16 (match snd (split_newline message) with
                          | Some p => p
                          | None => EmptyString
                          end))).

(** In one iteration of the loop: the state after the refresh and the
    reading of the clock. *)
Definition clocked (g : Env) (s : Thermostat) : Thermostat :=
  set_clock_reads (S (clock_reads (refreshed g s))) (refreshed g s).

(** The second display row. *)
Definition lcd_line_2 (g : Env) (altCounter : Z) (s : Thermostat) : string :=
  if altCounter <? 6 then
    slice_to 16
      (ljust 16 ("Temp:" ++ match smoothed_value g s with
                            | None => "--"
                            | Some t => str (Qfloor t)
                            end
                 ++ "F Set:" ++ str (setPoint (smoothed g s)) ++ "F")%string)
  else slice_to 16 (ljust 16 (upper (State_id (current_state s)))).

(** The state after the display part of the iteration, before the row is
    handed to the screen. *)
Definition shown (g : Env) (altCounter : Z) (s : Thermostat) : Thermostat :=
  if altCounter <? 6 then smoothed g s
  else if altCounter + 1 >=? 11 then updated g s else s.

(** The state after [updateScreen]. *)
Definition displayed (g : Env) (altCounter : Z) (s : Thermostat)
  : Thermostat :=
  let s2 := clocked g s in
  let s3 := shown g altCounter s2 in
  set_screen
    (screen s3 ++
     [screen_rows ((ljust 16 (strftime (now g (clock_reads (refreshed g s))))
                    ++ newline) ++ lcd_line_2 g altCounter s2)%string])
    s3.

(** What [setupSerialOutput] returns. *)
Definition status_line (g : Env) (s : Thermostat) : string :=
  (State_id (current_state s) ++ "," ++
   match smoothed_value g s with
   | Some t => str (Qfloor t)
   | None => "NA"
   end ++ "," ++ str (setPoint (smoothed g s)))%string.

(** After the smoothed read and [db.log_reading] of the status branch. *)
Definition reading_logged (g : Env) (s : Thermostat) : Thermostat :=
  let s' := smoothed g s in
  set_db_readings
    (db_readings s' ++
     [(match smoothed_value g s with Some t => t | None => 0%Q end,
       setPoint s', State_id (current_state s'))])
    s'.

(** After the status branch. *)
Definition emitted (g : Env) (s : Thermostat) : Thermostat :=
  match ser g with
  | None => reading_logged g s
  | Some port =>
      let s5 := smoothed g s in
      let s6 :=
        set_ser_out (ser_out s5 ++ [(status_line g s ++ newline)%string]) s5 in
      match port (length (ser_out s5)) with
      | Ok _ => reading_logged g s6
      | Raise _ => s6
      end
  end.

(** After one iteration of the loop. *)
Definition ticked (g : Env) (counter altCounter : Z) (s : Thermostat)
  : Thermostat :=
  if counter mod STATUS_PERIOD_S =? 0
  then emitted g (displayed g altCounter s)
  else displayed g altCounter s.

(** After a list of button presses, and after a run of the loop. *)
Definition handled_all (g : Env) (es : list Event) (s : Thermostat)
  : Thermostat :=
  fold_left (fun s' e => handled g e s') es s.

Fixpoint looped (g : Env) (rounds : list (list Event)) (counters : Z * Z)
  (s : Thermostat) : (Z * Z) * Thermostat :=
  match rounds with
  | [] => (counters, s)
  | es :: rounds' =>
      looped g rounds'
        (status_counter (fst counters), display_alt (snd counters))
        (ticked g (fst counters) (snd counters) (handled_all g es s))
  end.

(** The number of smoothed reads made by the display part of an iteration
    and by its status part; [written] is the number of lines handed to the
    port so far. *)
Definition display_reads (altCounter : Z) : nat :=
  if altCounter <? 6 then 1
  else if altCounter + 1 >=? 11 then 1 else 0.

Definition status_reads (g : Env) (counter : Z) (written : nat) : nat :=
  if counter mod STATUS_PERIOD_S =? 0 then
    match ser g with
    | None => 1
    | Some port => if is_ok (port written) then 2 else 1
    end
  else 0.

(** A sensor whose n-th reading is 20 + n degrees Celsius. *)
Definition warming : Env :=
  env_at 12 30 (fun n => inject_Z (20 + Z.of_nat n)).

(** A start time as the schedule writes it: two digits, a colon, two
    digits. *)
Definition hhmm_text (h m : Z) : string := (pad2 h ++ ":" ++ pad2 m)%string.

Definition well_formed_start (e : entry) : Prop :=
  exists h m, 0 <= h <= 99 /\ 0 <= m <= 59 /\ start e = hhmm_text h m.

(** The minutes of an entry whose start can be read. *)
Definition entry_minutes (e : entry) : Z :=
  match _hhmm_to_minutes (start e) with
  | Done m => m
  | Fail _ => 0
  end.

(** The number of colons in a text. *)
Fixpoint colons (s : string) : nat :=
  match s with
  | EmptyString => 0
  | String c s' => (if Ascii.eqb c ":" then 1 else 0) + colons s'
  end.

(** The integers [0 .. n-1], for exhaustive checks. *)
Definition below (n : nat) : list Z := map Z.of_nat (seq 0 n).

(** The change of the manual offset and the number of mode presses
    brought by a list of button presses. *)
Definition offset_delta (e : Event) : Z :=
  match e with
  | CycleMode => 0
  | Increment => 1
  | Decrement => -1
  end.

Definition net_presses (es : list Event) : Z :=
  fold_right (fun e acc => offset_delta e + acc) 0 es.

Definition mode_presses (es : list Event) : nat :=
  length (filter (fun e => match e with CycleMode => true | _ => false end) es).

(** What the presses [es], made from mode [st] on, write to the event
    table. *)
Fixpoint event_log (st : State) (es : list Event) : list string :=
  match es with
  | [] => []
  | CycleMode :: es' =>
      "button:mode"%string
      :: ("state_change:" ++ State_id (next_mode st))%string
      :: event_log (next_mode st) es'
  | Increment :: es' => "button:increase"%string :: event_log st es'
  | Decrement :: es' => "button:decrease"%string :: event_log st es'
  end.

(** The LEDs show the mode: both dark in Off, only the red one lit in
    Heat, only the blue one lit in Cool. *)
Definition lights_match_mode (s : Thermostat) : Prop :=
  match current_state s with
  | off => redLight s = LedOff /\ blueLight s = LedOff
  | heat => redLight s <> LedOff /\ blueLight s = LedOff
  | cool => redLight s = LedOff /\ blueLight s <> LedOff
  end.

(** A text without a line break. *)
Fixpoint no_newline (s : string) : bool :=
  match s with
  | EmptyString => true
  | String c s' => negb (Ascii.eqb c (ascii_of_nat 10)) && no_newline s'
  end.

(** The filter of the controller keeps its window and stays within it. *)
Definition filter_ok (s : Thermostat) : Prop :=
  MovingAverage.window (ma s) = MA_WINDOW /\
  len (MovingAverage.buf (ma s)) <= MA_WINDOW.

(** The LEDs as the first version's [updateLights] sets them from the
    floored temperature. *)
Definition v1_lights_set (temp : Z) (s : Thermostat) : Thermostat :=
  let dark := set_blueLight LedOff (set_redLight LedOff s) in
  match current_state s with
  | off => dark
  | heat =>
      set_redLight (if temp <? setPoint s then LedPulse else LedSolid) dark
  | cool =>
      set_blueLight (if temp >? setPoint s then LedPulse else LedSolid) dark
  end.

(** The state after one sensor transaction. *)
Definition read_once (s : Thermostat) : Thermostat :=
  set_sensor_reads (S (sensor_reads s)) s.

(** * Properties *)

(** ** The moving average *)

Section MovingAverageFacts.
Import MovingAverage.

Lemma push_unfold x m : push x m = value (pushed x m).
Proof.
  unfold push, pushed, bind, modify, get, popleft, ret; cbn.
  destruct (len (buf m ++ [x]) >? window m) eqn:E; cbn; [|reflexivity].
  destruct (buf m ++ [x]) as [|y rest] eqn:B; cbn.
  - destruct (buf m); discriminate.
  - reflexivity.
Qed.

Lemma value_unfold m :
  value m = (match buf m with
             | [] => Ok None
             | _ :: _ => Ok (Some (fdiv (sum m) (inject_Z (len (buf m)))))
             end, m).
Proof.
  unfold value, bind, get, ret, truediv.
  destruct (buf m) as [|y rest] eqn:B; [reflexivity|].
  unfold len; cbn [length].
  destruct (Z.eqb_spec (Z.of_nat (S (length rest))) 0); [lia|reflexivity].
Qed.

Lemma value_state m : snd (value m) = m.
Proof. rewrite value_unfold; reflexivity. Qed.

Lemma push_state x m : snd (push x m) = pushed x m.
Proof. rewrite push_unfold; apply value_state. Qed.

Lemma pushed_window x m : window (pushed x m) = window m.
Proof. unfold pushed; destruct (_ >? _); reflexivity. Qed.

Lemma pushed_buf x m :
  buf (pushed x m) =
  if len (buf m ++ [x]) >? window m then tl (buf m ++ [x]) else buf m ++ [x].
Proof. unfold pushed; destruct (_ >? _); reflexivity. Qed.

Lemma len_app_one {A} (l : list A) a : len (l ++ [a]) = len l + 1.
Proof. unfold len; rewrite length_app; cbn; lia. Qed.

Lemma len_tl_app_one {A} (l : list A) a : len (tl (l ++ [a])) = len l.
Proof. destruct l; unfold len; cbn; [reflexivity|rewrite length_app; cbn; lia]. Qed.

(** With a window of at least one the buffer is never left empty. *)
Lemma pushed_buf_nonempty x m : 1 <= window m -> 1 <= len (buf (pushed x m)).
Proof.
  intros Hw; rewrite pushed_buf.
  destruct (Z.gtb_spec (len (buf m ++ [x])) (window m)) as [E|E].
  - rewrite len_tl_app_one. rewrite len_app_one in E. lia.
  - rewrite len_app_one. unfold len; lia.
Qed.

Lemma pushed_buf_bound x m :
  len (buf m) <= window m -> len (buf (pushed x m)) <= window m.
Proof.
  intros Hb; rewrite pushed_buf.
  destruct (Z.gtb_spec (len (buf m ++ [x])) (window m)) as [E|E].
  - rewrite len_tl_app_one; exact Hb.
  - lia.
Qed.

Lemma pushes_snoc xs x m :
  pushes (xs ++ [x]) m =
  (fst (pushes xs m) ++ [fst (push x (snd (pushes xs m)))],
   snd (push x (snd (pushes xs m)))).
Proof.
  revert m; induction xs as [|y xs IH]; intros m; cbn [pushes app].
  - cbn [fst snd app]; destruct (push x m); reflexivity.
  - destruct (push y m) as [r m1]; rewrite IH.
    destruct (pushes xs m1); reflexivity.
Qed.

Lemma tl_skipn {A} (l : list A) k : tl (skipn k l) = skipn (S k) l.
Proof.
  revert l; induction k as [|k IH]; intros [|a l]; cbn [skipn tl];
    try reflexivity.
  apply IH.
Qed.

Lemma lastn_snoc {A} (W : Z) (xs : list A) x :
  1 <= W ->
  lastn W (xs ++ [x]) =
  if len (lastn W xs ++ [x]) >? W then tl (lastn W xs ++ [x])
  else lastn W xs ++ [x].
Proof.
  intros HW; unfold lastn, len.
  rewrite !length_app, length_skipn; cbn [length].
  destruct (Z.gtb_spec (Z.of_nat (length xs - (length xs - Z.to_nat W) + 1)) W)
    as [E|E].
  - assert (Hk : (length xs - Z.to_nat W < length xs)%nat) by lia.
    replace (length xs + 1 - Z.to_nat W)%nat with (S (length xs - Z.to_nat W)) by lia.
    rewrite <- tl_skipn, skipn_app.
    replace (length xs - Z.to_nat W - length xs)%nat with 0%nat by lia.
    reflexivity.
  - replace (length xs + 1 - Z.to_nat W)%nat with 0%nat by lia.
    replace (length xs - Z.to_nat W)%nat with 0%nat by lia.
    reflexivity.
Qed.

Lemma ma_inv_init w : ma_inv (Z.max 1 (py_int w)) [] (init w).
Proof. split; reflexivity. Qed.

Lemma ma_inv_push W xs m x :
  1 <= W -> ma_inv W xs m -> ma_inv W (xs ++ [x]) (pushed x m).
Proof.
  intros HW [Hw Hb]; split.
  - rewrite pushed_window; exact Hw.
  - rewrite pushed_buf, Hw, Hb. symmetry; apply lastn_snoc; exact HW.
Qed.

Lemma ma_inv_pushes w xs :
  ma_inv (Z.max 1 (py_int w)) xs (snd (pushes xs (init w))).
Proof.
  induction xs as [|x xs IH] using rev_ind.
  - apply ma_inv_init.
  - rewrite pushes_snoc; cbn [snd]. rewrite push_state.
    apply ma_inv_push; [lia|assumption].
Qed.

Lemma ma_inv_bound W xs m : 1 <= W -> ma_inv W xs m -> len (buf m) <= W.
Proof.
  intros HW [_ Hb]; rewrite Hb; unfold lastn, len.
  rewrite length_skipn; lia.
Qed.

(** A push into a filter whose window is at least one returns the
    average held by the filter afterwards. *)
Lemma push_returns x m :
  1 <= window m ->
  push x m =
  (Ok (Some (fdiv (sum (pushed x m)) (inject_Z (len (buf (pushed x m)))))),
   pushed x m).
Proof.
  intros Hw; rewrite push_unfold, value_unfold.
  pose proof (pushed_buf_nonempty x m Hw) as Hne.
  destruct (buf (pushed x m)); [cbn in Hne; lia|reflexivity].
Qed.

Lemma value_ok m : is_ok (fst (value m)) = true.
Proof. rewrite value_unfold; destruct (buf m); reflexivity. Qed.

Lemma push_ok x m : is_ok (fst (push x m)) = true.
Proof. rewrite push_unfold; apply value_ok. Qed.

Lemma pushes_results w xs :
  Forall (fun r => exists v, r = Ok (Some v)) (fst (pushes xs (init w))).
Proof.
  induction xs as [|x xs IH] using rev_ind.
  - constructor.
  - rewrite pushes_snoc; cbn [fst]. apply Forall_app; split; [exact IH|].
    constructor; [|constructor].
    rewrite push_returns; [eexists; reflexivity|].
    rewrite (inv_window _ _ _ (ma_inv_pushes w xs)); lia.
Qed.

Lemma lastn_nil_iff {A} W (xs : list A) : 1 <= W -> lastn W xs = [] <-> xs = [].
Proof.
  intros HW; unfold lastn; split; intros H; [|subst; reflexivity].
  apply (f_equal (@length A)) in H. rewrite length_skipn in H.
  destruct xs; [reflexivity|cbn [length] in H; lia].
Qed.

(** *** Rounding *)

Lemma round64_proper q q' : (q == q')%Q -> round64 q = round64 q'.
Proof.
  intros H. unfold round64. rewrite (Qred_complete _ _ H). reflexivity.
Qed.

Lemma Qred_inject_Z z : Qred (inject_Z z) = inject_Z z.
Proof.
  pose proof (Qred_correct (inject_Z z)) as E.
  pose proof (gcd_Qred (inject_Z z)) as G.
  destruct (Qred (inject_Z z)) as [n d].
  unfold Qeq in E. cbn in E, G. rewrite Z.mul_1_r in E. subst n.
  rewrite Z.mul_comm, Z.gcd_comm, Z.gcd_mul_diag_l in G by lia.
  unfold inject_Z. f_equal; lia.
Qed.

Lemma round_half_even_exact n d : 0 < d -> round_half_even (n * d) d = n.
Proof.
  intros Hd. unfold round_half_even.
  rewrite Z.div_mul, Z.mod_mul by lia.
  destruct (Z.ltb_spec (2 * 0) d); [reflexivity|lia].
Qed.

Lemma scale2_neg m e : e < 0 -> (scale2 m e == m # Z.to_pos (2 ^ (- e)))%Q.
Proof.
  intros He. unfold scale2. destruct (Z.leb_spec 0 e); [lia|].
  apply Qred_correct.
Qed.

Lemma round64_pos_int a :
  0 < a <= 2 ^ 53 -> (round64_pos a 1 == inject_Z a)%Q.
Proof.
  intros Ha. unfold round64_pos, ilog2.
  change (Z.log2 1) with 0. rewrite Z.sub_0_r.
  pose proof (Z.log2_nonneg a) as Hk.
  pose proof (Z.log2_spec a ltac:(lia)) as [Hlo Hhi].
  assert (Hk53 : Z.log2 a <= 53)
    by (rewrite <- (Z.log2_pow2 53) by lia; apply Z.log2_le_mono; lia).
  destruct (Z.leb_spec 0 (Z.log2 a)); [|lia].
  rewrite Z.mul_1_l. destruct (Z.leb_spec (2 ^ Z.log2 a) a); [|lia].
  set (k := Z.log2 a) in *.
  rewrite Z.max_l by lia.
  destruct (Z.leb_spec 0 (k - 52)) as [He|He].
  - assert (Hk' : k = 52 \/ k = 53) by lia.
    destruct Hk' as [E|E]; rewrite E in *.
    + change (52 - 52) with 0. change (1 * 2 ^ 0) with 1.
      replace a with (a * 1) at 1 by lia.
      rewrite round_half_even_exact by lia.
      unfold scale2. cbn. rewrite Z.mul_1_r. reflexivity.
    + assert (a = 2 ^ 53) by lia. subst a. vm_compute. reflexivity.
  - replace (a * 2 ^ (- (k - 52))) with ((a * 2 ^ (- (k - 52))) * 1) by lia.
    rewrite round_half_even_exact by lia.
    rewrite scale2_neg by lia.
    assert (Hp : 0 < 2 ^ (- (k - 52))) by (apply Z.pow_pos_nonneg; lia).
    unfold Qeq. cbn [Qnum Qden inject_Z]. rewrite Z2Pos.id by lia. lia.
Qed.

(** Rounding at work: 0.1 is [0x1.999999999999ap-4]; 0.1 + 0.2 is
    0.30000000000000004, above 0.3; [2 ^ 53 + 1] is a tie and goes to the
    even neighbour; half of the least positive float goes to zero. *)
Lemma round64_examples :
  float_of (1 # 10) = (3602879701896397 # 36028797018963968)%Q /\
  fadd (float_of (1 # 10)) (float_of (2 # 10))
  = float_of (30000000000000004 # 100000000000000000) /\
  (float_of (3 # 10) < fadd (float_of (1 # 10)) (float_of (2 # 10)))%Q /\
  round64 (inject_Z (2 ^ 53 + 1)) = inject_Z (2 ^ 53) /\
  round64 (inject_Z (2 ^ 53 + 3)) = inject_Z (2 ^ 53 + 4) /\
  round64 (1 # Z.to_pos (2 ^ 1074)) = (1 # Z.to_pos (2 ^ 1074))%Q /\
  round64 (1 # Z.to_pos (2 ^ 1075)) = 0%Q.
Proof. repeat (split; [vm_compute; reflexivity|]). vm_compute. reflexivity. Qed.

(** A whole number of magnitude at most [2 ^ 53] is a float. *)
Lemma round64_int z :
  Z.abs z <= 2 ^ 53 -> (round64 (inject_Z z) == inject_Z z)%Q.
Proof.
  intros Hz. unfold round64. rewrite Qred_inject_Z. cbn [Qnum Qden inject_Z].
  destruct z as [|a|a].
  - reflexivity.
  - apply round64_pos_int. lia.
  - rewrite (round64_pos_int (Z.pos a)) by lia. reflexivity.
Qed.

(** *** Samples for which the running sum is exact *)

Lemma Qsum_app l x : (Qsum (l ++ [x]) == Qsum l + x)%Q.
Proof.
  unfold Qsum; induction l as [|y l IH]; cbn [app fold_right].
  - ring.
  - rewrite IH; ring.
Qed.

Lemma Qsum_hd_tl l : l <> [] -> (Qsum l == hd 0%Q l + Qsum (tl l))%Q.
Proof. destruct l; [congruence|intros _; reflexivity]. Qed.

Lemma Qsum_small_int B l :
  Forall (small_int B) l ->
  exists S, (Qsum l == inject_Z S)%Q /\ Z.abs S <= len l * B.
Proof.
  induction 1 as [|y l (z & -> & Hz) Hl (S & HS & Hb)].
  - exists 0. split; [reflexivity|cbn; lia].
  - exists (z + S). unfold Qsum in *; cbn [fold_right]. split.
    + rewrite HS, inject_Z_plus. reflexivity.
    + unfold len in *. cbn [length]. lia.
Qed.

Lemma small_int_tl B (l : list Q) :
  Forall (small_int B) l -> Forall (small_int B) (tl l).
Proof. destruct 1; [constructor|assumption]. Qed.

(** When every sample is a whole number of magnitude at most [B] and
    [n + 1] such numbers sum to at most [2 ^ 53], no addition or
    subtraction of the filter rounds. *)
Lemma pushed_exact B n x m :
  (n + 1) * B <= 2 ^ 53 ->
  len (buf m) <= n ->
  small_int B x ->
  Forall (small_int B) (buf m) ->
  (sum m == Qsum (buf m))%Q ->
  Forall (small_int B) (buf (pushed x m)) /\
  (sum (pushed x m) == Qsum (buf (pushed x m)))%Q.
Proof.
  intros HB Hn Hx Hbuf Hsum.
  assert (Hb : Forall (small_int B) (buf m ++ [x]))
    by (apply Forall_app; split; [exact Hbuf|constructor; [exact Hx|constructor]]).
  assert (HB0 : 0 <= B) by (destruct Hx as (z & _ & Hz); lia).
  assert (Hadd : (fadd (sum m) x == Qsum (buf m ++ [x]))%Q).
  { destruct (Qsum_small_int B _ Hb) as (S & HS & Hbound).
    rewrite len_app_one in Hbound.
    unfold fadd. rewrite (round64_proper _ (inject_Z S)).
    - rewrite round64_int by nia. symmetry; exact HS.
    - rewrite Hsum, <- Qsum_app. exact HS. }
  unfold pushed. destruct (len (buf m ++ [x]) >? window m); cbn [sum buf].
  - split; [apply small_int_tl, Hb|].
    destruct (Qsum_small_int B _ (small_int_tl B _ Hb)) as (S & HS & Hbound).
    rewrite len_tl_app_one in Hbound.
    assert (Hne : buf m ++ [x] <> []) by (destruct (buf m); discriminate).
    pose proof (Qsum_hd_tl _ Hne) as E.
    unfold fsub. rewrite (round64_proper _ (inject_Z S)).
    + rewrite round64_int by nia. symmetry; exact HS.
    + rewrite Hadd, E, HS. ring.
  - split; [exact Hb|exact Hadd].
Qed.

Lemma pushes_exact B w xs :
  (Z.max 1 (py_int w) + 1) * B <= 2 ^ 53 ->
  Forall (small_int B) xs ->
  let m := snd (pushes xs (init w)) in
  Forall (small_int B) (buf m) /\ (sum m == Qsum (buf m))%Q.
Proof.
  intros HB. induction xs as [|x xs IH] using rev_ind; intros Hxs.
  - split; [constructor|reflexivity].
  - apply Forall_app in Hxs as [Hxs Hx]. inversion Hx as [|? ? Hx' _]; subst.
    destruct (IH Hxs) as [Hbuf Hsum].
    cbv zeta. rewrite pushes_snoc; cbn [snd]. rewrite push_state.
    apply (pushed_exact B (Z.max 1 (py_int w))); try assumption.
    apply (ma_inv_bound _ xs); [lia|apply ma_inv_pushes].
Qed.

End MovingAverageFacts.

(** ** The moving-average filter: main results *)

(** C4, as the code has it.  For a window [W >= 1] and any sequence [xs]
    of samples already pushed into a fresh filter, [push x] appends [x] and
    evicts the oldest sample when the buffer would exceed [W], so that the
    buffer holds the [W] most recent samples, never more than [W];
    [value()] is absent exactly when nothing has been pushed.  What [push]
    returns is the running sum divided by the number of retained samples,
    and the running sum is kept in binary64 by adding each sample and
    subtracting each evicted one.  When the samples are whole numbers of
    magnitude at most [B] with [(W + 1) * B <= 2 ^ 53], none of these
    operations rounds: the running sum is the sum of the retained samples,
    [push] returns the float nearest to their mean, and with [W = 1] it
    returns the pushed sample; with [W = 3] the samples 70, 72, 74, 76 give
    70, 71, 72, 74. *)
Theorem moving_average_push :
  forall (W : Z) (xs : list Q) (x : Q),
    1 <= W ->
    let m := snd (MovingAverage.pushes xs (MovingAverage.init (PyInt W))) in
    let b := MovingAverage.buf m ++ [x] in
    (exists v m',
        MovingAverage.push x m = (Ok (Some v), m') /\
        MovingAverage.buf m' = (if len b >? W then tl b else b) /\
        MovingAverage.buf m' = lastn W (xs ++ [x]) /\
        MovingAverage.sum m'
        = (if len b >? W
           then fsub (fadd (MovingAverage.sum m) x) (hd 0%Q b)
           else fadd (MovingAverage.sum m) x) /\
        v = fdiv (MovingAverage.sum m')
              (inject_Z (len (MovingAverage.buf m'))) /\
        len (MovingAverage.buf m') <= W /\
        (forall B,
            Forall (small_int B) (xs ++ [x]) -> (W + 1) * B <= 2 ^ 53 ->
            (MovingAverage.sum m' == Qsum (MovingAverage.buf m'))%Q /\
            v = round64 (Qsum (MovingAverage.buf m')
                         / inject_Z (len (MovingAverage.buf m')))%Q /\
            (W = 1 -> (v == x)%Q))) /\
    len (MovingAverage.buf m) <= W /\
    (fst (MovingAverage.value m) = Ok None <-> xs = []) /\
    map normalise
      (fst (MovingAverage.pushes [70; 72; 74; 76]%Q
              (MovingAverage.init (PyInt 3)))) =
    [Ok (Some 70%Q); Ok (Some 71%Q); Ok (Some 72%Q); Ok (Some 74%Q)].
Proof.
  intros W xs x HW m b.
  pose proof (ma_inv_pushes (PyInt W) xs) as Hinv.
  cbn [py_int] in Hinv. replace (Z.max 1 W) with W in Hinv by lia.
  fold m in Hinv.
  pose proof (ma_inv_push W xs m x HW Hinv) as Hinv'.
  assert (Hwm : 1 <= MovingAverage.window m)
    by (rewrite (inv_window _ _ _ Hinv); exact HW).
  split; [|split; [|split; [split|]]].
  - eexists; exists (pushed x m); split; [apply push_returns; exact Hwm|].
    split; [rewrite pushed_buf, (inv_window _ _ _ Hinv); reflexivity|].
    split; [apply (inv_buf _ _ _ Hinv')|].
    split; [unfold pushed; fold b; rewrite (inv_window _ _ _ Hinv);
            destruct (len b >? W); reflexivity|].
    split; [reflexivity|].
    split; [apply (ma_inv_bound W (xs ++ [x])); assumption|].
    intros B Hsmall HB.
    apply Forall_app in Hsmall as [Hxs Hx].
    inversion Hx as [|? ? Hx' _]; subst.
    assert (HB' : (Z.max 1 (py_int (PyInt W)) + 1) * B <= 2 ^ 53)
      by (cbn [py_int]; replace (Z.max 1 W) with W by lia; exact HB).
    destruct (pushes_exact B (PyInt W) xs HB' Hxs) as [Hbuf Hsum].
    fold m in Hbuf, Hsum.
    destruct (pushed_exact B W x m HB (ma_inv_bound W xs m HW Hinv) Hx' Hbuf Hsum)
      as [Hbuf' Hsum'].
    split; [exact Hsum'|]. split.
    + unfold fdiv. apply round64_proper. rewrite Hsum'. reflexivity.
    + intros ->. unfold fdiv.
      destruct Hx' as (z & -> & Hz).
      rewrite (round64_proper _ (inject_Z z)); [apply round64_int; lia|].
      rewrite Hsum', (inv_buf _ _ _ Hinv').
      unfold lastn, len. rewrite length_skipn, length_app; cbn [length].
      replace (length xs + 1 - (length xs + 1 - Z.to_nat 1))%nat with 1%nat by lia.
      replace (length xs + 1 - Z.to_nat 1)%nat with (length xs) by lia.
      rewrite skipn_app, skipn_all, Nat.sub_diag. cbn.
      unfold Qsum; cbn. field.
  - apply (ma_inv_bound W xs); assumption.
  - rewrite value_unfold; cbn [fst]. intros H.
    apply (lastn_nil_iff W xs HW). rewrite <- (inv_buf _ _ _ Hinv).
    destruct (MovingAverage.buf m); [reflexivity|discriminate].
  - intros Hxs. rewrite value_unfold; cbn [fst].
    apply (lastn_nil_iff W xs HW) in Hxs. rewrite <- (inv_buf _ _ _ Hinv) in Hxs.
    rewrite Hxs; reflexivity.
  - vm_compute. reflexivity.
Qed.

Lemma moving_average_push_witness :
  1 <= 3 /\
  exists v m',
    MovingAverage.push 78%Q
      (snd (MovingAverage.pushes [70; 72; 74; 76]%Q
              (MovingAverage.init (PyInt 3))))
    = (Ok (Some v), m') /\
    MovingAverage.buf m' = [74; 76; 78]%Q /\
    v = round64 (Qsum (MovingAverage.buf m')
                 / inject_Z (len (MovingAverage.buf m')))%Q.
Proof.
  split; [lia|].
  destruct (moving_average_push 3 [70; 72; 74; 76]%Q 78%Q ltac:(lia))
    as ((v & m' & Hrun & _ & Hbuf & _ & _ & _ & Hexact) & _).
  exists v, m'. split; [exact Hrun|]. split; [exact Hbuf|].
  apply (Hexact 100).
  - repeat constructor;
      match goal with
      | |- small_int _ (?n # 1) => exists n; split; [reflexivity|lia]
      end.
  - vm_compute. discriminate.
Defined.

(** With a window of one, [push 70.1] followed by [push 70.2] returns
    70.20000000000002: the running sum, 70.1 + 70.2 - 70.1 in binary64, is
    above the one sample retained, so the filter returns neither that
    sample nor the mean of what it retains. *)
Lemma moving_average_pass_through_counterexample :
  let x1 := float_of (701 # 10) in
  let x2 := float_of (702 # 10) in
  let run := MovingAverage.pushes [x1; x2] (MovingAverage.init (PyInt 1)) in
  fst run
  = [Ok (Some x1); Ok (Some (float_of (7020000000000002 # 100000000000000)))] /\
  MovingAverage.buf (snd run) = [x2] /\
  (x2 < MovingAverage.sum (snd run))%Q /\
  ~ (forall (W : Z) (xs : list Q) (x : Q),
        1 <= W ->
        exists v m',
          MovingAverage.push x
            (snd (MovingAverage.pushes xs (MovingAverage.init (PyInt W))))
          = (Ok (Some v), m') /\
          (v == Qsum (MovingAverage.buf m')
                / inject_Z (len (MovingAverage.buf m')))%Q /\
          (W = 1 -> (v == x)%Q)).
Proof.
  cbv zeta. split; [vm_compute; reflexivity|].
  split; [vm_compute; reflexivity|]. split; [vm_compute; reflexivity|].
  intros H.
  destruct (H 1 [float_of (701 # 10)] (float_of (702 # 10)) ltac:(lia))
    as (v & m' & Hrun & _ & Hpass).
  specialize (Hpass eq_refl).
  vm_compute in Hrun. injection Hrun as <- _.
  vm_compute in Hpass. discriminate.
Qed.

(** C10. Whatever number the constructor receives (zero, negative, a
    float), the window is clamped to at least one; after any sequence of
    pushes the buffer holds at most [window] samples; [value()] on the
    empty filter returns absent without dividing; and no [push] raises:
    each one returns an average, computed over a non-empty buffer. *)
Theorem moving_average_window_clamped :
  forall (w : pynum) (xs : list Q),
    let m0 := MovingAverage.init w in
    let run := MovingAverage.pushes xs m0 in
    1 <= MovingAverage.window m0 /\
    MovingAverage.window m0 = Z.max 1 (py_int w) /\
    MovingAverage.window (MovingAverage.init (PyInt 0)) = 1 /\
    MovingAverage.window (MovingAverage.init (PyInt (-5))) = 1 /\
    MovingAverage.window (snd run) = MovingAverage.window m0 /\
    len (MovingAverage.buf (snd run)) <= MovingAverage.window (snd run) /\
    MovingAverage.value m0 = (Ok None, m0) /\
    Forall (fun r => exists v, r = Ok (Some v)) (fst run) /\
    (forall x, MovingAverage.buf (pushed x (snd run)) <> []) /\
    (forall m x, is_ok (fst (MovingAverage.push x m)) = true) /\
    (forall m, is_ok (fst (MovingAverage.value m)) = true).
Proof.
  intros w xs m0 run.
  pose proof (ma_inv_pushes w xs) as Hinv. fold m0 run in Hinv.
  assert (H1 : 1 <= Z.max 1 (py_int w)) by lia.
  repeat split; try reflexivity.
  - exact H1.
  - apply (inv_window _ _ _ Hinv).
  - rewrite (inv_window _ _ _ Hinv).
    apply (ma_inv_bound _ xs); assumption.
  - apply pushes_results.
  - intros x Hnil.
    pose proof (pushed_buf_nonempty x (snd run)) as Hne.
    rewrite (inv_window _ _ _ Hinv), Hnil in Hne. cbn in Hne. lia.
  - intros m x; apply push_ok.
  - intros m; apply value_ok.
Qed.

(** ** The schedule lookup *)

Section Bisect.

Variable a : list Z.
Variable x : Z.
Hypothesis a_sorted : forall i j : nat,
    (i <= j < length a)%nat -> nth i a 0 <= nth j a 0.

(** The loop keeps everything left of [lo] at or below [x] and everything
    from [hi] on above it. *)
Lemma bisect_right_loop_spec (lo hi : nat) :
  (lo <= hi <= length a)%nat ->
  (forall i, (i < lo)%nat -> nth i a 0 <= x) ->
  (forall i, (hi <= i < length a)%nat -> x < nth i a 0) ->
  let r := bisect_right_loop a x lo hi in
  (r <= length a)%nat /\
  (forall i, (i < r)%nat -> nth i a 0 <= x) /\
  (forall i, (r <= i < length a)%nat -> x < nth i a 0).
Proof.
  funelim (bisect_right_loop a x lo hi); intros Hb Hlo Hhi; cbn zeta.
  - set (mid := ((lo + hi) / 2)%nat) in *.
    assert (Hm : (lo <= mid < hi)%nat).
    { split; [apply Nat.div_le_lower_bound|apply Nat.Div0.div_lt_upper_bound];
        lia. }
    destruct (Z.ltb_spec x (nth mid a 0)) as [Hlt|Hge].
    + apply H; [lia|exact Hlo|].
      intros i Hi. pose proof (a_sorted mid i). lia.
    + apply H0; [lia| |exact Hhi].
      intros i Hi. pose proof (a_sorted i mid). lia.
  - assert (lo = hi) by lia; subst hi.
    repeat split; [lia|exact Hlo|exact Hhi].
Qed.

Lemma bisect_right_spec :
  let r := bisect_right a x in
  (r <= length a)%nat /\
  (forall i, (i < r)%nat -> nth i a 0 <= x) /\
  (forall i, (r <= i < length a)%nat -> x < nth i a 0).
Proof.
  apply bisect_right_loop_spec; [lia|lia|lia].
Qed.

End Bisect.

(** Without any assumption on the order of [a], the result is an index
    into [a] or its length. *)
Lemma bisect_right_loop_bound a x lo hi :
  (lo <= hi)%nat -> (lo <= bisect_right_loop a x lo hi <= hi)%nat.
Proof.
  funelim (bisect_right_loop a x lo hi); intros Hb.
  - set (mid := ((lo + hi) / 2)%nat) in *.
    assert (Hm : (lo <= mid < hi)%nat).
    { split; [apply Nat.div_le_lower_bound|apply Nat.Div0.div_lt_upper_bound];
        lia. }
    destruct (x <? nth mid a 0).
    + specialize (H ltac:(lia)). lia.
    + specialize (H0 ltac:(lia)). lia.
  - lia.
Qed.

Lemma bisect_right_bound a x : (bisect_right a x <= length a)%nat.
Proof. apply bisect_right_loop_bound; lia. Qed.

Lemma getitem_nth {A} (l : list A) (i : nat) (d : A) :
  (i < length l)%nat -> getitem l (Z.of_nat i) = Ok (nth i l d).
Proof.
  intros Hi; unfold getitem.
  assert (E : (Z.of_nat i <? 0) = false) by (apply Z.ltb_ge; lia).
  rewrite E; cbv beta iota zeta; rewrite E.
  rewrite Nat2Z.id, (nth_error_nth' l d Hi); reflexivity.
Qed.

Lemma getitem_last {A} (front : list A) (e : A) :
  getitem (front ++ [e]) (-1) = Ok e.
Proof.
  unfold getitem, len; cbn [Z.ltb Z.compare].
  rewrite length_app; cbn [length].
  assert (E : (-1 + Z.of_nat (length front + 1) <? 0) = false)
    by (apply Z.ltb_ge; lia).
  rewrite E.
  replace (Z.to_nat (-1 + Z.of_nat (length front + 1))) with (length front) by lia.
  rewrite nth_error_app2, Nat.sub_diag; [reflexivity|lia].
Qed.

(** The schedule arrays have the same length, so the lookup always finds
    an element. *)
Lemma schedule_pick_ok g m :
  schedule_in_use g = true -> exists base, schedule_pick g m = Ok base.
Proof.
  unfold schedule_in_use, schedule_pick, _schedule_minutes, _schedule_values.
  intros Huse. apply andb_prop in Huse as [_ Hne].
  pose proof (bisect_right_bound (map fst (schedule g)) m) as Hr.
  rewrite length_map in Hr.
  assert (Hne' : schedule g <> []) by (intros E; rewrite E in Hne; discriminate).
  destruct (exists_last Hne') as [es [e0 Hs]]. rewrite Hs in *.
  destruct (Z.ltb_spec (Z.of_nat (bisect_right (map fst (es ++ [e0])) m) - 1) 0).
  - rewrite map_app; cbn [map]. rewrite getitem_last; eexists; reflexivity.
  - set (r := bisect_right _ _) in *.
    replace (Z.of_nat r - 1) with (Z.of_nat (r - 1)) by lia.
    rewrite (getitem_nth _ _ 0); [eexists; reflexivity|].
    rewrite length_map; lia.
Qed.

(** [_refreshEffectiveSetPoint] never raises; it sets the base from the
    schedule when the schedule is in use, and then the effective
    setpoint. *)
Lemma refresh_run g s :
  exists base,
    _refreshEffectiveSetPoint g s =
    (Ok tt,
     set_setPoint (base + manualOffset s)
       (if schedule_in_use g
        then set_baseSetPoint base (set_clock_reads (S (clock_reads s)) s)
        else s)) /\
    (if schedule_in_use g
     then schedule_pick g (minute_of_day (now g (clock_reads s))) = Ok base
     else base = baseSetPoint s).
Proof.
  unfold _refreshEffectiveSetPoint.
  fold (schedule_in_use g).
  destruct (schedule_in_use g) eqn:Huse.
  - destruct (schedule_pick_ok g (minute_of_day (now g (clock_reads s))) Huse)
      as [base Hbase].
    exists base; split; [|exact Hbase].
    unfold bind, datetime_now, get, modify.
    fold (minute_of_day (now g (clock_reads s))).
    fold (schedule_pick g (minute_of_day (now g (clock_reads s)))).
    rewrite Hbase; reflexivity.
  - exists (baseSetPoint s); split; reflexivity.
Qed.

Lemma strictly_sorted_nth (l : list Z) :
  Sorted Z.lt l ->
  forall i j : nat, (i < j < length l)%nat -> nth i l 0 < nth j l 0.
Proof.
  intros Hs. apply Sorted_StronglySorted in Hs; [|intros p q r; lia].
  induction Hs as [|a l Hs IH Hall]; intros i j Hij; [cbn in Hij; lia|].
  destruct j as [|j]; [lia|]. cbn [nth length] in *.
  destruct i as [|i].
  - rewrite Forall_forall in Hall. apply Hall, nth_In; lia.
  - apply IH; lia.
Qed.

Lemma sorted_nth_le (l : list Z) :
  Sorted Z.lt l ->
  forall i j : nat, (i <= j < length l)%nat -> nth i l 0 <= nth j l 0.
Proof.
  intros Hs i j Hij. destruct (Nat.eq_dec i j) as [->|Hne]; [lia|].
  pose proof (strictly_sorted_nth l Hs i j); lia.
Qed.

Lemma nth_minutes (es : list (Z * Z)) i :
  nth i (map fst es) 0 = fst (nth i es (0, 0)).
Proof. apply (map_nth fst es (0, 0)). Qed.

Lemma nth_values (es : list (Z * Z)) i :
  nth i (map snd es) 0 = snd (nth i es (0, 0)).
Proof. apply (map_nth snd es (0, 0)). Qed.

(** On a schedule sorted by strictly increasing start, the element picked
    is the one the specification describes. *)
Lemma schedule_pick_spec g m :
  schedule g <> [] ->
  Sorted Z.lt (_schedule_minutes g) ->
  exists v, schedule_pick g m = Ok v /\ lookup_spec (schedule g) m v.
Proof.
  unfold schedule_pick, _schedule_minutes, _schedule_values.
  intros Hne Hs.
  pose proof (bisect_right_spec _ m (sorted_nth_le _ Hs)) as (Hr & Hlow & Hhigh).
  set (r := bisect_right (map fst (schedule g)) m) in *.
  rewrite length_map in Hr, Hhigh.
  destruct (Z.ltb_spec (Z.of_nat r - 1) 0) as [Hz|Hz].
  - (* before the first start *)
    destruct (exists_last Hne) as [front [e He]].
    exists (snd e); split.
    + rewrite He, map_app; cbn [map]. apply getitem_last.
    + right; split; [|exists front, e; split; [exact He|reflexivity]].
      intros e' Hin. destruct (In_nth _ _ (0, 0) Hin) as (i & Hi & <-).
      rewrite <- nth_minutes. apply Hhigh; lia.
  - (* some entry starts at or before [m] *)
    replace (Z.of_nat r - 1) with (Z.of_nat (r - 1)) by lia.
    rewrite (getitem_nth _ _ 0) by (rewrite length_map; lia).
    eexists; split; [reflexivity|].
    left; exists (nth (r - 1) (schedule g) (0, 0)); split; [|apply nth_values].
    split; [apply nth_In; lia|]. split.
    + rewrite <- nth_minutes. apply Hlow; lia.
    + intros e' Hin Hle. destruct (In_nth _ _ (0, 0) Hin) as (i & Hi & <-).
      rewrite <- !nth_minutes in *.
      destruct (Nat.lt_ge_cases i r) as [Hlt|Hge].
      * apply (sorted_nth_le _ Hs). rewrite length_map; lia.
      * specialize (Hhigh i ltac:(lia)). lia.
Qed.

(** C2. With the schedule enabled, non-empty and sorted by strictly
    increasing minute of day, the refresh sets the base setpoint to the
    setpoint of the entry with the greatest start at or before the current
    minute of day, and to that of the last entry when the current minute is
    before every start.  For the entries (360,70), (1320,65): 00:00 and
    05:59 give 65, 06:00 and 21:59 give 70, 22:00 gives 65. *)
Theorem schedule_lookup_greatest_at_or_before :
  forall (g : Env) (s : Thermostat),
    SCHEDULE_ENABLED g = true ->
    schedule g <> [] ->
    Sorted Z.lt (_schedule_minutes g) ->
    let m := minute_of_day (now g (clock_reads s)) in
    (exists s',
        _refreshEffectiveSetPoint g s = (Ok tt, s') /\
        lookup_spec (schedule g) m (baseSetPoint s')) /\
    (forall c,
        minute_of_day (now (env_at 0 0 c) 0) = 0 /\
        baseSetPoint (snd (_refreshEffectiveSetPoint (env_at 0 0 c) s)) = 65 /\
        minute_of_day (now (env_at 5 59 c) 0) = 359 /\
        baseSetPoint (snd (_refreshEffectiveSetPoint (env_at 5 59 c) s)) = 65 /\
        minute_of_day (now (env_at 6 0 c) 0) = 360 /\
        baseSetPoint (snd (_refreshEffectiveSetPoint (env_at 6 0 c) s)) = 70 /\
        minute_of_day (now (env_at 21 59 c) 0) = 1319 /\
        baseSetPoint (snd (_refreshEffectiveSetPoint (env_at 21 59 c) s)) = 70 /\
        minute_of_day (now (env_at 22 0 c) 0) = 1320 /\
        baseSetPoint (snd (_refreshEffectiveSetPoint (env_at 22 0 c) s)) = 65).
Proof.
  intros g s Hen Hne Hs m; split.
  - destruct (refresh_run g s) as (base & Hrun & Hbase).
    assert (Huse : schedule_in_use g = true).
    { unfold schedule_in_use, _schedule_minutes, len. rewrite Hen, length_map.
      destruct (schedule g); [congruence|reflexivity]. }
    rewrite Huse in Hrun, Hbase.
    destruct (schedule_pick_spec g m Hne Hs) as (v & Hv & Hspec).
    fold m in Hbase. rewrite Hv in Hbase. injection Hbase as <-.
    eexists; split; [exact Hrun|exact Hspec].
  - intros c; repeat split.
Qed.

Lemma schedule_lookup_witness :
  exists s',
    _refreshEffectiveSetPoint (env_at 12 30 (fun _ => 20%Q)) initial
    = (Ok tt, s') /\
    lookup_spec [(360, 70); (1320, 65)] 750 (baseSetPoint s').
Proof.
  apply (schedule_lookup_greatest_at_or_before
           (env_at 12 30 (fun _ => 20%Q)) initial).
  - reflexivity.
  - discriminate.
  - repeat constructor.
Defined.

(** ** The methods in closed form *)

Lemma bind_ok {S A B} (c : M S A) (k : A -> M S B) s a s' :
  c s = (Ok a, s') -> bind c k s = k a s'.
Proof. intros E; unfold bind; rewrite E; reflexivity. Qed.

Lemma refresh_eq g s :
  _refreshEffectiveSetPoint g s = (Ok tt, refreshed g s).
Proof.
  destruct (refresh_run g s) as (base & Hrun & Hbase).
  rewrite Hrun; unfold refreshed.
  destruct (schedule_in_use g); [rewrite Hbase|rewrite Hbase]; reflexivity.
Qed.

Lemma getFahrenheit_eq g s :
  getFahrenheit g s = (Ok (sample g s), sampled g s).
Proof.
  unfold getFahrenheit, sample, sampled.
  destruct (thSensor g) as [dev|]; [|reflexivity].
  unfold try_except, bind, temperature.
  destruct (dev (sensor_reads s)); reflexivity.
Qed.

Lemma value_eq m : MovingAverage.value m = (Ok (average m), m).
Proof.
  rewrite value_unfold; unfold average.
  destruct (MovingAverage.buf m); reflexivity.
Qed.

Lemma push_eq x m :
  MovingAverage.push x m = (Ok (average (pushed x m)), pushed x m).
Proof. rewrite push_unfold; apply value_eq. Qed.

Lemma getSmoothed_eq g s :
  _getSmoothedFahrenheit g s = (Ok (smoothed_value g s), smoothed g s).
Proof.
  unfold _getSmoothedFahrenheit, smoothed_value, smoothed.
  rewrite (bind_ok _ _ _ _ _ (getFahrenheit_eq g s)).
  destruct (sample g s) as [x|]; [|reflexivity].
  assert (Hma : ma (sampled g s) = ma s)
    by (unfold sampled; destruct (thSensor g); reflexivity).
  unfold zoom; rewrite Hma, push_eq; reflexivity.
Qed.

Lemma updateLights_eq g s : updateLights g s = (Ok tt, updated g s).
Proof.
  unfold updateLights, updated.
  rewrite (bind_ok _ _ _ _ _ (refresh_eq g s)).
  rewrite (bind_ok _ _ _ _ _ (getSmoothed_eq g (refreshed g s))).
  generalize (smoothed_value g (refreshed g s)) as temp.
  generalize (smoothed g (refreshed g s)) as s2.
  intros s2 temp. unfold lights_set, bind, modify, get, ret.
  cbn [current_state set_redLight set_blueLight setPoint].
  destruct (current_state s2); cbn [State_id String.eqb Ascii.eqb Bool.eqb].
  - reflexivity.
  - destruct temp as [t|]; [|reflexivity].
    destruct (Qltb t _); reflexivity.
  - destruct temp as [t|]; [|reflexivity].
    destruct (Qltb _ t); reflexivity.
Qed.

Lemma log_event_eq e s : log_event e s = (Ok tt, logged e s).
Proof. reflexivity. Qed.

Lemma cycle_eq g s : cycle g s = (Ok tt, cycled g s).
Proof.
  unfold cycle, cycled, bind, get.
  destruct (current_state s) eqn:E; cbn [cycle_target cycle_transitions find
    State_eqb fst snd option_map on_exit_state on_enter_state].
  - unfold ret, modify, on_enter_heat.
    rewrite (bind_ok _ _ _ _ _ (updateLights_eq g _)); reflexivity.
  - unfold on_exit_heat, modify, on_enter_cool.
    rewrite (bind_ok _ _ _ _ _ (updateLights_eq g _)); reflexivity.
  - reflexivity.
Qed.

Lemma processTempStateButton_eq g s :
  processTempStateButton g s = (Ok tt, cycled g (logged "button:mode" s)).
Proof.
  unfold processTempStateButton.
  rewrite (bind_ok _ _ _ _ _ (log_event_eq _ s)). apply cycle_eq.
Qed.

Lemma processTempIncButton_eq g s :
  processTempIncButton g s = (Ok tt, adjusted g 1 "button:increase" s).
Proof.
  unfold processTempIncButton, adjusted, bind at 1, modify at 1.
  rewrite (bind_ok _ _ _ _ _ (log_event_eq _ _)).
  rewrite (bind_ok _ _ _ _ _ (refresh_eq g _)).
  apply updateLights_eq.
Qed.

Lemma processTempDecButton_eq g s :
  processTempDecButton g s = (Ok tt, adjusted g (-1) "button:decrease" s).
Proof.
  unfold processTempDecButton, adjusted, bind at 1, modify at 1.
  rewrite (bind_ok _ _ _ _ _ (log_event_eq _ _)).
  rewrite (bind_ok _ _ _ _ _ (refresh_eq g _)).
  apply updateLights_eq.
Qed.

Lemma handle_eq g e s : handle g e s = (Ok tt, handled g e s).
Proof.
  destruct e; cbn [handle handled].
  - apply processTempStateButton_eq.
  - apply processTempIncButton_eq.
  - apply processTempDecButton_eq.
Qed.

Lemma setupSerialOutput_eq g s :
  setupSerialOutput g s = (Ok (status_line g s), smoothed g s).
Proof.
  unfold setupSerialOutput, bind at 1, get at 1.
  rewrite (bind_ok _ _ _ _ _ (getSmoothed_eq g s)). unfold status_line.
  destruct (smoothed_value g s); reflexivity.
Qed.

Lemma updateScreen_eq message s :
  updateScreen message s
  = (Ok tt, set_screen (screen s ++ [screen_rows message]) s).
Proof. reflexivity. Qed.

Lemma status_branch_eq g s :
  try_except
    ((match ser g with
      | Some port =>
          line <- setupSerialOutput g ;;
          ser_write port (line ++ newline)%string
      | None => ret tt
      end) ;;
     temp_val <- _getSmoothedFahrenheit g ;;
     s' <- get ;;
     log_reading (match temp_val with Some t => t | None => 0%Q end)
       (setPoint s') (State_id (current_state s')))
    (fun _ => ret tt) s
  = (Ok tt, emitted g s).
Proof.
  unfold try_except, emitted.
  destruct (ser g) as [port|].
  - unfold bind at 1.
    rewrite (bind_ok _ _ _ _ _ (setupSerialOutput_eq g s)).
    unfold ser_write.
    destruct (port (length (ser_out (smoothed g s)))) as [[]|e]; [|reflexivity].
    rewrite (bind_ok _ _ _ _ _ (getSmoothed_eq g _)). reflexivity.
  - unfold bind at 1, ret at 1.
    rewrite (bind_ok _ _ _ _ _ (getSmoothed_eq g _)). reflexivity.
Qed.

Lemma tick_eq g counter altCounter s :
  tick g (counter, altCounter) s
  = (Ok (status_counter counter, display_alt altCounter),
     ticked g counter altCounter s).
Proof.
  unfold tick, ticked, displayed, shown, lcd_line_2, status_counter,
    display_alt.
  rewrite (bind_ok _ _ _ _ _ (refresh_eq g s)).
  unfold bind at 1, datetime_now at 1. fold (clocked g s).
  destruct (altCounter <? 6).
  - unfold bind at 1, bind at 1.
    rewrite (getSmoothed_eq g (clocked g s)).
    assert (Hshow :
              (match smoothed_value g (clocked g s) with
               | None => ret "--"%string
               | Some t => n <- lift (floor t) ;; ret (str n)
               end) (smoothed g (clocked g s))
              = (Ok match smoothed_value g (clocked g s) with
                    | None => "--"%string
                    | Some t => str (Qfloor t)
                    end, smoothed g (clocked g s)))
      by (destruct (smoothed_value g (clocked g s)); reflexivity).
    rewrite (bind_ok _ _ _ _ _ Hshow).
    unfold bind at 1, get at 1, ret at 1. cbn [fst snd].
    rewrite (bind_ok _ _ _ _ _ (updateScreen_eq _ _)).
    destruct (counter mod STATUS_PERIOD_S =? 0).
    + unfold bind at 1, bind at 1. rewrite status_branch_eq. reflexivity.
    + reflexivity.
  - unfold bind at 1, bind at 1, get at 1.
    destruct (altCounter + 1 >=? 11).
    + rewrite (bind_ok _ _ _ _ _ (updateLights_eq g _)).
      unfold ret at 1. cbn [fst snd].
      rewrite (bind_ok _ _ _ _ _ (updateScreen_eq _ _)).
      destruct (counter mod STATUS_PERIOD_S =? 0).
      * unfold bind at 1, bind at 1. rewrite status_branch_eq. reflexivity.
      * reflexivity.
    + unfold ret at 1. cbn [fst snd].
      rewrite (bind_ok _ _ _ _ _ (updateScreen_eq _ _)).
      destruct (counter mod STATUS_PERIOD_S =? 0).
      * unfold bind at 1, bind at 1. rewrite status_branch_eq. reflexivity.
      * reflexivity.
Qed.

Lemma handle_all_eq g es s :
  handle_all g es s = (Ok tt, handled_all g es s).
Proof.
  revert s; induction es as [|e es IH]; intros s; [reflexivity|].
  cbn [handle_all handled_all fold_left].
  unfold bind, try_except. rewrite handle_eq. apply IH.
Qed.

Lemma loop_eq g rounds counters s :
  loop g rounds counters s
  = (Ok (fst (looped g rounds counters s)), snd (looped g rounds counters s)).
Proof.
  revert counters s; induction rounds as [|es rounds IH];
    intros [counter altCounter] s; [reflexivity|].
  cbn [loop looped fst snd].
  rewrite (bind_ok _ _ _ _ _ (handle_all_eq g es s)).
  rewrite (bind_ok _ _ _ _ _ (tick_eq g counter altCounter _)).
  apply IH.
Qed.

(** ** What each method leaves untouched *)

Section Frames.

Context {B : Type} (f : Thermostat -> B) (g : Env).

Lemma refreshed_frame s :
  ignores set_baseSetPoint f -> ignores set_setPoint f ->
  ignores set_clock_reads f ->
  f (refreshed g s) = f s.
Proof.
  intros Hb Hp Hc; unfold refreshed.
  destruct (schedule_in_use g); [destruct (schedule_pick g _)|].
  - rewrite Hp, Hb, Hc; reflexivity.
  - apply Hc.
  - apply Hp.
Qed.

Lemma sampled_frame s :
  ignores set_sensor_reads f -> f (sampled g s) = f s.
Proof.
  intros Hr; unfold sampled; destruct (thSensor g); [apply Hr|reflexivity].
Qed.

Lemma smoothed_frame s :
  ignores set_sensor_reads f -> ignores set_ma f ->
  f (smoothed g s) = f s.
Proof.
  intros Hr Hm; unfold smoothed.
  destruct (sample g s); [rewrite Hm|]; apply sampled_frame; exact Hr.
Qed.

Lemma lights_set_frame temp s :
  ignores set_redLight f -> ignores set_blueLight f ->
  f (lights_set temp s) = f s.
Proof.
  intros Hr Hb; unfold lights_set.
  destruct (current_state s); rewrite ?Hr, ?Hb, ?Hr; reflexivity.
Qed.

Lemma updated_frame s :
  ignores set_baseSetPoint f -> ignores set_setPoint f ->
  ignores set_clock_reads f -> ignores set_sensor_reads f ->
  ignores set_ma f -> ignores set_redLight f -> ignores set_blueLight f ->
  f (updated g s) = f s.
Proof.
  intros; unfold updated.
  rewrite lights_set_frame, smoothed_frame, refreshed_frame by assumption.
  reflexivity.
Qed.

Lemma logged_frame e s : ignores set_db_events f -> f (logged e s) = f s.
Proof. intros H; apply H. Qed.

Lemma clocked_frame s :
  ignores set_baseSetPoint f -> ignores set_setPoint f ->
  ignores set_clock_reads f ->
  f (clocked g s) = f s.
Proof.
  intros Hb Hp Hc; unfold clocked. rewrite Hc.
  apply refreshed_frame; assumption.
Qed.

End Frames.

(** Rewrites [f (step s)] to [f s] wherever [f] is a field that [step]
    does not write. *)
Ltac ignored := intros ? ?; reflexivity.

Ltac frame :=
  repeat match goal with
    | |- context [?f (refreshed ?g ?s)] =>
        rewrite (refreshed_frame f g s) by ignored
    | |- context [?f (clocked ?g ?s)] =>
        rewrite (clocked_frame f g s) by ignored
    | |- context [?f (sampled ?g ?s)] =>
        rewrite (sampled_frame f g s) by ignored
    | |- context [?f (smoothed ?g ?s)] =>
        rewrite (smoothed_frame f g s) by ignored
    | |- context [?f (lights_set ?t ?s)] =>
        rewrite (lights_set_frame f t s) by ignored
    | |- context [?f (updated ?g ?s)] =>
        rewrite (updated_frame f g s) by ignored
    | |- context [?f (logged ?e ?s)] =>
        rewrite (logged_frame f e s) by ignored
    end.

(** ** The mode state machine *)

Lemma cycled_state g s : current_state (cycled g s) = next_mode (current_state s).
Proof.
  unfold cycled; destruct (current_state s); frame; reflexivity.
Qed.

Lemma handled_cycle_state g s :
  current_state (handled g CycleMode s) = next_mode (current_state s).
Proof. cbn [handled]. rewrite cycled_state. frame. reflexivity. Qed.

(** C7. The only transitions of [cycle] are Off to Heat, Heat to Cool and
    Cool to Off; the event always succeeds and moves the machine to the
    next mode in that order, starting from Off; three events in a row bring
    the machine back to the mode it started from, and fewer do not. *)
Theorem cycle_is_cyclic_of_order_three :
  (forall a b, In (a, b) cycle_transitions <-> b = next_mode a) /\
  current_state initial = off /\
  next_mode off = heat /\ next_mode heat = cool /\ next_mode cool = off /\
  (forall g s,
      exists s', cycle g s = (Ok tt, s') /\
                 current_state s' = next_mode (current_state s)) /\
  (forall g s,
      exists s', processTempStateButton g s = (Ok tt, s') /\
                 current_state s' = next_mode (current_state s)) /\
  (forall st,
      next_mode st <> st /\ next_mode (next_mode st) <> st /\
      next_mode (next_mode (next_mode st)) = st) /\
  (forall g s,
      exists s',
        handle_all g [CycleMode; CycleMode; CycleMode] s = (Ok tt, s') /\
        current_state s' = current_state s).
Proof.
  split; [|repeat split].
  - intros a b; cbn; split.
    + intros [H|[H|[H|[]]]]; injection H as <- <-; reflexivity.
    + intros ->; destruct a; auto.
  - intros g s; exists (cycled g s); split; [apply cycle_eq|apply cycled_state].
  - intros g s; eexists; split; [apply processTempStateButton_eq|].
    apply handled_cycle_state.
  - destruct st; discriminate.
  - destruct st; discriminate.
  - destruct st; reflexivity.
  - intros g s; eexists; split; [apply handle_all_eq|].
    cbn [handled_all fold_left]. rewrite !handled_cycle_state.
    destruct (current_state s); reflexivity.
Qed.

(** ** The effective setpoint *)

Lemma refreshed_setPoint g s :
  setPoint (refreshed g s)
  = baseSetPoint (refreshed g s) + manualOffset (refreshed g s).
Proof.
  destruct (refresh_run g s) as (base & Hrun & Hbase).
  rewrite refresh_eq in Hrun. injection Hrun as ->.
  destruct (schedule_in_use g); [reflexivity|].
  rewrite Hbase; reflexivity.
Qed.

Lemma updated_setPoint g s :
  setPoint (updated g s) = baseSetPoint (updated g s) + manualOffset (updated g s).
Proof.
  unfold updated. frame. rewrite refreshed_setPoint. frame. reflexivity.
Qed.

Lemma adjusted_manualOffset g delta label s :
  manualOffset (adjusted g delta label s) = manualOffset s + delta.
Proof. unfold adjusted. frame. reflexivity. Qed.


Lemma shown_setPoint g altCounter s :
  setPoint s = baseSetPoint s + manualOffset s ->
  setPoint (shown g altCounter s)
  = baseSetPoint (shown g altCounter s) + manualOffset (shown g altCounter s).
Proof.
  intros H; unfold shown.
  destruct (altCounter <? 6); [frame; exact H|].
  destruct (altCounter + 1 >=? 11); [apply updated_setPoint|exact H].
Qed.

Lemma ticked_setPoint g counter altCounter s :
  setPoint (ticked g counter altCounter s)
  = baseSetPoint (ticked g counter altCounter s)
    + manualOffset (ticked g counter altCounter s).
Proof.
  assert (Hd : setPoint (displayed g altCounter s)
               = baseSetPoint (displayed g altCounter s)
                 + manualOffset (displayed g altCounter s)).
  { unfold displayed. cbn [setPoint baseSetPoint manualOffset set_screen].
    apply shown_setPoint. unfold clocked.
    cbn [setPoint baseSetPoint manualOffset set_clock_reads].
    apply refreshed_setPoint. }
  unfold ticked. destruct (counter mod STATUS_PERIOD_S =? 0); [|exact Hd].
  unfold emitted, reading_logged.
  destruct (ser g) as [port|].
  - destruct (port _);
      cbn [setPoint baseSetPoint manualOffset set_db_readings set_ser_out];
      frame; cbn [setPoint baseSetPoint manualOffset set_ser_out];
      frame; exact Hd.
  - cbn [setPoint baseSetPoint manualOffset set_db_readings]. frame. exact Hd.
Qed.



(** ** The actuation policy *)

Lemma Qltb_lt x y : Qltb x y = true <-> (x < y)%Q.
Proof. unfold Qltb, Qlt; apply Z.ltb_lt. Qed.

Lemma Qltb_nlt x y : Qltb x y = false <-> ~ (x < y)%Q.
Proof.
  rewrite <- Qltb_lt. destruct (Qltb x y); split; congruence.
Qed.

(** The decision shown after [updateLights], by mode and smoothed
    temperature. *)
Lemma decision_lights_set temp s :
  decision (lights_set temp s) =
  Some match current_state s with
       | off => OffBoth
       | heat =>
           match temp with
           | None => Solid Red
           | Some t =>
               if Qltb t (inject_Z (setPoint s) - HYSTERESIS_F)
               then Pulsing Red else Solid Red
           end
       | cool =>
           match temp with
           | None => Solid Blue
           | Some t =>
               if Qltb (inject_Z (setPoint s) + HYSTERESIS_F) t
               then Pulsing Blue else Solid Blue
           end
       end.
Proof.
  unfold lights_set, decision.
  destruct (current_state s); [reflexivity| |].
  - destruct temp as [t|]; [destruct (Qltb t _)|]; reflexivity.
  - destruct temp as [t|]; [destruct (Qltb _ t)|]; reflexivity.
Qed.

Lemma decision_updated g s :
  decision (updated g s) =
  Some match current_state s with
       | off => OffBoth
       | heat =>
           match smoothed_value g (refreshed g s) with
           | None => Solid Red
           | Some t =>
               if Qltb t (inject_Z (setPoint (refreshed g s)) - HYSTERESIS_F)
               then Pulsing Red else Solid Red
           end
       | cool =>
           match smoothed_value g (refreshed g s) with
           | None => Solid Blue
           | Some t =>
               if Qltb (inject_Z (setPoint (refreshed g s)) + HYSTERESIS_F) t
               then Pulsing Blue else Solid Blue
           end
       end.
Proof.
  unfold updated. rewrite decision_lights_set. frame. reflexivity.
Qed.

(** C1. [updateLights] always succeeds and shows exactly one decision.
    In Off mode it is both-off, whatever the temperature and setpoint.
    When the smoothed temperature [temp] is present and [sp] is the
    effective setpoint just refreshed, with a hysteresis of 1.0: in Heat
    mode the red LED pulses if [temp < sp - H] and is solid otherwise; in
    Cool mode the blue LED pulses if [temp > sp + H] and is solid
    otherwise; the other LED is off. *)
Theorem actuation_policy_with_reading :
  forall (g : Env) (s : Thermostat) (temp : Q),
    let s1 := snd (_refreshEffectiveSetPoint g s) in
    let sp := inject_Z (setPoint s1) in
    fst (_getSmoothedFahrenheit g s1) = Ok (Some temp) ->
    HYSTERESIS_F = 1%Q /\
    exists s' d,
      updateLights g s = (Ok tt, s') /\
      decision s' = Some d /\
      match current_state s with
      | off => d = OffBoth
      | heat =>
          ((temp < sp - HYSTERESIS_F)%Q -> d = Pulsing Red) /\
          (~ (temp < sp - HYSTERESIS_F)%Q -> d = Solid Red)
      | cool =>
          ((sp + HYSTERESIS_F < temp)%Q -> d = Pulsing Blue) /\
          (~ (sp + HYSTERESIS_F < temp)%Q -> d = Solid Blue)
      end /\
      (current_state s = off ->
       forall g', decision (snd (updateLights g' s)) = Some OffBoth).
Proof.
  intros g s temp s1 sp Htemp; split; [reflexivity|].
  subst s1 sp. rewrite refresh_eq in *. cbn [snd] in *.
  rewrite getSmoothed_eq in Htemp. cbn [fst] in Htemp.
  injection Htemp as Htemp.
  exists (updated g s). eexists.
  split; [apply updateLights_eq|].
  split; [apply decision_updated|].
  rewrite Htemp. split.
  - destruct (current_state s); [reflexivity| |].
    + destruct (Qltb temp _) eqn:E; split; intros H; try reflexivity.
      * apply Qltb_lt in E; contradiction.
      * apply Qltb_nlt in E; contradiction.
    + destruct (Qltb _ temp) eqn:E; split; intros H; try reflexivity.
      * apply Qltb_lt in E; contradiction.
      * apply Qltb_nlt in E; contradiction.
  - intros Hoff g'. rewrite updateLights_eq; cbn [snd].
    rewrite decision_updated, Hoff. reflexivity.
Qed.

Lemma actuation_policy_witness :
  let g := env_at 12 30 (fun _ => 20%Q) in
  exists s',
    updateLights g (set_current_state heat initial) = (Ok tt, s') /\
    decision s' = Some (Pulsing Red).
Proof.
  intros g.
  destruct (actuation_policy_with_reading
              g (set_current_state heat initial) 68%Q eq_refl)
    as (_ & s' & d & Hrun & Hd & [Hpulse _] & _).
  exists s'; split; [exact Hrun|].
  rewrite Hd, Hpulse; [reflexivity|]. vm_compute; reflexivity.
Defined.

(** ** Sensor faults *)

(** C5. When the sensor is missing or a read of it raises,
    [getFahrenheit] returns absent instead of raising, and so does the
    smoothed read; and whenever the smoothed temperature is absent,
    [updateLights] succeeds and drives the LED of the mode solid on, never
    pulsing, the other LED being off. *)
Theorem sensor_fault_is_fail_safe :
  forall (g : Env) (s : Thermostat),
    let s1 := snd (_refreshEffectiveSetPoint g s) in
    ((thSensor g = None \/
      exists dev e, thSensor g = Some dev /\ dev (sensor_reads s1) = Raise e) ->
     fst (getFahrenheit g s1) = Ok None /\
     fst (_getSmoothedFahrenheit g s1) = Ok None) /\
    (fst (_getSmoothedFahrenheit g s1) = Ok None ->
     exists s',
       updateLights g s = (Ok tt, s') /\
       match current_state s with
       | off => decision s' = Some OffBoth
       | heat => decision s' = Some (Solid Red)
       | cool => decision s' = Some (Solid Blue)
       end /\
       redLight s' <> LedPulse /\ blueLight s' <> LedPulse) /\
    (forall s0, is_ok (fst (getFahrenheit g s0)) = true).
Proof.
  intros g s s1; subst s1. rewrite refresh_eq; cbn [snd].
  rewrite getFahrenheit_eq, getSmoothed_eq; cbn [fst].
  split; [|split].
  - intros Hfault.
    assert (Hs : sample g (refreshed g s) = None).
    { unfold sample. destruct Hfault as [->|(dev & e & -> & ->)]; reflexivity. }
    unfold smoothed_value; rewrite Hs; split; reflexivity.
  - intros Habsent. injection Habsent as Habsent.
    exists (updated g s). split; [apply updateLights_eq|].
    pose proof (decision_updated g s) as Hd. rewrite Habsent in Hd.
    split; [destruct (current_state s); exact Hd|].
    unfold decision in Hd.
    destruct (redLight (updated g s)), (blueLight (updated g s)),
      (current_state s); split; congruence.
  - intros s0; rewrite getFahrenheit_eq; reflexivity.
Qed.

Lemma sensor_fault_witness :
  let g :=
    {| SCHEDULE_ENABLED := true;
       schedule := [(360, 70); (1320, 65)];
       thSensor := Some (fun _ => Raise OSError);
       ser := None;
       now := clock_at 12 30 |} in
  exists s',
    updateLights g (set_current_state cool initial) = (Ok tt, s') /\
    decision s' = Some (Solid Blue).
Proof.
  intros g.
  destruct (sensor_fault_is_fail_safe g (set_current_state cool initial))
    as (Hfault & Hsafe & _).
  destruct Hfault as [_ Habsent].
  { right; exists (fun _ => Raise OSError), OSError; split; reflexivity. }
  destruct (Hsafe Habsent) as (s' & Hrun & Hd & _).
  exists s'; split; [exact Hrun|exact Hd].
Defined.

(** ** What reaches the serial port *)

Lemma ser_out_shown g altCounter s :
  ser_out (shown g altCounter s) = ser_out s.
Proof.
  unfold shown. destruct (altCounter <? 6); [|destruct (_ >=? _)];
    frame; reflexivity.
Qed.

Lemma ser_out_displayed g altCounter s :
  ser_out (displayed g altCounter s) = ser_out s.
Proof.
  unfold displayed. cbn [ser_out set_screen].
  rewrite ser_out_shown. frame. reflexivity.
Qed.

Lemma ser_out_reading_logged g s : ser_out (reading_logged g s) = ser_out s.
Proof.
  unfold reading_logged. cbn [ser_out set_db_readings]. frame. reflexivity.
Qed.

Lemma ser_out_emitted g s :
  ser_out (emitted g s) =
  match ser g with
  | None => ser_out s
  | Some _ => ser_out s ++ [(status_line g s ++ newline)%string]
  end.
Proof.
  unfold emitted. destruct (ser g) as [port|]; [|apply ser_out_reading_logged].
  destruct (port _); rewrite ?ser_out_reading_logged;
    cbn [ser_out set_ser_out]; frame; reflexivity.
Qed.

Lemma ser_out_ticked g counter altCounter s :
  ser_out (ticked g counter altCounter s) =
  if counter mod STATUS_PERIOD_S =? 0 then
    match ser g with
    | None => ser_out s
    | Some _ =>
        ser_out s
        ++ [(status_line g (displayed g altCounter s) ++ newline)%string]
    end
  else ser_out s.
Proof.
  unfold ticked. destruct (counter mod STATUS_PERIOD_S =? 0).
  - rewrite ser_out_emitted, ser_out_displayed. reflexivity.
  - apply ser_out_displayed.
Qed.

(** C6. [setupSerialOutput] returns the mode label, the floor of the
    smoothed Fahrenheit value it has just obtained (or NA when that value
    is absent) and the effective setpoint, separated by commas; the mode
    label is one of off, heat, cool; the line written to the port on a
    status iteration is that text followed by a newline, formatted in the
    state [displayed g altCounter s0] that the iteration has reached after
    updating the screen.  In Heat mode with setpoint 70, a smoothed value
    of 69.7 gives heat,69,70 and an absent one gives heat,NA,70. *)
Theorem status_line_format :
  forall (g : Env) (s : Thermostat) (temp_sm : option Q),
    fst (_getSmoothedFahrenheit g s) = Ok temp_sm ->
    let temp_or_NA :=
      match temp_sm with
      | Some t => str (Qfloor t)
      | None => "NA"%string
      end in
    let line :=
      (State_id (current_state s) ++ "," ++ temp_or_NA ++ ","
       ++ str (setPoint s))%string in
    In (State_id (current_state s)) ["off"; "heat"; "cool"]%string /\
    fst (setupSerialOutput g s) = Ok line /\
    (forall port counter altCounter s0,
        ser g = Some port ->
        counter mod STATUS_PERIOD_S = 0 ->
        s = displayed g altCounter s0 ->
        ser_out (snd (tick g (counter, altCounter) s0))
        = ser_out s0 ++ [(line ++ newline)%string]) /\
    (current_state s = heat -> setPoint s = 70 ->
     (forall t, temp_sm = Some t -> (t == 697 # 10)%Q ->
                (line ++ newline = "heat,69,70" ++ newline)%string) /\
     (temp_sm = None -> (line ++ newline = "heat,NA,70" ++ newline)%string)).
Proof.
  intros g s temp_sm Htemp temp_or_NA line.
  rewrite getSmoothed_eq in Htemp; cbn [fst] in Htemp. injection Htemp as Htemp.
  assert (Hline : status_line g s = line).
  { unfold status_line, line, temp_or_NA. rewrite Htemp. frame. reflexivity. }
  split; [destruct (current_state s); cbn; auto|].
  split; [rewrite setupSerialOutput_eq; cbn [fst]; congruence|].
  split.
  - intros port counter altCounter s0 Hport Hcount ->.
    rewrite tick_eq; cbn [snd]. rewrite ser_out_ticked, Hcount, Hport.
    cbn [Z.eqb]. rewrite Hline. reflexivity.
  - intros Hheat Hsp; unfold line, temp_or_NA; rewrite Hheat, Hsp; split.
    + intros t -> Ht. rewrite (Qfloor_comp _ _ Ht). reflexivity.
    + intros ->. reflexivity.
Qed.

Lemma status_line_witness :
  let g := env_at 12 30 (fun _ => float_of (2094 # 100)) in
  fst (setupSerialOutput g (set_setPoint 70 (set_current_state heat initial)))
  = Ok "heat,69,70"%string.
Proof.
  intros g.
  apply (status_line_format
           g (set_setPoint 70 (set_current_state heat initial))
           (Some (fahrenheit (float_of (2094 # 100)))) eq_refl).
Defined.

(** ** The cadence of the display loop *)

Lemma status_counter_step k :
  0 <= k ->
  status_counter (k mod 30 + 1) = (k + 1) mod 30 + 1.
Proof.
  intros Hk; unfold status_counter, STATUS_PERIOD_S.
  destruct (Z.eqb_spec ((k mod 30 + 1) mod 30) 0) as [E|E];
    Z.to_euclidean_division_equations; lia.
Qed.

Lemma display_alt_step k :
  0 <= k ->
  display_alt (k mod 10 + 1) = (k + 1) mod 10 + 1.
Proof.
  intros Hk; unfold display_alt.
  destruct (Z.ltb_spec (k mod 10 + 1) 6) as [E|E].
  - Z.to_euclidean_division_equations; lia.
  - destruct (Z.geb_spec (k mod 10 + 1 + 1) 11) as [E'|E'];
      Z.to_euclidean_division_equations; lia.
Qed.

Lemma ser_out_handled g e s : ser_out (handled g e s) = ser_out s.
Proof.
  destruct e; cbn [handled]; unfold cycled, adjusted.
  - cbn [current_state logged set_db_events].
    destruct (current_state s); frame; reflexivity.
  - frame; reflexivity.
  - frame; reflexivity.
Qed.

Lemma ser_out_handled_all g es s : ser_out (handled_all g es s) = ser_out s.
Proof.
  revert s; induction es as [|e es IH]; intros s; [reflexivity|].
  cbn [handled_all fold_left]. fold (handled_all g es (handled g e s)).
  rewrite IH. apply ser_out_handled.
Qed.

(** After [k] iterations the counters are [k mod 30 + 1] and
    [k mod 10 + 1]; a further run keeps that form, and the port has
    received one line for every multiple of 30 passed. *)
Lemma looped_cadence g rounds :
  forall (k : Z) (s : Thermostat),
    0 <= k ->
    let n := Z.of_nat (length rounds) in
    let r := looped g rounds (k mod 30 + 1, k mod 10 + 1) s in
    fst r = ((k + n) mod 30 + 1, (k + n) mod 10 + 1) /\
    len (ser_out (snd r)) =
    len (ser_out s)
    + match ser g with Some _ => (k + n) / 30 - k / 30 | None => 0 end.
Proof.
  induction rounds as [|es rounds IH]; intros k s Hk.
  - cbn [looped fst snd length Z.of_nat]. rewrite Z.add_0_r.
    split; [reflexivity|destruct (ser g); lia].
  - cbn [looped fst snd]. cbn zeta.
    rewrite status_counter_step, display_alt_step by exact Hk.
    specialize (IH (k + 1)
                  (ticked g (k mod 30 + 1) (k mod 10 + 1) (handled_all g es s))
                  ltac:(lia)).
    cbn zeta in IH. destruct IH as [IHc IHs].
    replace (k + Z.of_nat (length (es :: rounds)))
      with (k + 1 + Z.of_nat (length rounds)) by (cbn [length]; lia).
    split; [exact IHc|]. rewrite IHs.
    rewrite ser_out_ticked, ser_out_handled_all.
    unfold STATUS_PERIOD_S.
    destruct (ser g) as [port|].
    + destruct (Z.eqb_spec ((k mod 30 + 1) mod 30) 0) as [E|E].
      * unfold len; rewrite length_app; cbn [length].
        Z.to_euclidean_division_equations; lia.
      * Z.to_euclidean_division_equations; lia.
    + destruct (_ =? _); lia.
Qed.

(** A run only appends to what the port has received. *)
Lemma looped_ser_out_extends g rounds :
  forall c s, exists l, ser_out (snd (looped g rounds c s)) = ser_out s ++ l.
Proof.
  induction rounds as [|es rounds IH]; intros c s.
  - exists []; cbn [looped snd]; rewrite app_nil_r; reflexivity.
  - cbn [looped].
    destruct (IH (status_counter (fst c), display_alt (snd c))
                (ticked g (fst c) (snd c) (handled_all g es s))) as [l Hl].
    rewrite Hl, ser_out_ticked, ser_out_handled_all.
    destruct (_ =? _); [destruct (ser g)|];
      rewrite <- ?app_assoc; eexists; reflexivity.
Qed.

Lemma fires_iff k :
  0 <= k -> ((k mod 30 + 1) mod 30 =? 0) = ((k + 1) mod 30 =? 0).
Proof.
  intros Hk.
  destruct (Z.eqb_spec ((k mod 30 + 1) mod 30) 0),
    (Z.eqb_spec ((k + 1) mod 30) 0); try reflexivity;
    Z.to_euclidean_division_equations; lia.
Qed.

(** C9. In a run of the loop from its initial counters, with the serial
    port open: after [n] iterations the counters are [n mod 30 + 1] and
    [n mod 10 + 1], so they stay within 1..30 and 1..10 and are back at 1,
    not 0, after the iteration on which they fire; the port has then
    received exactly [n / 30] lines, none before the 30th iteration; and
    the next iteration writes a line exactly when its number [n + 1] is a
    multiple of 30. *)
Theorem status_every_thirtieth_tick :
  forall (g : Env) (port : nat -> pyres unit) (rounds : list (list Event))
         (s : Thermostat),
    ser g = Some port ->
    let n := Z.of_nat (length rounds) in
    STATUS_PERIOD_S = 30 /\
    exists counter altCounter s',
      manageMyDisplay g rounds s = (Ok (counter, altCounter), s') /\
      counter = n mod STATUS_PERIOD_S + 1 /\
      altCounter = n mod 10 + 1 /\
      len (ser_out s') = len (ser_out s) + n / STATUS_PERIOD_S /\
      (n < STATUS_PERIOD_S -> ser_out s' = ser_out s) /\
      (forall es,
          exists counter' altCounter' s'',
            loop g [es] (counter, altCounter) s'
            = (Ok (counter', altCounter'), s'') /\
            (if (n + 1) mod STATUS_PERIOD_S =? 0
             then (exists line, ser_out s'' = ser_out s' ++ [line]) /\
                  counter' = 1
             else ser_out s'' = ser_out s' /\ counter' = counter + 1) /\
            (if (n + 1) mod 10 =? 0
             then altCounter' = 1
             else altCounter' = altCounter + 1)).
Proof.
  intros g port rounds s Hport n. split; [reflexivity|].
  unfold manageMyDisplay, STATUS_PERIOD_S. rewrite loop_eq.
  pose proof (looped_cadence g rounds 0 s ltac:(lia)) as Hc.
  cbn zeta in Hc. rewrite Hport in Hc.
  change (0 mod 30 + 1) with 1 in Hc. change (0 mod 10 + 1) with 1 in Hc.
  change (0 / 30) with 0 in Hc.
  rewrite Z.add_0_l, Z.sub_0_r in Hc. fold n in Hc. destruct Hc as [Hcount Hser].
  destruct (looped_ser_out_extends g rounds (1, 1) s) as [l Hl].
  destruct (looped g rounds (1, 1) s) as [[counter altCounter] s'].
  cbn [fst snd] in *. injection Hcount as -> ->.
  exists (n mod 30 + 1), (n mod 10 + 1), s'.
  assert (Hn : 0 <= n) by (unfold n; lia).
  split; [reflexivity|]. split; [reflexivity|]. split; [reflexivity|].
  split; [exact Hser|]. split.
  - intros Hlt. rewrite Z.div_small in Hser by lia.
    rewrite Hl in Hser. unfold len in Hser. rewrite length_app in Hser.
    destruct l; [rewrite Hl; apply app_nil_r|cbn [length] in Hser; lia].
  - intros es. rewrite loop_eq. cbn [looped fst snd].
    do 3 eexists. split; [reflexivity|].
    rewrite ser_out_ticked, ser_out_handled_all, Hport.
    unfold STATUS_PERIOD_S. rewrite fires_iff by exact Hn.
    rewrite status_counter_step, display_alt_step by exact Hn.
    split.
    + destruct (Z.eqb_spec ((n + 1) mod 30) 0) as [E|E].
      * split; [eexists; reflexivity|lia].
      * split; [reflexivity|]. Z.to_euclidean_division_equations; lia.
    + destruct (Z.eqb_spec ((n + 1) mod 10) 0) as [E|E];
        Z.to_euclidean_division_equations; lia.
Qed.

Lemma status_cadence_witness :
  let g := env_at 12 30 (fun _ => 20%Q) in
  exists counter altCounter s',
    manageMyDisplay g (repeat [] 30) initial = (Ok (counter, altCounter), s') /\
    counter = 1 /\ altCounter = 1 /\ len (ser_out s') = 1.
Proof.
  intros g.
  destruct (status_every_thirtieth_tick
              g (fun _ => Ok tt) (repeat [] 30) initial eq_refl)
    as (_ & counter & altCounter & s' & Hrun & Hc & Ha & Hlen & _).
  exists counter, altCounter, s'.
  split; [exact Hrun|]. split; [exact Hc|]. split; [exact Ha|exact Hlen].
Defined.

(** ** Smoothed reads per iteration *)

Section SensorPresent.

Variable g : Env.
Variable dev : nat -> pyres Q.
Hypothesis sensor_present : thSensor g = Some dev.

Lemma sensor_reads_smoothed s :
  sensor_reads (smoothed g s) = S (sensor_reads s).
Proof.
  unfold smoothed, sampled. rewrite sensor_present.
  destruct (sample g s); reflexivity.
Qed.

Lemma sensor_reads_updated s :
  sensor_reads (updated g s) = S (sensor_reads s).
Proof.
  unfold updated. frame. rewrite sensor_reads_smoothed. frame. reflexivity.
Qed.

Lemma sensor_reads_displayed altCounter s :
  sensor_reads (displayed g altCounter s)
  = (sensor_reads s + display_reads altCounter)%nat.
Proof.
  unfold displayed, shown, display_reads. cbn [sensor_reads set_screen].
  destruct (altCounter <? 6); [|destruct (altCounter + 1 >=? 11)];
    rewrite ?sensor_reads_smoothed, ?sensor_reads_updated; frame; lia.
Qed.

Lemma sensor_reads_reading_logged s :
  sensor_reads (reading_logged g s) = S (sensor_reads s).
Proof.
  unfold reading_logged. cbn [sensor_reads set_db_readings].
  apply sensor_reads_smoothed.
Qed.

Lemma sensor_reads_ticked counter altCounter s :
  sensor_reads (ticked g counter altCounter s)
  = (sensor_reads s + display_reads altCounter
     + status_reads g counter (length (ser_out s)))%nat.
Proof.
  unfold ticked, status_reads.
  destruct (counter mod STATUS_PERIOD_S =? 0);
    [|rewrite sensor_reads_displayed; lia].
  unfold emitted. destruct (ser g) as [port|].
  - assert (Hw : ser_out (smoothed g (displayed g altCounter s)) = ser_out s)
      by (frame; apply ser_out_displayed).
    rewrite Hw. destruct (port (length (ser_out s))); cbn [is_ok].
    + rewrite sensor_reads_reading_logged. cbn [sensor_reads set_ser_out].
      rewrite sensor_reads_smoothed, sensor_reads_displayed. lia.
    + cbn [sensor_reads set_ser_out].
      rewrite sensor_reads_smoothed, sensor_reads_displayed. lia.
  - rewrite sensor_reads_reading_logged, sensor_reads_displayed. lia.
Qed.

End SensorPresent.

(** C8, as the code has it.  Every consumer of the smoothed temperature
    calls [_getSmoothedFahrenheit] itself, and every call makes one sensor
    transaction and pushes the sample, when there is one, into the filter.
    With the sensor present, an iteration makes one read for the
    temperature row or for the actuation refresh that follows the tenth
    row, and on a status iteration one more for the status line when the
    port is open and one more for the reading log unless the write
    raised; the status line is formatted by [setupSerialOutput] after the
    reads of the display part, from a sensor transaction of its own. *)
Theorem smoothed_reads_per_tick :
  forall (g : Env) (dev : nat -> pyres Q) (counter altCounter : Z)
         (s : Thermostat),
    thSensor g = Some dev ->
    (exists counters' s',
        tick g (counter, altCounter) s = (Ok counters', s') /\
        sensor_reads s'
        = (sensor_reads s + display_reads altCounter
           + status_reads g counter (length (ser_out s)))%nat) /\
    (forall s0,
        sensor_reads (snd (_getSmoothedFahrenheit g s0))
        = S (sensor_reads s0) /\
        forall t, dev (sensor_reads s0) = Ok t ->
                  ma (snd (_getSmoothedFahrenheit g s0))
                  = snd (MovingAverage.push (fadd (fmul (fdiv 9 5) t) 32)
                           (ma s0))) /\
    (forall port,
        ser g = Some port -> counter mod STATUS_PERIOD_S = 0 ->
        exists s_mid line,
          sensor_reads s_mid
          = (sensor_reads s + display_reads altCounter)%nat /\
          fst (setupSerialOutput g s_mid) = Ok line /\
          sensor_reads (snd (setupSerialOutput g s_mid))
          = S (sensor_reads s_mid) /\
          ser_out (snd (tick g (counter, altCounter) s))
          = ser_out s ++ [(line ++ newline)%string]).
Proof.
  intros g dev counter altCounter s Hdev; split; [|split].
  - do 2 eexists; split; [apply tick_eq|].
    apply (sensor_reads_ticked g dev Hdev).
  - intros s0; rewrite getSmoothed_eq; cbn [snd]. split.
    + apply (sensor_reads_smoothed g dev Hdev).
    + intros t Ht. unfold smoothed, sample, sampled. rewrite Hdev, Ht.
      rewrite push_eq. reflexivity.
  - intros port Hport Hcount.
    exists (displayed g altCounter s), (status_line g (displayed g altCounter s)).
    rewrite setupSerialOutput_eq, tick_eq; cbn [fst snd].
    split; [apply (sensor_reads_displayed g dev Hdev)|].
    split; [reflexivity|].
    split; [apply (sensor_reads_smoothed g dev Hdev)|].
    rewrite ser_out_ticked, Hcount, Hport. reflexivity.
Qed.

Lemma smoothed_reads_witness :
  exists counters' s',
    tick warming (30, 10) initial = (Ok counters', s') /\
    sensor_reads s' = 3%nat.
Proof.
  destruct (smoothed_reads_per_tick
              warming (fun n => Ok (inject_Z (20 + Z.of_nat n)))
              30 10 initial eq_refl)
    as [(counters' & s' & Hrun & Hreads) _].
  exists counters', s'; split; [exact Hrun|exact Hreads].
Defined.

(** The thirtieth iteration of a run in Heat mode reads the sensor three
    times: the actuation refresh obtains 92.3, the status line is formatted
    from a second read (94.1) and the reading log takes a third (95.9). *)
Lemma smoothed_read_once_counterexample :
  let run := manageMyDisplay warming ([CycleMode] :: repeat [] 28) initial in
  let s := snd run in
  let s' := snd (tick warming (30, 10) s) in
  fst run = Ok (30, 10) /\
  sensor_reads s' = (sensor_reads s + 3)%nat /\
  fst (_getSmoothedFahrenheit warming
         (snd (_refreshEffectiveSetPoint warming (clocked warming s))))
  = Ok (Some (float_of (923 # 10))) /\
  ser_out s' = ["heat,94,70" ++ newline]%string /\
  map (fun r => fst (fst r)) (db_readings s') = [float_of (959 # 10)] /\
  ~ (forall g counters s0,
        (sensor_reads (snd (tick g counters s0)) <= sensor_reads s0 + 1)%nat).
Proof.
  cbv zeta.
  split; [vm_compute; reflexivity|]. split; [vm_compute; reflexivity|].
  split; [vm_compute; reflexivity|]. split; [vm_compute; reflexivity|].
  split; [vm_compute; reflexivity|].
  intros H.
  specialize (H warming (30, 10) initial).
  vm_compute in H. lia.
Qed.

(** * Further properties *)

(** ** The schedule table at import time *)

Lemma below_forallb (P : Z -> bool) (n : nat) :
  forallb P (below n) = true ->
  forall z, 0 <= z < Z.of_nat n -> P z = true.
Proof.
  intros H z Hz. rewrite forallb_forall in H. apply H.
  unfold below. replace z with (Z.of_nat (Z.to_nat z)) by lia.
  apply in_map, in_seq. lia.
Qed.

Lemma pad2_length h : 0 <= h <= 99 -> String.length (pad2 h) = 2%nat.
Proof.
  intros Hh. apply Nat.eqb_eq.
  apply (below_forallb (fun z => Nat.eqb (String.length (pad2 z)) 2) 100);
    [vm_compute; reflexivity|lia].
Qed.

Lemma pad2_compare a b :
  0 <= a <= 99 -> 0 <= b <= 99 ->
  String.compare (pad2 a) (pad2 b) = Z.compare a b.
Proof.
  intros Ha Hb.
  pose (P := fun x => forallb (fun y =>
     match String.compare (pad2 x) (pad2 y), Z.compare x y with
     | Eq, Eq | Lt, Lt | Gt, Gt => true
     | _, _ => false
     end) (below 100)).
  assert (HP : P a = true)
    by (apply (below_forallb P 100); [vm_compute; reflexivity|lia]).
  unfold P in HP.
  pose proof (below_forallb _ 100 HP b ltac:(lia)) as Hab. cbv beta in Hab.
  destruct (String.compare (pad2 a) (pad2 b)), (Z.compare a b);
    congruence.
Qed.

Lemma hhmm_parses h m :
  0 <= h <= 99 -> 0 <= m <= 59 ->
  _hhmm_to_minutes (hhmm_text h m) = Done (h * 60 + m).
Proof.
  intros Hh Hm.
  pose (P := fun x => forallb (fun y =>
     match _hhmm_to_minutes (hhmm_text x y) with
     | Done v => v =? x * 60 + y
     | Fail _ => false
     end) (below 60)).
  assert (HP : P h = true)
    by (apply (below_forallb P 100); [vm_compute; reflexivity|lia]).
  unfold P in HP.
  pose proof (below_forallb _ 60 HP m ltac:(lia)) as Hhm. cbv beta in Hhm.
  destruct (_hhmm_to_minutes (hhmm_text h m)); [|discriminate].
  apply Z.eqb_eq in Hhm. congruence.
Qed.

(** Texts of equal length in front do not disturb the comparison. *)
Lemma compare_app a b s t :
  String.length a = String.length b ->
  String.compare (a ++ s) (b ++ t) =
  match String.compare a b with
  | Eq => String.compare s t
  | c => c
  end.
Proof.
  revert b; induction a as [|c a IH]; intros [|d b] Hl; try discriminate.
  - reflexivity.
  - cbn [String.append String.compare]. injection Hl as Hl.
    destruct (Ascii.compare c d); [apply IH; exact Hl|reflexivity|reflexivity].
Qed.

Lemma hhmm_compare h1 m1 h2 m2 :
  0 <= h1 <= 99 -> 0 <= m1 <= 59 -> 0 <= h2 <= 99 -> 0 <= m2 <= 59 ->
  String.compare (hhmm_text h1 m1) (hhmm_text h2 m2)
  = Z.compare (h1 * 60 + m1) (h2 * 60 + m2).
Proof.
  intros Hh1 Hm1 Hh2 Hm2. unfold hhmm_text.
  rewrite compare_app by (rewrite !pad2_length by lia; reflexivity).
  rewrite pad2_compare by lia.
  destruct (Z.compare_spec h1 h2) as [->|Hlt|Hgt].
  - change (String.compare (":" ++ pad2 m1) (":" ++ pad2 m2))
      with (String.compare (pad2 m1) (pad2 m2)).
    rewrite pad2_compare by lia.
    destruct (Z.compare_spec m1 m2); symmetry;
      [apply Z.compare_eq_iff|apply Z.compare_lt_iff|apply Z.compare_gt_iff];
      lia.
  - symmetry; apply Z.compare_lt_iff; lia.
  - symmetry; apply Z.compare_gt_iff; lia.
Qed.

Lemma entry_minutes_hhmm e h m :
  0 <= h <= 99 -> 0 <= m <= 59 -> start e = hhmm_text h m ->
  _hhmm_to_minutes (start e) = Done (entry_minutes e) /\
  entry_minutes e = h * 60 + m.
Proof.
  intros Hh Hm He. unfold entry_minutes.
  rewrite He, hhmm_parses by assumption. split; reflexivity.
Qed.

(** On well-formed starts the order of the texts is the order of the
    minutes. *)
Lemma ltb_start_minutes a b :
  well_formed_start a -> well_formed_start b ->
  String.ltb (start a) (start b) = (entry_minutes a <? entry_minutes b).
Proof.
  intros (h1 & m1 & Hh1 & Hm1 & Ha) (h2 & m2 & Hh2 & Hm2 & Hb).
  destruct (entry_minutes_hhmm a h1 m1 Hh1 Hm1 Ha) as [_ ->].
  destruct (entry_minutes_hhmm b h2 m2 Hh2 Hm2 Hb) as [_ ->].
  unfold String.ltb, Z.ltb. rewrite Ha, Hb, hhmm_compare by assumption.
  reflexivity.
Qed.

Lemma start_of_minutes a b :
  well_formed_start a -> well_formed_start b ->
  entry_minutes a = entry_minutes b -> start a = start b.
Proof.
  intros (h1 & m1 & Hh1 & Hm1 & Ha) (h2 & m2 & Hh2 & Hm2 & Hb).
  destruct (entry_minutes_hhmm a h1 m1 Hh1 Hm1 Ha) as [_ ->].
  destruct (entry_minutes_hhmm b h2 m2 Hh2 Hm2 Hb) as [_ ->].
  intros E. assert (h1 = h2 /\ m1 = m2) as [-> ->] by lia. congruence.
Qed.

Lemma split_colon_length s : length (split_colon s) = S (colons s).
Proof.
  induction s as [|c s IH]; [reflexivity|].
  cbn [split_colon colons]. destruct (Ascii.eqb c ":").
  - cbn [length]. rewrite IH. reflexivity.
  - destruct (split_colon s); [discriminate|exact IH].
Qed.

(** X1. [_hhmm_to_minutes] reads back what the clock prints: for an hour
    and a minute written with two digits each it returns [h * 60 + m], in
    particular the minute of day of a valid time.  A text that does not
    hold exactly one colon, or whose hour part is empty, raises
    [ValueError]. *)
Theorem hhmm_to_minutes_round_trip :
  (forall h m,
      0 <= h <= 99 -> 0 <= m <= 59 ->
      _hhmm_to_minutes (pad2 h ++ ":" ++ pad2 m)%string = Done (h * 60 + m)) /\
  (forall d,
      0 <= hour d <= 23 -> 0 <= minute d <= 59 ->
      _hhmm_to_minutes (pad2 (hour d) ++ ":" ++ pad2 (minute d))%string
      = Done (minute_of_day d)) /\
  (forall s, colons s <> 1%nat -> _hhmm_to_minutes s = Fail ValueError) /\
  (forall m, _hhmm_to_minutes (":" ++ m)%string = Fail ValueError).
Proof.
  repeat split.
  - intros h m Hh Hm. apply hhmm_parses; assumption.
  - intros d Hh Hm. apply hhmm_parses; lia.
  - intros s Hs. unfold _hhmm_to_minutes.
    pose proof (split_colon_length s) as Hl.
    destruct (split_colon s) as [|a [|b [|c l]]]; try reflexivity.
    cbn [length] in Hl. congruence.
  - intros m. unfold _hhmm_to_minutes.
    change (split_colon (":" ++ m)) with (EmptyString :: split_colon m).
    destruct (split_colon m) as [|b [|c l]]; reflexivity.
Qed.

Lemma hhmm_to_minutes_witness :
  _hhmm_to_minutes "06:00" = Done 360 /\
  _hhmm_to_minutes "0600" = Fail ValueError.
Proof.
  destruct hhmm_to_minutes_round_trip as (Hok & _ & Hbad & _). split.
  - apply (Hok 6 0); lia.
  - apply Hbad. discriminate.
Defined.

Lemma insert_by_start_perm e l : Permutation (insert_by_start e l) (e :: l).
Proof.
  induction l as [|x l IH]; cbn [insert_by_start]; [reflexivity|].
  destruct (String.ltb (start e) (start x)); [reflexivity|].
  rewrite IH. apply perm_swap.
Qed.

Lemma fold_insert_perm l acc :
  Permutation (fold_left (fun a e => insert_by_start e a) l acc) (acc ++ l).
Proof.
  revert acc; induction l as [|e l IH]; intros acc; cbn [fold_left].
  - rewrite app_nil_r; reflexivity.
  - rewrite IH, insert_by_start_perm. apply Permutation_middle.
Qed.

Lemma sorted_by_start_perm l : Permutation (sorted_by_start l) l.
Proof. apply (fold_insert_perm l []). Qed.

Lemma insert_by_start_sorted e l :
  Forall well_formed_start (e :: l) ->
  StronglySorted (fun a b => entry_minutes a <= entry_minutes b) l ->
  StronglySorted (fun a b => entry_minutes a <= entry_minutes b)
    (insert_by_start e l).
Proof.
  intros Hwf Hs. induction Hs as [|x l Hs IH Hx]; cbn [insert_by_start].
  - repeat constructor.
  - assert (Hwe : well_formed_start e) by (inversion Hwf; assumption).
    assert (Hwx : well_formed_start x)
      by (inversion Hwf as [|? ? _ H2]; inversion H2; assumption).
    rewrite (ltb_start_minutes e x Hwe Hwx).
    destruct (Z.ltb_spec (entry_minutes e) (entry_minutes x)) as [Hlt|Hge].
    + constructor; [constructor; assumption|].
      constructor; [lia|].
      eapply Forall_impl; [|exact Hx]. cbv beta; intros; lia.
    + constructor.
      * apply IH. inversion Hwf as [|? ? H1 H2]; inversion H2; subst.
        constructor; assumption.
      * rewrite Forall_forall. intros y Hy.
        apply (Permutation_in _ (insert_by_start_perm e l)) in Hy.
        destruct Hy as [<-|Hy]; [exact Hge|].
        rewrite Forall_forall in Hx. apply Hx, Hy.
Qed.

Lemma fold_insert_sorted l acc :
  Forall well_formed_start (acc ++ l) ->
  StronglySorted (fun a b => entry_minutes a <= entry_minutes b) acc ->
  StronglySorted (fun a b => entry_minutes a <= entry_minutes b)
    (fold_left (fun a e => insert_by_start e a) l acc).
Proof.
  revert acc; induction l as [|e l IH]; intros acc Hwf Hs; [exact Hs|].
  cbn [fold_left]. apply IH.
  - eapply Permutation_Forall; [|exact Hwf].
    rewrite insert_by_start_perm. symmetry. apply Permutation_middle.
  - apply insert_by_start_sorted; [|exact Hs].
    rewrite Forall_forall in *. intros y [<-|Hy]; apply Hwf, in_or_app;
      [right; left; reflexivity|left; exact Hy].
Qed.

Lemma strict_of_nodup (l : list Z) :
  StronglySorted Z.le l -> NoDup l -> Sorted Z.lt l.
Proof.
  intros Hs Hn. apply StronglySorted_Sorted.
  induction Hs as [|x l Hs IH Hx]; constructor.
  - apply IH. inversion Hn; assumption.
  - inversion Hn as [|? ? Hnin _]; subst. rewrite Forall_forall in *.
    intros y Hy. specialize (Hx y Hy).
    assert (x <> y) by (intros ->; contradiction). lia.
Qed.

Lemma sorted_minutes_map l :
  StronglySorted (fun a b => entry_minutes a <= entry_minutes b) l ->
  StronglySorted Z.le (map entry_minutes l).
Proof.
  induction 1 as [|x l Hs IH Hx]; cbn [map]; constructor; [exact IH|].
  rewrite Forall_forall in *. intros y Hy.
  apply in_map_iff in Hy as (e & <- & He). apply Hx, He.
Qed.

Lemma nodup_minutes l :
  Forall well_formed_start l -> NoDup (map start l) ->
  NoDup (map entry_minutes l).
Proof.
  induction l as [|a l IH]; cbn [map]; intros Hwf Hn; [constructor|].
  inversion Hwf as [|? ? Ha Hl]; inversion Hn as [|? ? Hnin Hn']; subst.
  constructor; [|apply IH; assumption].
  intros Hin. apply in_map_iff in Hin as (b & Hb & Hbl).
  apply Hnin. rewrite Forall_forall in Hl.
  rewrite <- (start_of_minutes b a (Hl b Hbl) Ha Hb). apply in_map, Hbl.
Qed.

Lemma preprocess_loop_well_formed es minutes values :
  Forall well_formed_start es ->
  preprocess_loop es minutes values
  = Done (minutes ++ map entry_minutes es, values ++ map setpoint es).
Proof.
  revert minutes values; induction es as [|e es IH]; intros minutes values Hwf.
  - cbn [preprocess_loop map]. rewrite !app_nil_r. reflexivity.
  - inversion Hwf as [|? ? (h & m & Hh & Hm & He) Hes]; subst.
    cbn [preprocess_loop map].
    destruct (entry_minutes_hhmm e h m Hh Hm He) as [-> _].
    rewrite IH by exact Hes. rewrite <- !app_assoc. reflexivity.
Qed.

Lemma combine_maps {A B C} (f : A -> B) (k : A -> C) l :
  combine (map f l) (map k l) = map (fun a => (f a, k a)) l.
Proof. induction l as [|a l IH]; cbn; [|rewrite IH]; reflexivity. Qed.

(** X2. For entries whose starts are two digits, a colon and two digits,
    all different, the import-time preprocessing succeeds and yields
    minutes in strictly increasing order with the setpoints alongside, so
    the schedule is one for which the lookup is right; the entries are all
    kept.  The table of the source comes out as 360 -> 70, 1320 -> 65. *)
Theorem preprocess_sorts_well_formed_schedule :
  forall entries : list entry,
    Forall well_formed_start entries ->
    NoDup (map start entries) ->
    (exists minutes values,
        preprocess entries = Done (minutes, values) /\
        Sorted Z.lt minutes /\
        length minutes = length values /\
        Permutation (combine minutes values)
          (map (fun e => (entry_minutes e, setpoint e)) entries) /\
        forall g, schedule g = combine minutes values ->
                  Sorted Z.lt (_schedule_minutes g)) /\
    preprocess SCHEDULE_ENTRIES = Done ([360; 1320], [70; 65]).
Proof.
  intros entries Hwf Hn. split; [|reflexivity].
  pose proof (sorted_by_start_perm entries) as Hp.
  assert (Hwf' : Forall well_formed_start (sorted_by_start entries))
    by (eapply Permutation_Forall; [symmetry; exact Hp|exact Hwf]).
  exists (map entry_minutes (sorted_by_start entries)),
    (map setpoint (sorted_by_start entries)).
  assert (Hsorted : Sorted Z.lt (map entry_minutes (sorted_by_start entries))).
  { apply strict_of_nodup.
    - apply sorted_minutes_map, fold_insert_sorted; [exact Hwf|constructor].
    - apply (Permutation_NoDup (l := map entry_minutes entries));
        [apply Permutation_map; symmetry; exact Hp|].
      apply nodup_minutes; assumption. }
  split; [unfold preprocess; apply (preprocess_loop_well_formed _ [] [] Hwf')|].
  split; [exact Hsorted|]. split; [rewrite !length_map; reflexivity|].
  split; [rewrite combine_maps; apply Permutation_map; exact Hp|].
  intros g Hg. unfold _schedule_minutes. rewrite Hg, combine_maps, map_map.
  exact Hsorted.
Qed.

Lemma preprocess_witness :
  exists minutes values,
    preprocess
      [ {| start := "22:00"; setpoint := 65 |};
        {| start := "06:00"; setpoint := 70 |};
        {| start := "17:30"; setpoint := 72 |} ]
    = Done (minutes, values) /\
    Sorted Z.lt minutes.
Proof.
  destruct (preprocess_sorts_well_formed_schedule
              [ {| start := "22:00"; setpoint := 65 |};
                {| start := "06:00"; setpoint := 70 |};
                {| start := "17:30"; setpoint := 72 |} ])
    as [(minutes & values & Hrun & Hs & _) _].
  - repeat constructor.
    + exists 22, 0; repeat split; lia.
    + exists 6, 0; repeat split; lia.
    + exists 17, 30; repeat split; lia.
  - repeat constructor; cbn; intuition discriminate.
  - exists minutes, values; split; assumption.
Defined.

(** ** The schedule lookup on any table *)

Lemma getitem_in {A} (l : list A) i a : getitem l i = Ok a -> In a l.
Proof.
  unfold getitem. destruct (_ <? 0); [discriminate|].
  destruct (nth_error l _) eqn:E; [|discriminate].
  intros H; injection H as <-. eapply nth_error_In, E.
Qed.

Lemma schedule_pick_in g m base :
  schedule_pick g m = Ok base -> exists e, In e (schedule g) /\ base = snd e.
Proof.
  unfold schedule_pick, _schedule_values. intros H.
  assert (Hin : In base (map snd (schedule g)))
    by (destruct (_ <? 0); eapply getitem_in, H).
  apply in_map_iff in Hin as (e & <- & He). exists e; split; [exact He|reflexivity].
Qed.

(** X3. With the schedule enabled and not empty, in whatever order its
    entries are, a refresh sets the base setpoint to the setpoint of one of
    the entries; with a single entry, to that entry's setpoint at every
    time of day. *)
Theorem refresh_picks_a_schedule_setpoint :
  forall (g : Env) (s : Thermostat),
    SCHEDULE_ENABLED g = true ->
    schedule g <> [] ->
    exists s' e,
      _refreshEffectiveSetPoint g s = (Ok tt, s') /\
      In e (schedule g) /\
      baseSetPoint s' = snd e /\
      (forall e0, schedule g = [e0] -> baseSetPoint s' = snd e0).
Proof.
  intros g s Hen Hne.
  destruct (refresh_run g s) as (base & Hrun & Hbase).
  assert (Huse : schedule_in_use g = true).
  { unfold schedule_in_use, _schedule_minutes, len. rewrite Hen, length_map.
    destruct (schedule g); [congruence|reflexivity]. }
  rewrite Huse in Hrun, Hbase.
  destruct (schedule_pick_in g _ base Hbase) as (e & He & ->).
  eexists; exists e. split; [exact Hrun|]. split; [exact He|].
  split; [reflexivity|].
  intros e0 H0. rewrite H0 in He. destruct He as [<-|[]]. reflexivity.
Qed.

Lemma refresh_picks_witness :
  exists s' e,
    _refreshEffectiveSetPoint
      {| SCHEDULE_ENABLED := true;
         schedule := [(1320, 65); (360, 70)];
         thSensor := None; ser := None; now := clock_at 23 0 |} initial
    = (Ok tt, s') /\
    In e [(1320, 65); (360, 70)] /\ baseSetPoint s' = snd e.
Proof.
  destruct (refresh_picks_a_schedule_setpoint
              {| SCHEDULE_ENABLED := true;
                 schedule := [(1320, 65); (360, 70)];
                 thSensor := None; ser := None; now := clock_at 23 0 |}
              initial eq_refl)
    as (s' & e & Hrun & He & Hb & _); [discriminate|].
  exists s', e. split; [exact Hrun|]. split; assumption.
Defined.

(** ** Fields that an iteration of the loop, or a button press, leaves
    untouched *)

Section TickFrame.

Context {B : Type} (f : Thermostat -> B) (g : Env).
Hypothesis f_base : ignores set_baseSetPoint f.
Hypothesis f_setPoint : ignores set_setPoint f.
Hypothesis f_clock : ignores set_clock_reads f.
Hypothesis f_reads : ignores set_sensor_reads f.
Hypothesis f_ma : ignores set_ma f.
Hypothesis f_red : ignores set_redLight f.
Hypothesis f_blue : ignores set_blueLight f.
Hypothesis f_screen : ignores set_screen f.
Hypothesis f_ser : ignores set_ser_out f.
Hypothesis f_readings : ignores set_db_readings f.

Lemma displayed_frame altCounter s : f (displayed g altCounter s) = f s.
Proof.
  unfold displayed, shown. rewrite f_screen.
  destruct (altCounter <? 6); [|destruct (altCounter + 1 >=? 11)].
  - rewrite smoothed_frame, clocked_frame by assumption. reflexivity.
  - rewrite updated_frame, clocked_frame by assumption. reflexivity.
  - apply clocked_frame; assumption.
Qed.

Lemma reading_logged_frame s : f (reading_logged g s) = f s.
Proof.
  unfold reading_logged. rewrite f_readings.
  apply smoothed_frame; assumption.
Qed.

Lemma emitted_frame s : f (emitted g s) = f s.
Proof.
  unfold emitted. destruct (ser g) as [port|]; [|apply reading_logged_frame].
  destruct (port _); rewrite ?reading_logged_frame, f_ser;
    apply smoothed_frame; assumption.
Qed.

Lemma ticked_frame counter altCounter s :
  f (ticked g counter altCounter s) = f s.
Proof.
  unfold ticked. destruct (_ =? 0); rewrite ?emitted_frame;
    apply displayed_frame.
Qed.

End TickFrame.

Section PressFrame.

Context {B : Type} (f : Thermostat -> B) (g : Env).
Hypothesis f_state : ignores set_current_state f.
Hypothesis f_offset : ignores set_manualOffset f.
Hypothesis f_events : ignores set_db_events f.
Hypothesis f_base : ignores set_baseSetPoint f.
Hypothesis f_setPoint : ignores set_setPoint f.
Hypothesis f_clock : ignores set_clock_reads f.
Hypothesis f_reads : ignores set_sensor_reads f.
Hypothesis f_ma : ignores set_ma f.
Hypothesis f_red : ignores set_redLight f.
Hypothesis f_blue : ignores set_blueLight f.

Lemma handled_frame e s : f (handled g e s) = f s.
Proof.
  destruct e; cbn [handled]; unfold cycled, adjusted, logged.
  - cbn [current_state set_db_events].
    destruct (current_state s); rewrite ?f_events, ?updated_frame by assumption;
      rewrite ?f_blue, ?f_red, ?f_state, ?f_red, ?f_blue, ?f_events; reflexivity.
  - rewrite updated_frame, refreshed_frame, f_events, f_offset by assumption.
    reflexivity.
  - rewrite updated_frame, refreshed_frame, f_events, f_offset by assumption.
    reflexivity.
Qed.

Lemma handled_all_frame es s : f (handled_all g es s) = f s.
Proof.
  revert s; induction es as [|e es IH]; intros s; [reflexivity|].
  cbn [handled_all fold_left]. fold (handled_all g es (handled g e s)).
  rewrite IH. apply handled_frame.
Qed.

End PressFrame.

(** ** Mode, manual offset and event table over a run *)

Lemma handled_state g e s :
  current_state (handled g e s)
  = match e with CycleMode => next_mode (current_state s) | _ => current_state s end.
Proof.
  destruct e; [apply handled_cycle_state| |];
    cbn [handled]; unfold adjusted; frame; reflexivity.
Qed.

Lemma handled_offset g e s :
  manualOffset (handled g e s) = manualOffset s + offset_delta e.
Proof.
  destruct e; cbn [handled offset_delta]; try apply adjusted_manualOffset.
  unfold cycled. cbn [current_state logged set_db_events].
  destruct (current_state s); frame; cbn; lia.
Qed.

Lemma handled_events g e s :
  db_events (handled g e s) = db_events s ++ event_log (current_state s) [e].
Proof.
  destruct e; cbn [handled event_log]; unfold adjusted.
  - unfold cycled. cbn [current_state logged set_db_events db_events].
    destruct (current_state s); unfold logged; cbn [db_events set_db_events];
      frame; cbn [db_events set_db_events set_current_state set_redLight
                  set_blueLight next_mode State_id];
      rewrite <- app_assoc; reflexivity.
  - frame. reflexivity.
  - frame. reflexivity.
Qed.

Lemma event_log_app st es es' :
  event_log st (es ++ es')
  = event_log st es
    ++ event_log (Nat.iter (mode_presses es) next_mode st) es'.
Proof.
  revert st; induction es as [|e es IH]; intros st; [reflexivity|].
  destruct e; cbn [app event_log]; rewrite IH; unfold mode_presses;
    cbn [filter length]; try reflexivity.
  rewrite Nat.iter_succ_r. reflexivity.
Qed.

Lemma net_presses_app es es' :
  net_presses (es ++ es') = net_presses es + net_presses es'.
Proof.
  induction es as [|e es IH]; [reflexivity|].
  cbn [app net_presses fold_right]. fold (net_presses (es ++ es')).
  fold (net_presses es). lia.
Qed.

Lemma handled_all_facts g es s :
  current_state (handled_all g es s)
  = Nat.iter (mode_presses es) next_mode (current_state s) /\
  manualOffset (handled_all g es s) = manualOffset s + net_presses es /\
  db_events (handled_all g es s)
  = db_events s ++ event_log (current_state s) es.
Proof.
  revert s; induction es as [|e es IH]; intros s.
  - cbn. rewrite app_nil_r. repeat split; lia.
  - cbn [handled_all fold_left]. fold (handled_all g es (handled g e s)).
    destruct (IH (handled g e s)) as (Hs & Ho & Hl).
    rewrite Hs, Ho, Hl, handled_state, handled_offset, handled_events.
    repeat split.
    + destruct e; unfold mode_presses; cbn [filter length]; try reflexivity.
      rewrite Nat.iter_succ_r. reflexivity.
    + cbn [net_presses fold_right]. fold (net_presses es). lia.
    + rewrite <- app_assoc. f_equal.
      destruct e; cbn [event_log app]; reflexivity.
Qed.

Lemma looped_facts g rounds :
  forall c s,
    let s' := snd (looped g rounds c s) in
    current_state s'
    = Nat.iter (mode_presses (concat rounds)) next_mode (current_state s) /\
    manualOffset s' = manualOffset s + net_presses (concat rounds) /\
    db_events s' = db_events s ++ event_log (current_state s) (concat rounds).
Proof.
  induction rounds as [|es rounds IH]; intros c s.
  - cbn. rewrite app_nil_r. repeat split; lia.
  - cbn [looped concat]. cbn zeta.
    destruct (IH (status_counter (fst c), display_alt (snd c))
                (ticked g (fst c) (snd c) (handled_all g es s)))
      as (Hs & Ho & Hl).
    destruct (handled_all_facts g es s) as (Hs' & Ho' & Hl').
    rewrite Hs, Ho, Hl.
    rewrite (ticked_frame current_state g) by ignored.
    rewrite (ticked_frame manualOffset g) by ignored.
    rewrite (ticked_frame db_events g) by ignored.
    rewrite Hs', Ho', Hl'. repeat split.
    + unfold mode_presses. rewrite filter_app, length_app.
      rewrite Nat.add_comm, Nat.iter_add. reflexivity.
    + rewrite net_presses_app. lia.
    + rewrite <- app_assoc, event_log_app. reflexivity.
Qed.

Lemma iter_next_mode_mod3 n st :
  Nat.iter n next_mode st = Nat.iter (n mod 3) next_mode st.
Proof.
  pose proof (Nat.div_mod_eq n 3) as E.
  remember (n / 3)%nat as q eqn:Hq. remember (n mod 3)%nat as r eqn:Hr.
  clear Hq Hr. subst n.
  induction q as [|q IH]; [reflexivity|].
  replace (3 * S q + r)%nat with (3 + (3 * q + r))%nat by lia.
  rewrite Nat.iter_add, IH. cbn [Nat.iter nat_rect].
  destruct (Nat.iter r next_mode st); reflexivity.
Qed.

(** X4. Button presses never fail and compose: after any presses the mode
    is the starting mode advanced once per mode press and the manual offset
    is the starting offset plus the number of increase presses minus the
    number of decrease presses.  A run of the display loop that completes
    its iterations leaves the mode and the offset that all the presses made
    during it give, the mode depending only on the number of mode presses
    modulo three; the iterations of the loop themselves change neither. *)
Theorem presses_compose :
  forall (g : Env) (rounds : list (list Event)) (s : Thermostat),
    (forall es,
        exists s1,
          handle_all g es s = (Ok tt, s1) /\
          current_state s1
          = Nat.iter (mode_presses es) next_mode (current_state s) /\
          manualOffset s1 = manualOffset s + net_presses es) /\
    (forall counters s',
        manageMyDisplay g rounds s = (Ok counters, s') ->
        current_state s'
        = Nat.iter (mode_presses (concat rounds)) next_mode (current_state s) /\
        current_state s'
        = Nat.iter (mode_presses (concat rounds) mod 3) next_mode
            (current_state s) /\
        manualOffset s' = manualOffset s + net_presses (concat rounds)).
Proof.
  intros g rounds s. split.
  - intros es. eexists. split; [apply handle_all_eq|].
    destruct (handled_all_facts g es s) as (Hs & Ho & _).
    split; [exact Hs|exact Ho].
  - intros counters s' Hrun. unfold manageMyDisplay in Hrun.
    rewrite loop_eq in Hrun. injection Hrun as _ <-.
    destruct (looped_facts g rounds (1, 1) s) as (Hs & Ho & _).
    split; [exact Hs|]. split; [|exact Ho].
    rewrite Hs. apply iter_next_mode_mod3.
Qed.

Lemma presses_compose_witness :
  let rounds := [[CycleMode; Increment]; [CycleMode]; [Decrement; CycleMode];
                 [CycleMode; Increment]] in
  exists counters s',
    manageMyDisplay warming rounds initial = (Ok counters, s') /\
    current_state s' = heat /\ manualOffset s' = 1.
Proof.
  intros rounds.
  destruct (manageMyDisplay warming rounds initial) as [[counters|e] s'] eqn:E;
    [|vm_compute in E; discriminate].
  exists counters, s'. split; [reflexivity|].
  destruct (presses_compose warming rounds initial) as [_ H].
  destruct (H counters s' E) as (_ & Hs & Ho).
  split; [exact Hs|exact Ho].
Defined.

(** X5. The event table receives, in order, one row [button:mode] and one
    row [state_change:] with the mode entered for every mode press, one row
    [button:increase] or [button:decrease] for every other press, and
    nothing from the iterations of the loop. *)
Theorem event_table_records_presses :
  forall (g : Env) (rounds : list (list Event)) (s : Thermostat),
    db_events (snd (manageMyDisplay g rounds s))
    = db_events s ++ event_log (current_state s) (concat rounds).
Proof.
  intros g rounds s. unfold manageMyDisplay. rewrite loop_eq. cbn [snd].
  apply (looped_facts g rounds (1, 1) s).
Qed.

(** ** A schedule that is switched off or empty *)

Section ScheduleUnused.

Variable g : Env.
Hypothesis unused : schedule_in_use g = false.

Lemma refreshed_unused s :
  refreshed g s = set_setPoint (baseSetPoint s + manualOffset s) s.
Proof. unfold refreshed. rewrite unused. reflexivity. Qed.

Lemma base_updated s : baseSetPoint (updated g s) = baseSetPoint s.
Proof. unfold updated. frame. rewrite refreshed_unused. reflexivity. Qed.

Lemma base_displayed altCounter s :
  baseSetPoint (displayed g altCounter s) = baseSetPoint s.
Proof.
  unfold displayed, shown, clocked. cbn [baseSetPoint set_screen].
  destruct (altCounter <? 6); [|destruct (altCounter + 1 >=? 11)];
    rewrite ?base_updated; frame; cbn [baseSetPoint set_clock_reads];
    rewrite refreshed_unused; reflexivity.
Qed.

Lemma base_ticked counter altCounter s :
  baseSetPoint (ticked g counter altCounter s) = baseSetPoint s.
Proof.
  unfold ticked. destruct (_ =? 0); [|apply base_displayed].
  rewrite (emitted_frame baseSetPoint g) by ignored. apply base_displayed.
Qed.

Lemma base_handled e s : baseSetPoint (handled g e s) = baseSetPoint s.
Proof.
  destruct e; cbn [handled]; unfold cycled, adjusted.
  - cbn [current_state logged set_db_events].
    destruct (current_state s); unfold logged;
      cbn [baseSetPoint set_db_events]; rewrite ?base_updated; reflexivity.
  - rewrite base_updated, refreshed_unused. reflexivity.
  - rewrite base_updated, refreshed_unused. reflexivity.
Qed.

Lemma base_handled_all es s : baseSetPoint (handled_all g es s) = baseSetPoint s.
Proof.
  revert s; induction es as [|e es IH]; intros s; [reflexivity|].
  cbn [handled_all fold_left]. fold (handled_all g es (handled g e s)).
  rewrite IH. apply base_handled.
Qed.

Lemma base_looped rounds :
  forall c s, baseSetPoint (snd (looped g rounds c s)) = baseSetPoint s.
Proof.
  induction rounds as [|es rounds IH]; intros c s; [reflexivity|].
  cbn [looped]. rewrite IH, base_ticked. apply base_handled_all.
Qed.

End ScheduleUnused.

Lemma looped_setPoint g rounds :
  forall c s,
    rounds <> [] ->
    let s' := snd (looped g rounds c s) in
    setPoint s' = baseSetPoint s' + manualOffset s'.
Proof.
  induction rounds as [|es rounds IH]; intros c s Hne; [congruence|].
  cbn [looped]. destruct rounds as [|es' rounds'].
  - cbn [looped snd]. apply ticked_setPoint.
  - apply IH. discriminate.
Qed.

(** X6. When the schedule is switched off, or holds no entry, nothing in
    a run changes the base setpoint: after at least one iteration the
    effective setpoint is the starting base plus the starting offset plus
    the net number of increase presses. *)
Theorem disabled_schedule_keeps_base :
  forall (g : Env) (rounds : list (list Event)) (s : Thermostat),
    SCHEDULE_ENABLED g = false \/ schedule g = [] ->
    let s' := snd (manageMyDisplay g rounds s) in
    baseSetPoint s' = baseSetPoint s /\
    (rounds <> [] ->
     setPoint s'
     = baseSetPoint s + manualOffset s + net_presses (concat rounds)).
Proof.
  intros g rounds s Hoff s'. subst s'. unfold manageMyDisplay.
  rewrite loop_eq. cbn [snd].
  assert (Hu : schedule_in_use g = false).
  { unfold schedule_in_use, _schedule_minutes.
    destruct Hoff as [->| ->]; [reflexivity|apply andb_false_r]. }
  split; [apply base_looped; exact Hu|].
  intros Hne. rewrite (looped_setPoint g rounds (1, 1) s Hne).
  rewrite (base_looped g Hu).
  destruct (looped_facts g rounds (1, 1) s) as (_ & -> & _). lia.
Qed.

Lemma disabled_schedule_witness :
  let g :=
    {| SCHEDULE_ENABLED := false;
       schedule := [(360, 70); (1320, 65)];
       thSensor := None; ser := None; now := clock_at 23 0 |} in
  setPoint (snd (manageMyDisplay g [[Increment; Increment]; [Decrement]] initial))
  = 73.
Proof.
  intros g.
  destruct (disabled_schedule_keeps_base
              g [[Increment; Increment]; [Decrement]] initial)
    as [_ H]; [left; reflexivity|].
  apply H. discriminate.
Defined.

(** ** The LEDs and the mode *)










(** ** The reading table *)

(** X8. An iteration of the loop writes to the reading table only when it
    is a status iteration.  When the serial port is missing, or the write to
    it succeeded, it appends exactly one row: the value of a smoothed read
    of its own, made after the write (0 when that read is absent, as it is
    when the sensor is missing), the effective setpoint and the mode.  When
    the write raises, the row is skipped, and the line still counts as
    handed to the port. *)
Theorem reading_row_follows_status_write :
  forall (g : Env) (counter altCounter : Z) (s : Thermostat),
    let s' := snd (tick g (counter, altCounter) s) in
    let s_d := displayed g altCounter s in
    (counter mod STATUS_PERIOD_S <> 0 -> db_readings s' = db_readings s) /\
    (counter mod STATUS_PERIOD_S = 0 ->
     (forall port e,
         ser g = Some port -> port (length (ser_out s)) = Raise e ->
         db_readings s' = db_readings s /\
         length (ser_out s') = S (length (ser_out s))) /\
     (forall s_w temp_val,
         (ser g = None /\ s_w = s_d) \/
         (exists port line s5,
             ser g = Some port /\ port (length (ser_out s)) = Ok tt /\
             setupSerialOutput g s_d = (Ok line, s5) /\
             s_w = snd (ser_write port (line ++ newline)%string s5)) ->
         fst (_getSmoothedFahrenheit g s_w) = Ok temp_val ->
         db_readings s'
         = db_readings s
           ++ [(match temp_val with Some t => t | None => 0%Q end,
                setPoint s', State_id (current_state s))] /\
         (thSensor g = None -> temp_val = None) /\
         sensor_reads s'
         = sensor_reads (snd (_getSmoothedFahrenheit g s_w)))).
Proof.
  intros g counter altCounter s s' s_d. subst s' s_d. rewrite tick_eq. cbn [snd].
  unfold ticked.
  assert (Hd : db_readings (displayed g altCounter s) = db_readings s)
    by (apply displayed_frame; ignored).
  assert (Hc : current_state (displayed g altCounter s) = current_state s)
    by (apply displayed_frame; ignored).
  assert (Hw : ser_out (smoothed g (displayed g altCounter s)) = ser_out s)
    by (frame; apply ser_out_displayed).
  split.
  - intros Hne. destruct (Z.eqb_spec (counter mod STATUS_PERIOD_S) 0);
      [contradiction|exact Hd].
  - intros ->. cbn [Z.eqb]. unfold emitted. split.
    + intros port e -> He. cbv zeta. rewrite Hw, He.
      cbn [db_readings ser_out set_ser_out].
      split; [frame; exact Hd|]. rewrite length_app. cbn [length]. lia.
    + intros s_w temp_val Hports Htemp.
      rewrite getSmoothed_eq in Htemp. cbn [fst] in Htemp.
      injection Htemp as Htemp. rewrite getSmoothed_eq. cbn [snd].
      assert (Hrow : forall x,
                 db_readings x = db_readings s ->
                 current_state x = current_state s ->
                 smoothed_value g x = temp_val ->
                 db_readings (reading_logged g x)
                 = db_readings s
                   ++ [(match temp_val with Some t => t | None => 0%Q end,
                        setPoint (reading_logged g x),
                        State_id (current_state s))] /\
                 (thSensor g = None -> temp_val = None) /\
                 sensor_reads (reading_logged g x)
                 = sensor_reads (smoothed g x)).
      { intros x Hx Hcx Hv. unfold reading_logged.
        cbn [db_readings setPoint sensor_reads set_db_readings].
        split; [frame; rewrite Hx, Hcx, Hv; reflexivity|].
        split; [|reflexivity].
        intros Hnone. rewrite <- Hv. unfold smoothed_value, sample.
        rewrite Hnone. reflexivity. }
      destruct Hports as [[-> ->]|(port & line & s5 & -> & Hok & Hline & ->)].
      * apply Hrow; assumption.
      * rewrite setupSerialOutput_eq in Hline. injection Hline as <- <-.
        unfold ser_write in *. cbn [snd] in *.
        cbv zeta. rewrite Hw in Htemp |- *. rewrite Hok.
        apply Hrow.
        -- cbn [db_readings set_ser_out]. frame. exact Hd.
        -- cbn [current_state set_ser_out]. frame. exact Hc.
        -- exact Htemp.
Qed.

Lemma reading_row_witness :
  let g :=
    {| SCHEDULE_ENABLED := true;
       schedule := [(360, 70); (1320, 65)];
       thSensor := None;
       ser := Some (fun _ => Raise SerialException);
       now := clock_at 12 30 |} in
  db_readings (snd (tick g (30, 10) initial)) = [] /\
  db_readings (snd (tick (env_at 12 30 (fun _ => 20%Q)) (7, 7) initial)) = [] /\
  db_readings (snd (tick (env_at 12 30 (fun _ => 20%Q)) (30, 1) initial))
  = [(68%Q, 70, "off"%string)].
Proof.
  intros g. split; [|split].
  - destruct (reading_row_follows_status_write g 30 10 initial) as [_ H].
    destruct (H eq_refl) as [Hraise _].
    apply (Hraise (fun _ => Raise SerialException) SerialException);
      reflexivity.
  - destruct (reading_row_follows_status_write
                (env_at 12 30 (fun _ => 20%Q)) 7 7 initial) as [H _].
    apply H. discriminate.
  - destruct (reading_row_follows_status_write
                (env_at 12 30 (fun _ => 20%Q)) 30 1 initial) as [_ H].
    destruct (H eq_refl) as [_ Hrow].
    destruct (Hrow
                (snd (ser_write (fun _ => Ok tt) ("off,68,70" ++ newline)%string
                        (snd (setupSerialOutput (env_at 12 30 (fun _ => 20%Q))
                                (displayed (env_at 12 30 (fun _ => 20%Q)) 1
                                   initial)))))
                (Some 68%Q)) as (Hdb & _).
    + right. exists (fun _ => Ok tt), "off,68,70"%string.
      eexists. split; [reflexivity|]. split; [reflexivity|].
      split; [|reflexivity]. vm_compute. reflexivity.
    + vm_compute. reflexivity.
    + rewrite Hdb. vm_compute. reflexivity.
Defined.

(** ** A controller without its sensor *)

Section SensorAbsent.

Variable g : Env.
Hypothesis absent : thSensor g = None.

Lemma smoothed_absent s : smoothed g s = s /\ smoothed_value g s = None.
Proof.
  unfold smoothed, smoothed_value, sample, sampled. rewrite absent.
  split; reflexivity.
Qed.

Context {B : Type} (f : Thermostat -> B).
Hypothesis f_state : ignores set_current_state f.
Hypothesis f_offset : ignores set_manualOffset f.
Hypothesis f_events : ignores set_db_events f.
Hypothesis f_base : ignores set_baseSetPoint f.
Hypothesis f_setPoint : ignores set_setPoint f.
Hypothesis f_clock : ignores set_clock_reads f.
Hypothesis f_red : ignores set_redLight f.
Hypothesis f_blue : ignores set_blueLight f.
Hypothesis f_screen : ignores set_screen f.
Hypothesis f_ser : ignores set_ser_out f.
Hypothesis f_readings : ignores set_db_readings f.

Lemma absent_updated s : f (updated g s) = f s.
Proof.
  unfold updated. destruct (smoothed_absent (refreshed g s)) as [-> _].
  rewrite lights_set_frame, refreshed_frame by assumption. reflexivity.
Qed.

Lemma absent_ticked counter altCounter s :
  f (ticked g counter altCounter s) = f s.
Proof.
  assert (Hd : f (displayed g altCounter s) = f s).
  { unfold displayed, shown. rewrite f_screen.
    destruct (altCounter <? 6); [|destruct (altCounter + 1 >=? 11)];
      rewrite ?absent_updated; try destruct (smoothed_absent (clocked g s)) as [-> _];
      apply clocked_frame; assumption. }
  unfold ticked. destruct (_ =? 0); [|exact Hd].
  unfold emitted, reading_logged.
  destruct (ser g) as [port|].
  - destruct (smoothed_absent (displayed g altCounter s)) as [-> _].
    destruct (port _).
    + rewrite f_readings.
      destruct (smoothed_absent
                  (set_ser_out
                     (ser_out (displayed g altCounter s)
                      ++ [(status_line g (displayed g altCounter s) ++ newline)%string])
                     (displayed g altCounter s))) as [-> _].
      rewrite f_ser. exact Hd.
    + rewrite f_ser. exact Hd.
  - rewrite f_readings.
    destruct (smoothed_absent (displayed g altCounter s)) as [-> _]. exact Hd.
Qed.

Lemma absent_handled e s : f (handled g e s) = f s.
Proof.
  destruct e; cbn [handled]; unfold cycled, adjusted, logged.
  - cbn [current_state set_db_events].
    destruct (current_state s); rewrite ?f_events, ?absent_updated;
      rewrite ?f_blue, ?f_red, ?f_state, ?f_red, ?f_blue, ?f_events; reflexivity.
  - rewrite absent_updated, refreshed_frame, f_events, f_offset by assumption.
    reflexivity.
  - rewrite absent_updated, refreshed_frame, f_events, f_offset by assumption.
    reflexivity.
Qed.

Lemma absent_looped rounds :
  forall c s, f (snd (looped g rounds c s)) = f s.
Proof.
  induction rounds as [|es rounds IH]; intros c s; [reflexivity|].
  cbn [looped]. rewrite IH, absent_ticked.
  generalize s. induction es as [|e es IHes]; intros s0; [reflexivity|].
  cbn [handled_all fold_left]. fold (handled_all g es (handled g e s0)).
  rewrite IHes. apply absent_handled.
Qed.

End SensorAbsent.

Lemma append_assoc_string (a b c : string) :
  ((a ++ b) ++ c = a ++ (b ++ c))%string.
Proof.
  induction a as [|x a IH]; [reflexivity|].
  cbn [String.append]. rewrite IH. reflexivity.
Qed.

Lemma absent_lines g rounds :
  thSensor g = None ->
  forall c s,
  exists l,
    ser_out (snd (looped g rounds c s)) = ser_out s ++ l /\
    Forall (fun line =>
              exists st sp,
                line = (State_id st ++ ",NA," ++ str sp ++ newline)%string) l.
Proof.
  intros Habs. induction rounds as [|es rounds IH]; intros c s.
  - exists []. cbn [looped snd]. rewrite app_nil_r. split; constructor.
  - cbn [looped].
    destruct (IH (status_counter (fst c), display_alt (snd c))
                (ticked g (fst c) (snd c) (handled_all g es s))) as (l & Hl & Hna).
    rewrite Hl, ser_out_ticked, ser_out_handled_all.
    destruct (_ =? 0); [destruct (ser g)|]; try (exists l; split; [reflexivity|exact Hna]).
    rewrite <- app_assoc. eexists; split; [reflexivity|].
    constructor; [|exact Hna].
    unfold status_line.
    destruct (smoothed_absent g Habs
                (displayed g (snd c) (handled_all g es s))) as [_ ->].
    do 2 eexists. rewrite append_assoc_string. reflexivity.
Qed.

(** X9. With the sensor missing, a run makes no sensor transaction and
    never touches the filter, and every line it hands to the serial port
    is the mode, [NA] and the setpoint. *)
Theorem run_without_sensor :
  forall (g : Env) (rounds : list (list Event)) (s : Thermostat),
    thSensor g = None ->
    let s' := snd (manageMyDisplay g rounds s) in
    sensor_reads s' = sensor_reads s /\
    ma s' = ma s /\
    exists l,
      ser_out s' = ser_out s ++ l /\
      Forall (fun line =>
                exists st sp,
                  line = (State_id st ++ ",NA," ++ str sp ++ newline)%string) l.
Proof.
  intros g rounds s Habs s'. subst s'. unfold manageMyDisplay.
  rewrite loop_eq. cbn [snd].
  split; [apply (absent_looped g Habs sensor_reads); ignored|].
  split; [apply (absent_looped g Habs ma); ignored|].
  apply absent_lines, Habs.
Qed.

Lemma run_without_sensor_witness :
  let g :=
    {| SCHEDULE_ENABLED := true;
       schedule := [(360, 70); (1320, 65)];
       thSensor := None;
       ser := Some (fun _ => Ok tt);
       now := clock_at 12 30 |} in
  ma (snd (manageMyDisplay g (repeat [] 30) initial)) = ma initial.
Proof.
  intros g.
  apply (run_without_sensor g (repeat [] 30) initial eq_refl).
Defined.

(** ** The display *)

Lemma length_append (a b : string) :
  String.length (a ++ b) = (String.length a + String.length b)%nat.
Proof. induction a as [|c a IH]; cbn; [|rewrite IH]; reflexivity. Qed.

Lemma append_empty_r (a : string) : (a ++ "")%string = a.
Proof. induction a as [|c a IH]; cbn; [|rewrite IH]; reflexivity. Qed.

Lemma length_spaces n : String.length (spaces n) = n.
Proof. induction n as [|n IH]; cbn; [|rewrite IH]; reflexivity. Qed.

Lemma length_ljust n s : String.length (ljust n s) = Nat.max n (String.length s).
Proof. unfold ljust. rewrite length_append, length_spaces. lia. Qed.

Lemma slice_to_prefix n s :
  exists rest,
    s = (slice_to n s ++ rest)%string /\
    String.length rest = (String.length s - n)%nat.
Proof.
  unfold slice_to. revert s; induction n as [|n IH]; intros s.
  - exists s. destruct s; split; reflexivity.
  - destruct s as [|c s]; [exists EmptyString; split; reflexivity|].
    destruct (IH s) as (rest & Hs & Hl). exists rest.
    cbn [substring String.append String.length]. split; [congruence|exact Hl].
Qed.

Lemma length_slice_to n s :
  String.length (slice_to n s) = Nat.min n (String.length s).
Proof.
  unfold slice_to. revert s; induction n as [|n IH]; intros [|c s];
    cbn [substring String.length]; try reflexivity.
  rewrite IH. reflexivity.
Qed.

Lemma slice_to_all n s : (String.length s <= n)%nat -> slice_to n s = s.
Proof.
  intros H. destruct (slice_to_prefix n s) as (rest & Hs & Hl).
  destruct rest; [rewrite append_empty_r in Hs; congruence|].
  cbn [String.length] in Hl. lia.
Qed.

Lemma ljust_full n s : (n <= String.length s)%nat -> ljust n s = s.
Proof.
  intros H. unfold ljust. replace (n - String.length s)%nat with 0%nat by lia.
  apply append_empty_r.
Qed.

Lemma row_length s : String.length (slice_to 16 (ljust 16 s)) = 16%nat.
Proof. rewrite length_slice_to, length_ljust. lia. Qed.

Lemma row_of_row s :
  String.length s = 16%nat -> slice_to 16 (ljust 16 s) = s.
Proof.
  intros H. rewrite ljust_full by lia. apply slice_to_all. lia.
Qed.

Lemma split_newline_first a b :
  no_newline a = true ->
  split_newline ((a ++ newline) ++ b) = (a, Some b).
Proof.
  induction a as [|c a IH]; intros H; [reflexivity|].
  cbn [no_newline] in H. apply andb_prop in H as [Hc Ha].
  cbn [String.append split_newline].
  destruct (Ascii.eqb c (ascii_of_nat 10)); [discriminate|].
  rewrite (IH Ha). reflexivity.
Qed.

Lemma split_newline_none a :
  no_newline a = true -> split_newline a = (a, None).
Proof.
  induction a as [|c a IH]; intros H; [reflexivity|].
  cbn [no_newline] in H. apply andb_prop in H as [Hc Ha].
  cbn [split_newline].
  destruct (Ascii.eqb c (ascii_of_nat 10)); [discriminate|].
  rewrite (IH Ha). reflexivity.
Qed.

Lemma no_newline_app a b :
  no_newline (a ++ b) = no_newline a && no_newline b.
Proof.
  induction a as [|c a IH]; [reflexivity|].
  cbn [String.append no_newline]. rewrite IH. apply andb_assoc.
Qed.

Lemma no_newline_spaces n : no_newline (spaces n) = true.
Proof. induction n as [|n IH]; [reflexivity|exact IH]. Qed.

Lemma no_newline_uint d : no_newline (NilEmpty.string_of_uint d) = true.
Proof. induction d; cbn; auto. Qed.

Lemma no_newline_str z : no_newline (str z) = true.
Proof.
  unfold str. destruct (Z.to_int z) as [d|d]; cbn [NilZero.string_of_int].
  - destruct d; try reflexivity; apply (no_newline_uint (_ d)).
  - cbn [no_newline]. destruct d; try reflexivity;
      apply (no_newline_uint (_ d)).
Qed.

Lemma no_newline_pad2 z : no_newline (pad2 z) = true.
Proof.
  unfold pad2. destruct (z <? 10); [|apply no_newline_str].
  rewrite no_newline_app, no_newline_str. reflexivity.
Qed.

Lemma no_newline_strftime d : no_newline (ljust 16 (strftime d)) = true.
Proof.
  unfold ljust, strftime.
  rewrite !no_newline_app, !no_newline_pad2, no_newline_spaces. reflexivity.
Qed.

(** X10. [updateScreen] always hands the display two rows of exactly 16
    characters, whatever the message: the text before the first line break,
    and the text after it, each padded with spaces or cut.  A message
    without a line break leaves the second row blank. *)
Theorem updateScreen_rows_are_sixteen_wide :
  forall (message : string) (s : Thermostat),
    exists row1 row2 s',
      updateScreen message s = (Ok tt, s') /\
      screen s' = screen s ++ [(row1, row2)] /\
      String.length row1 = 16%nat /\
      String.length row2 = 16%nat /\
      (forall a b,
          no_newline a = true -> message = ((a ++ newline) ++ b)%string ->
          row1 = slice_to 16 (ljust 16 a) /\
          row2 = slice_to 16 (ljust 16 b)) /\
      (no_newline message = true ->
       row1 = slice_to 16 (ljust 16 message) /\ row2 = spaces 16).
Proof.
  intros message s. rewrite updateScreen_eq. unfold screen_rows.
  do 3 eexists. split; [reflexivity|]. split; [reflexivity|].
  split; [apply row_length|]. split; [apply row_length|]. split.
  - intros a b Ha ->. rewrite (split_newline_first a b Ha). split; reflexivity.
  - intros Hm. rewrite (split_newline_none message Hm). split; reflexivity.
Qed.

Lemma updateScreen_witness :
  exists row1 row2 s',
    updateScreen "no line break here" initial = (Ok tt, s') /\
    screen s' = [(row1, row2)] /\
    row1 = "no line break he"%string /\ row2 = spaces 16.
Proof.
  destruct (updateScreen_rows_are_sixteen_wide "no line break here" initial)
    as (row1 & row2 & s' & Hrun & Hs & _ & _ & _ & Hplain).
  exists row1, row2, s'. split; [exact Hrun|]. split; [exact Hs|].
  apply Hplain. reflexivity.
Defined.

Lemma screen_ticked g counter altCounter s :
  screen (ticked g counter altCounter s)
  = screen s
    ++ [(slice_to 16
           (ljust 16 (strftime (now g (clock_reads (refreshed g s))))),
         lcd_line_2 g altCounter (clocked g s))].
Proof.
  assert (Hl : String.length (lcd_line_2 g altCounter (clocked g s)) = 16%nat).
  { unfold lcd_line_2. destruct (altCounter <? 6); apply row_length. }
  assert (Hd : screen (displayed g altCounter s)
               = screen s
                 ++ [(slice_to 16
                        (ljust 16
                           (strftime (now g (clock_reads (refreshed g s))))),
                      lcd_line_2 g altCounter (clocked g s))]).
  { unfold displayed. cbn [screen set_screen]. f_equal.
    - unfold shown. destruct (altCounter <? 6); [|destruct (_ >=? 11)];
        frame; reflexivity.
    - unfold screen_rows.
      rewrite split_newline_first by apply no_newline_strftime.
      cbn [fst snd]. rewrite (row_of_row _ Hl).
      rewrite (ljust_full 16 (ljust 16 _)) by (rewrite length_ljust; lia).
      reflexivity. }
  unfold ticked. destruct (_ =? 0); [|exact Hd].
  rewrite (emitted_frame screen g) by ignored. exact Hd.
Qed.

(** X11. Every iteration of the loop hands the display exactly one pair
    of rows: the time stamp, and a second row that reaches the display as
    it was built.  From the sixth to the tenth iteration of a cycle that row
    is the mode in capitals, padded.  On the first five it is the text
    [Temp:] [t] [F Set:] [sp] [F], where [t] is the floor of the smoothed
    read made after the refresh and the reading of the clock, or [--] when
    that read is absent (as it is when the sensor is missing), and [sp] is
    the setpoint just refreshed; the text fits whole when the two numbers
    take at most four characters together and otherwise loses its end. *)
Theorem display_rows_of_an_iteration :
  forall (g : Env) (counter altCounter : Z) (s : Thermostat),
    let s' := snd (tick g (counter, altCounter) s) in
    let s1 := snd (_refreshEffectiveSetPoint g s) in
    let d := now g (clock_reads s1) in
    exists row2,
      screen s' = screen s ++ [(slice_to 16 (ljust 16 (strftime d)), row2)] /\
      String.length row2 = 16%nat /\
      (6 <= altCounter ->
       row2 = ljust 16 (upper (State_id (current_state s)))) /\
      (altCounter < 6 ->
       forall temp_sm,
         fst (_getSmoothedFahrenheit g (snd (datetime_now g s1))) = Ok temp_sm ->
         let t_show :=
           match temp_sm with
           | None => "--"%string
           | Some t => str (Qfloor t)
           end in
         let text :=
           ("Temp:" ++ t_show ++ "F Set:" ++ str (setPoint s1) ++ "F")%string in
         row2 = slice_to 16 (ljust 16 text) /\
         (thSensor g = None -> t_show = "--"%string) /\
         ((String.length t_show + String.length (str (setPoint s1)) <= 4)%nat ->
          row2 = ljust 16 text) /\
         ((4 < String.length t_show + String.length (str (setPoint s1)))%nat ->
          exists rest, rest <> EmptyString /\ text = (row2 ++ rest)%string)).
Proof.
  intros g counter altCounter s s' s1 d. subst s' s1 d.
  rewrite tick_eq, refresh_eq. cbn [snd]. rewrite screen_ticked.
  eexists. split; [reflexivity|]. unfold lcd_line_2.
  split; [destruct (altCounter <? 6); apply row_length|]. split.
  - intros H6. destruct (Z.ltb_spec altCounter 6); [lia|].
    rewrite (clocked_frame current_state) by ignored.
    destruct (current_state s); reflexivity.
  - intros H6 temp_sm Htemp. destruct (Z.ltb_spec altCounter 6); [|lia].
    unfold datetime_now in Htemp. cbn [snd] in Htemp. fold (clocked g s) in Htemp.
    rewrite getSmoothed_eq in Htemp. cbn [fst] in Htemp. injection Htemp as Htemp.
    rewrite Htemp.
    assert (Hsp : setPoint (smoothed g (clocked g s)) = setPoint (refreshed g s))
      by (frame; unfold clocked; reflexivity).
    rewrite Hsp. cbv zeta. split; [reflexivity|]. split; [|split].
    + intros Hnone. rewrite <- Htemp. unfold smoothed_value, sample.
      rewrite Hnone. reflexivity.
    + intros Hfit. apply slice_to_all. rewrite length_ljust.
      rewrite !length_append. cbn [String.length]. lia.
    + intros Hlong.
      match goal with
      | |- exists rest, _ /\ ?text = _ =>
          assert (Hlen : (16 < String.length text)%nat)
            by (rewrite !length_append; cbn [String.length]; lia);
          rewrite (ljust_full 16 text) by lia;
          destruct (slice_to_prefix 16 text) as (rest & Hrest & Hl)
      end.
      exists rest. split; [|exact Hrest].
      intros ->. cbn [String.length] in Hl. lia.
Qed.

Lemma display_rows_witness :
  exists row2,
    screen (snd (tick warming (1, 1) initial))
    = [("01/01 12:30:00  "%string, row2)] /\
    row2 = "Temp:68F Set:70F"%string.
Proof.
  destruct (display_rows_of_an_iteration warming 1 1 initial)
    as (row2 & Hs & _ & _ & Hrow).
  exists row2. split; [exact Hs|].
  destruct (Hrow ltac:(lia) (Some 68%Q)) as (_ & _ & Hfit & _).
  - vm_compute. reflexivity.
  - rewrite Hfit; [vm_compute; reflexivity|]. vm_compute. lia.
Defined.

(** ** More on the moving average *)

Lemma repeat_snoc {A} (a : A) n : repeat a (S n) = repeat a n ++ [a].
Proof. apply repeat_cons. Qed.

(** After ten pushes of 70.1 into the controller's filter, one more push of
    70.1 leaves the filter exactly as it was. *)
Lemma stuck_filter_fixpoint :
  forall j : nat,
    snd (MovingAverage.pushes (repeat (float_of (701 # 10)) (10 + j))
           (MovingAverage.init (PyInt MA_WINDOW)))
    = snd (MovingAverage.pushes (repeat (float_of (701 # 10)) 10)
             (MovingAverage.init (PyInt MA_WINDOW))).
Proof.
  induction j as [|j IH].
  - rewrite Nat.add_0_r. reflexivity.
  - replace (10 + S j)%nat with (S (10 + j)) by lia.
    rewrite repeat_snoc, pushes_snoc. cbn [snd]. rewrite IH.
    vm_compute. reflexivity.
Qed.

(** X12. Smoothing can leave the range of its input, and stay outside.
    With the window of ten samples that the controller uses and a reading
    that stays at 70.1, the first five averages are 70.1 and every later
    one is 70.10000000000001, above every sample pushed: the running sum
    has taken up the rounding of the additions, and from the tenth push on
    adding a sample and subtracting the evicted one leaves it at
    701.0000000000001. *)
Theorem moving_average_leaves_the_range :
  let x := float_of (701 # 10) in
  let v := float_of (7010000000000001 # 100000000000000) in
  let after k :=
    snd (MovingAverage.pushes (repeat x k)
           (MovingAverage.init (PyInt MA_WINDOW))) in
  (x < v)%Q /\
  (forall k, (k < 5)%nat ->
             fst (MovingAverage.push x (after k)) = Ok (Some x)) /\
  (forall k, (5 <= k)%nat ->
             fst (MovingAverage.push x (after k)) = Ok (Some v)) /\
  (forall k, (10 <= k)%nat ->
             MovingAverage.buf (after k) = repeat x 10 /\
             MovingAverage.sum (after k)
             = float_of (7010000000000001 # 10000000000000)).
Proof.
  cbv zeta. split; [vm_compute; reflexivity|].
  assert (Hfix : forall k, (10 <= k)%nat ->
            snd (MovingAverage.pushes (repeat (float_of (701 # 10)) k)
                   (MovingAverage.init (PyInt MA_WINDOW)))
            = snd (MovingAverage.pushes (repeat (float_of (701 # 10)) 10)
                     (MovingAverage.init (PyInt MA_WINDOW)))).
  { intros k Hk. replace k with (10 + (k - 10))%nat by lia.
    apply stuck_filter_fixpoint. }
  split; [|split].
  - intros k Hk.
    do 5 (destruct k as [|k]; [vm_compute; reflexivity|]). lia.
  - intros k Hk.
    destruct (Nat.lt_ge_cases k 10) as [Hlt|Hge].
    + do 5 (destruct k as [|k]; [lia|]).
      do 5 (destruct k as [|k]; [vm_compute; reflexivity|]). lia.
    + rewrite (Hfix k Hge). vm_compute. reflexivity.
  - intros k Hk. rewrite (Hfix k Hk). split; vm_compute; reflexivity.
Qed.

Lemma moving_average_range_witness :
  fst (MovingAverage.push (float_of (701 # 10))
         (snd (MovingAverage.pushes (repeat (float_of (701 # 10)) 40)
                 (MovingAverage.init (PyInt MA_WINDOW)))))
  = Ok (Some (float_of (7010000000000001 # 100000000000000))).
Proof.
  destruct moving_average_leaves_the_range as (_ & _ & H & _).
  apply (H 40%nat). lia.
Defined.

(** X13. What the filter forgets, and what it does not.  Two histories
    that end with the same [window] samples leave the same buffer, before
    and after the next push.  When all samples are whole numbers of
    magnitude at most [B] with [(window + 1) * B <= 2 ^ 53], the next push
    also returns the same average after either.  In general it does not:
    the running sum depends on the samples evicted.  With a window of two,
    after 69.9, 70.1, 70.2 a push of 70.3 returns 70.24999999999999, and
    after 70.1, 70.2 alone it returns 70.25000000000001. *)
Theorem moving_average_history :
  forall (w : pynum) (xs ys : list Q) (x : Q),
    let W := Z.max 1 (py_int w) in
    let m1 := snd (MovingAverage.pushes xs (MovingAverage.init w)) in
    let m2 := snd (MovingAverage.pushes ys (MovingAverage.init w)) in
    lastn W xs = lastn W ys ->
    MovingAverage.buf m1 = MovingAverage.buf m2 /\
    MovingAverage.buf (snd (MovingAverage.push x m1))
    = MovingAverage.buf (snd (MovingAverage.push x m2)) /\
    (forall B,
        Forall (small_int B) (x :: xs ++ ys) -> (W + 1) * B <= 2 ^ 53 ->
        fst (MovingAverage.push x m1) = fst (MovingAverage.push x m2)) /\
    (let long :=
       snd (MovingAverage.pushes
              [float_of (699 # 10); float_of (701 # 10); float_of (702 # 10)]
              (MovingAverage.init (PyInt 2))) in
     let short :=
       snd (MovingAverage.pushes
              [float_of (701 # 10); float_of (702 # 10)]
              (MovingAverage.init (PyInt 2))) in
     MovingAverage.buf long = MovingAverage.buf short /\
     fst (MovingAverage.push (float_of (703 # 10)) long)
     = Ok (Some (float_of (7024999999999999 # 100000000000000))) /\
     fst (MovingAverage.push (float_of (703 # 10)) short)
     = Ok (Some (float_of (7025000000000001 # 100000000000000)))).
Proof.
  intros w xs ys x W m1 m2 Hlast.
  pose proof (ma_inv_pushes w xs) as H1. pose proof (ma_inv_pushes w ys) as H2.
  fold W m1 in H1. fold W m2 in H2.
  assert (HW : 1 <= W) by (unfold W; lia).
  assert (Hb : MovingAverage.buf m1 = MovingAverage.buf m2)
    by (rewrite (inv_buf _ _ _ H1), (inv_buf _ _ _ H2); exact Hlast).
  assert (Hb' : MovingAverage.buf (pushed x m1) = MovingAverage.buf (pushed x m2))
    by (rewrite !pushed_buf, Hb, (inv_window _ _ _ H1), (inv_window _ _ _ H2);
        reflexivity).
  split; [exact Hb|]. split; [rewrite !push_state; exact Hb'|]. split.
  - intros B Hsmall HB.
    inversion Hsmall as [|? ? Hx Hrest]; subst.
    apply Forall_app in Hrest as [Hxs Hys].
    destruct (pushes_exact B w xs HB Hxs) as [Hbuf1 Hsum1].
    destruct (pushes_exact B w ys HB Hys) as [Hbuf2 Hsum2].
    fold m1 in Hbuf1, Hsum1. fold m2 in Hbuf2, Hsum2.
    destruct (pushed_exact B W x m1 HB (ma_inv_bound W xs m1 HW H1)
                Hx Hbuf1 Hsum1) as [_ Hs1].
    destruct (pushed_exact B W x m2 HB (ma_inv_bound W ys m2 HW H2)
                Hx Hbuf2 Hsum2) as [_ Hs2].
    rewrite (push_returns x m1) by (rewrite (inv_window _ _ _ H1); exact HW).
    rewrite (push_returns x m2) by (rewrite (inv_window _ _ _ H2); exact HW).
    cbn [fst]. do 2 f_equal. unfold fdiv. apply round64_proper.
    rewrite Hs1, Hs2, Hb'. reflexivity.
  - cbv zeta. split; [vm_compute; reflexivity|].
    split; vm_compute; reflexivity.
Qed.

Lemma moving_average_history_witness :
  fst (MovingAverage.push 72%Q
         (snd (MovingAverage.pushes [1; 2; 70; 71]%Q
                 (MovingAverage.init (PyInt 2)))))
  = fst (MovingAverage.push 72%Q
           (snd (MovingAverage.pushes [70; 71]%Q
                   (MovingAverage.init (PyInt 2))))).
Proof.
  destruct (moving_average_history
              (PyInt 2) [1; 2; 70; 71]%Q [70; 71]%Q 72%Q eq_refl)
    as (_ & _ & H & _).
  apply (H 100).
  - repeat constructor;
      match goal with
      | |- small_int _ (?n # 1) => exists n; split; [reflexivity|lia]
      end.
  - vm_compute. discriminate.
Defined.

(** ** The filter inside the controller *)

Section FilterInvariant.

Variable P : MovingAverage.t -> Prop.
Hypothesis P_pushed : forall x m, P m -> P (pushed x m).
Variable g : Env.

Lemma inv_smoothed s : P (ma s) -> P (ma (smoothed g s)).
Proof.
  intros H. unfold smoothed.
  destruct (sample g s); cbn [ma set_ma].
  - apply P_pushed, H.
  - rewrite (sampled_frame ma) by ignored. exact H.
Qed.

Lemma inv_updated s : P (ma s) -> P (ma (updated g s)).
Proof.
  intros H. unfold updated. rewrite (lights_set_frame ma) by ignored.
  apply inv_smoothed. rewrite (refreshed_frame ma) by ignored. exact H.
Qed.

Lemma inv_handled e s : P (ma s) -> P (ma (handled g e s)).
Proof.
  intros H. destruct e; cbn [handled]; unfold adjusted.
  - unfold cycled. cbn [current_state logged set_db_events].
    destruct (current_state s); unfold logged; cbn [ma set_db_events];
      try apply inv_updated; exact H.
  - apply inv_updated. frame. exact H.
  - apply inv_updated. frame. exact H.
Qed.

Lemma inv_ticked counter altCounter s :
  P (ma s) -> P (ma (ticked g counter altCounter s)).
Proof.
  intros H.
  assert (Hd : P (ma (displayed g altCounter s))).
  { unfold displayed, shown. cbn [ma set_screen].
    destruct (altCounter <? 6); [|destruct (altCounter + 1 >=? 11)];
      [apply inv_smoothed|apply inv_updated|];
      rewrite (clocked_frame ma) by ignored; exact H. }
  unfold ticked. destruct (_ =? 0); [|exact Hd].
  unfold emitted, reading_logged. destruct (ser g) as [port|].
  - destruct (port _); cbn [ma set_db_readings set_ser_out];
      repeat apply inv_smoothed; cbn [ma set_ser_out];
      repeat apply inv_smoothed; exact Hd.
  - cbn [ma set_db_readings]. apply inv_smoothed, Hd.
Qed.

Lemma inv_looped rounds :
  forall c s, P (ma s) -> P (ma (snd (looped g rounds c s))).
Proof.
  induction rounds as [|es rounds IH]; intros c s H; [exact H|].
  cbn [looped]. apply IH, inv_ticked.
  revert s H. induction es as [|e es IHes]; intros s H; [exact H|].
  cbn [handled_all fold_left]. fold (handled_all g es (handled g e s)).
  apply IHes, inv_handled, H.
Qed.

End FilterInvariant.

Lemma smoothed_value_present g s :
  1 <= MovingAverage.window (ma s) ->
  (smoothed_value g s = None <-> sample g s = None).
Proof.
  intros Hw. unfold smoothed_value.
  destruct (sample g s) as [x|]; [|tauto].
  pose proof (pushed_buf_nonempty x (ma s) Hw) as Hne. unfold average.
  destruct (MovingAverage.buf (pushed x (ma s)));
    [cbn in Hne; lia|split; discriminate].
Qed.

(** X14. Throughout a run of the controller the filter keeps the window
    of ten samples it is created with and never holds more than ten; and
    the smoothed read is absent exactly when the sensor read is. *)
Theorem controller_filter_stays_in_its_window :
  filter_ok initial /\
  forall (g : Env) (rounds : list (list Event)) (s : Thermostat),
    filter_ok s ->
    let s' := snd (manageMyDisplay g rounds s) in
    filter_ok s' /\
    (fst (_getSmoothedFahrenheit g s') = Ok None
     <-> fst (getFahrenheit g s') = Ok None).
Proof.
  split; [split; [reflexivity|unfold MA_WINDOW; cbn; lia]|].
  intros g rounds s Hok s'.
  assert (Hok' : filter_ok s').
  { subst s'. unfold manageMyDisplay. rewrite loop_eq. cbn [snd].
    apply (inv_looped
             (fun m => MovingAverage.window m = MA_WINDOW /\
                       len (MovingAverage.buf m) <= MA_WINDOW));
      [|exact Hok].
    intros x m [Hw Hb]. rewrite pushed_window. split; [exact Hw|].
    rewrite <- Hw. apply pushed_buf_bound. rewrite Hw. exact Hb. }
  split; [exact Hok'|].
  rewrite getSmoothed_eq, getFahrenheit_eq. cbn [fst].
  destruct Hok' as [Hw _].
  assert (H1 : 1 <= MovingAverage.window (ma s'))
    by (rewrite Hw; unfold MA_WINDOW; lia).
  pose proof (smoothed_value_present g s' H1) as Hiff.
  split; intros H; injection H as H; f_equal; apply Hiff, H.
Qed.

Lemma controller_filter_witness :
  filter_ok
    (snd (manageMyDisplay warming [[CycleMode]; []; [Increment]] initial)).
Proof.
  destruct controller_filter_stays_in_its_window as [Hinit Hrun].
  apply (Hrun warming [[CycleMode]; []; [Increment]] initial Hinit).
Defined.

(** ** The dead band *)

Lemma refreshed_mode g st s :
  refreshed g (set_current_state st s) = set_current_state st (refreshed g s).
Proof.
  unfold refreshed. cbn [clock_reads manualOffset baseSetPoint set_current_state].
  destruct (schedule_in_use g); [destruct (schedule_pick g _)|]; reflexivity.
Qed.

Lemma smoothed_value_mode g st s :
  smoothed_value g (set_current_state st s) = smoothed_value g s.
Proof. reflexivity. Qed.

(** X15. The two modes never call for effort at once: for the same
    reading and setpoint, Heat and Cool do not both pulse, and when the
    smoothed temperature is within one degree of the setpoint both show a
    solid light. *)
Theorem dead_band_between_heat_and_cool :
  forall (g : Env) (s : Thermostat),
    let heating := snd (updateLights g (set_current_state heat s)) in
    let cooling := snd (updateLights g (set_current_state cool s)) in
    ~ (redLight heating = LedPulse /\ blueLight cooling = LedPulse) /\
    (forall temp,
        let s1 := snd (_refreshEffectiveSetPoint g s) in
        fst (_getSmoothedFahrenheit g s1) = Ok (Some temp) ->
        (inject_Z (setPoint s1) - 1 <= temp <= inject_Z (setPoint s1) + 1)%Q ->
        redLight heating = LedSolid /\ blueLight cooling = LedSolid).
Proof.
  intros g s heating cooling. subst heating cooling.
  rewrite !updateLights_eq. cbn [snd]. unfold updated.
  rewrite !refreshed_mode.
  change (smoothed_value g (set_current_state heat (refreshed g s)))
    with (smoothed_value g (refreshed g s)).
  change (smoothed_value g (set_current_state cool (refreshed g s)))
    with (smoothed_value g (refreshed g s)).
  assert (Hh : forall t,
             redLight (lights_set t (smoothed g (set_current_state heat (refreshed g s))))
             = match t with
               | None => LedSolid
               | Some x =>
                   if Qltb x (inject_Z (setPoint (refreshed g s)) - HYSTERESIS_F)
                   then LedPulse else LedSolid
               end).
  { intros t. unfold lights_set.
    rewrite (smoothed_frame current_state) by ignored.
    rewrite (smoothed_frame setPoint) by ignored. reflexivity. }
  assert (Hc : forall t,
             blueLight (lights_set t (smoothed g (set_current_state cool (refreshed g s))))
             = match t with
               | None => LedSolid
               | Some x =>
                   if Qltb (inject_Z (setPoint (refreshed g s)) + HYSTERESIS_F) x
                   then LedPulse else LedSolid
               end).
  { intros t. unfold lights_set.
    rewrite (smoothed_frame current_state) by ignored.
    rewrite (smoothed_frame setPoint) by ignored. reflexivity. }
  rewrite Hh, Hc. split.
  - intros [H1 H2]. destruct (smoothed_value g (refreshed g s)) as [x|];
      [|discriminate].
    destruct (Qltb x _) eqn:E1; [|discriminate].
    destruct (Qltb _ x) eqn:E2; [|discriminate].
    apply Qltb_lt in E1, E2. unfold HYSTERESIS_F in *.
    assert (Hlt : (inject_Z (setPoint (refreshed g s)) + 1
                   < inject_Z (setPoint (refreshed g s)) - 1)%Q)
      by (eapply Qlt_trans; eassumption).
    revert Hlt. generalize (inject_Z (setPoint (refreshed g s))). intros q Hlt.
    unfold Qlt, Qplus, Qminus, Qopp in Hlt. cbn in Hlt. nia.
  - intros temp. cbv zeta. rewrite refresh_eq. cbn [snd].
    rewrite getSmoothed_eq. cbn [fst]. intros E [Hlo Hhi].
    injection E as ->. unfold HYSTERESIS_F.
    destruct (Qltb temp _) eqn:E1.
    { apply Qltb_lt in E1. exfalso. eapply Qlt_not_le; eassumption. }
    destruct (Qltb _ temp) eqn:E2.
    { apply Qltb_lt in E2. exfalso. eapply Qlt_not_le; eassumption. }
    split; reflexivity.
Qed.

Lemma dead_band_witness :
  let g := env_at 12 30 (fun _ => (21 # 1)%Q) in
  redLight (snd (updateLights g (set_current_state heat initial))) = LedSolid /\
  blueLight (snd (updateLights g (set_current_state cool initial))) = LedSolid.
Proof.
  intros g.
  destruct (dead_band_between_heat_and_cool g initial) as [_ H].
  apply (H (fahrenheit 21%Q)); [vm_compute; reflexivity|].
  split; vm_compute; discriminate.
Defined.

(** ** The first version of the controller *)

Lemma v1_getFahrenheit_eq d s :
  V1.getFahrenheit d s
  = (match V1.thSensor d (sensor_reads s) with
     | Ok t => Ok (fahrenheit t)
     | Raise e => Raise e
     end, read_once s).
Proof.
  unfold V1.getFahrenheit, bind, temperature, read_once.
  destruct (V1.thSensor d (sensor_reads s)); reflexivity.
Qed.

Lemma v1_updateLights_eq d s t :
  V1.thSensor d (sensor_reads s) = Ok t ->
  V1.updateLights d s
  = (Ok tt, v1_lights_set (Qfloor (fahrenheit t)) (read_once s)).
Proof.
  intros Ht. unfold V1.updateLights.
  unfold bind at 1. rewrite v1_getFahrenheit_eq, Ht.
  unfold bind at 1, lift at 1, floor at 1.
  generalize (Qfloor (fahrenheit t)) as temp.
  generalize (read_once s) as s1. intros s1 temp.
  unfold v1_lights_set, bind, modify, get, ret.
  cbn [current_state set_redLight set_blueLight setPoint].
  destruct (current_state s1); cbn [State_id String.eqb Ascii.eqb Bool.eqb].
  - reflexivity.
  - destruct (temp <? _); reflexivity.
  - destruct (temp >? _); reflexivity.
Qed.

Lemma v1_updateLights_raise d s e :
  V1.thSensor d (sensor_reads s) = Raise e ->
  V1.updateLights d s = (Raise e, read_once s).
Proof.
  intros He. unfold V1.updateLights.
  unfold bind at 1. rewrite v1_getFahrenheit_eq, He. reflexivity.
Qed.

Lemma Qfloor_ltb f n : (Qfloor f <? n) = true <-> (f < inject_Z n)%Q.
Proof.
  rewrite Z.ltb_lt. split; intros H.
  - eapply Qlt_le_trans; [apply Qlt_floor|].
    rewrite <- Zle_Qle. lia.
  - rewrite Zlt_Qlt. eapply Qle_lt_trans; [apply Qfloor_le|exact H].
Qed.

Lemma Qfloor_gtb f n : (Qfloor f >? n) = true <-> (inject_Z n + 1 <= f)%Q.
Proof.
  rewrite Z.gtb_ltb, Z.ltb_lt. split; intros H.
  - eapply Qle_trans; [|apply Qfloor_le].
    change 1%Q with (inject_Z 1). rewrite <- inject_Z_plus, <- Zle_Qle. lia.
  - change 1%Q with (inject_Z 1) in H. rewrite <- inject_Z_plus in H.
    apply Qfloor_resp_le in H. rewrite Qfloor_Z in H. lia.
Qed.

Lemma decision_v1_lights_set temp s :
  decision (v1_lights_set temp s) =
  Some match current_state s with
       | off => OffBoth
       | heat => if temp <? setPoint s then Pulsing Red else Solid Red
       | cool => if temp >? setPoint s then Pulsing Blue else Solid Blue
       end.
Proof.
  unfold v1_lights_set, decision.
  destruct (current_state s); [reflexivity| |].
  - destruct (temp <? _); reflexivity.
  - destruct (temp >? _); reflexivity.
Qed.

(** X16. In the first version the decision is taken on the floor of the
    reading, which makes the two modes differ by a degree: with [f] the
    Fahrenheit value that [getFahrenheit] returns and [sp] the setpoint,
    Heat pulses exactly when [f < sp], but Cool pulses only when
    [f >= sp + 1]; otherwise the light of the mode is solid, and in Off
    both are dark.  [f] is the binary64 result of [(9 / 5) * t + 32] on the
    sensor value [t]: a sensor value of 21.11111111111111 gives exactly
    70.0, although nine fifths of it plus 32 is below 70. *)
Theorem first_version_policy_floors_the_reading :
  forall (d : V1.Devices) (s s1 : Thermostat) (f : Q),
    V1.getFahrenheit d s = (Ok f, s1) ->
    let sp := inject_Z (setPoint s) in
    (exists s',
        V1.updateLights d s = (Ok tt, s') /\
        match current_state s with
        | off => decision s' = Some OffBoth
        | heat =>
            ((f < sp)%Q -> decision s' = Some (Pulsing Red)) /\
            (~ (f < sp)%Q -> decision s' = Some (Solid Red))
        | cool =>
            ((sp + 1 <= f)%Q -> decision s' = Some (Pulsing Blue)) /\
            (~ (sp + 1 <= f)%Q -> decision s' = Some (Solid Blue))
        end) /\
    (forall t, V1.thSensor d (sensor_reads s) = Ok t ->
               f = fadd (fmul (fdiv 9 5) t) 32) /\
    (let t := float_of (2111111111111111 # 100000000000000) in
     fadd (fmul (fdiv 9 5) t) 32 = 70%Q /\ ((9 # 5) * t + 32 < 70)%Q).
Proof.
  intros d s s1 f Hf sp.
  rewrite v1_getFahrenheit_eq in Hf.
  destruct (V1.thSensor d (sensor_reads s)) as [t|e] eqn:Ht; [|discriminate].
  injection Hf as <- _.
  split; [|split].
  - eexists. split; [apply v1_updateLights_eq, Ht|].
    rewrite decision_v1_lights_set.
    change (current_state (read_once s)) with (current_state s).
    change (setPoint (read_once s)) with (setPoint s).
    destruct (current_state s); [reflexivity| |].
    + destruct (Qfloor (fahrenheit t) <? setPoint s) eqn:E; split; intros H;
        try reflexivity.
      * apply Qfloor_ltb in E. contradiction.
      * apply Qfloor_ltb in H. congruence.
    + destruct (Qfloor (fahrenheit t) >? setPoint s) eqn:E; split; intros H;
        try reflexivity.
      * apply Qfloor_gtb in E. contradiction.
      * apply Qfloor_gtb in H. congruence.
  - intros t' Ht'. injection Ht' as <-. reflexivity.
  - cbv zeta. split; vm_compute; reflexivity.
Qed.

Lemma first_version_policy_witness :
  let d :=
    {| V1.thSensor := fun _ => Ok (float_of (2111111111111111 # 100000000000000));
       V1.ser := fun _ => Ok tt;
       V1.lcd := fun _ => Ok tt;
       V1.now := clock_at 12 30 |} in
  exists s',
    V1.updateLights d (set_setPoint 70 (set_current_state heat initial))
    = (Ok tt, s') /\
    decision s' = Some (Solid Red).
Proof.
  intros d.
  destruct (first_version_policy_floors_the_reading
              d (set_setPoint 70 (set_current_state heat initial))
              (read_once (set_setPoint 70 (set_current_state heat initial)))
              70%Q)
    as ((s' & Hrun & _ & Hsolid) & _).
  - vm_compute. reflexivity.
  - exists s'. split; [exact Hrun|]. apply Hsolid.
    vm_compute. discriminate.
Defined.

Lemma v1_tick_raise d counter altCounter s e :
  altCounter < 6 ->
  V1.thSensor d (sensor_reads s) = Raise e ->
  V1.tick d (counter, altCounter) s
  = (Raise e, read_once (set_clock_reads (S (clock_reads s)) s)).
Proof.
  intros Ha He. unfold V1.tick.
  unfold bind at 1, V1.datetime_now at 1.
  destruct (Z.ltb_spec altCounter 6); [|lia].
  unfold bind at 1, bind at 1, bind at 1.
  rewrite v1_getFahrenheit_eq.
  change (sensor_reads (set_clock_reads (S (clock_reads s)) s))
    with (sensor_reads s).
  rewrite He. reflexivity.
Qed.

(** X17. The first version has no fail-safe.  When the sensor read
    raises, [updateLights] raises too and leaves the LEDs as they were; the
    increase button has already moved the setpoint when it fails; and a
    temperature iteration of the display loop raises before anything
    reaches the screen or the port, which ends the loop. *)
Theorem first_version_sensor_fault_propagates :
  forall (d : V1.Devices) (s : Thermostat) (e : exn),
    V1.thSensor d (sensor_reads s) = Raise e ->
    (exists s',
        V1.updateLights d s = (Raise e, s') /\
        redLight s' = redLight s /\ blueLight s' = blueLight s) /\
    (exists s',
        V1.processTempIncButton d s = (Raise e, s') /\
        setPoint s' = setPoint s + 1 /\
        redLight s' = redLight s /\ blueLight s' = blueLight s) /\
    (forall counter altCounter n,
        altCounter < 6 ->
        exists s',
          V1.loop d (S n) (counter, altCounter) s = (Raise e, s') /\
          screen s' = screen s /\ ser_out s' = ser_out s).
Proof.
  intros d s e He. split; [|split].
  - eexists. split; [apply v1_updateLights_raise, He|]. split; reflexivity.
  - eexists. split.
    + unfold V1.processTempIncButton, bind at 1, modify at 1.
      apply v1_updateLights_raise. exact He.
    + repeat split; reflexivity.
  - intros counter altCounter n Ha. eexists. split.
    + cbn [V1.loop]. unfold bind at 1.
      rewrite (v1_tick_raise d counter altCounter s e Ha He). reflexivity.
    + split; reflexivity.
Qed.

Lemma first_version_fault_witness :
  let d :=
    {| V1.thSensor := fun _ => Raise OSError;
       V1.ser := fun _ => Ok tt;
       V1.lcd := fun _ => Ok tt;
       V1.now := clock_at 12 30 |} in
  exists s',
    V1.manageMyDisplay d 5 initial = (Raise OSError, s') /\ screen s' = [].
Proof.
  intros d.
  destruct (first_version_sensor_fault_propagates d initial OSError eq_refl)
    as (_ & _ & Hloop).
  destruct (Hloop 1 1 4%nat ltac:(lia)) as (s' & Hrun & Hs & _).
  exists s'. split; [exact Hrun|exact Hs].
Defined.

Lemma lights_match_v1_lights_set temp s :
  lights_match_mode (v1_lights_set temp s).
Proof.
  unfold lights_match_mode, v1_lights_set.
  destruct (current_state s) eqn:E;
    cbn [current_state redLight blueLight set_redLight set_blueLight];
    rewrite E.
  - split; reflexivity.
  - split; [destruct (temp <? _); discriminate|reflexivity].
  - split; [reflexivity|destruct (temp >? _); discriminate].
Qed.

Lemma v1_lights_set_frame {B} (f : Thermostat -> B) temp s :
  ignores set_redLight f -> ignores set_blueLight f ->
  f (v1_lights_set temp s) = f s.
Proof.
  intros Hr Hb. unfold v1_lights_set.
  destruct (current_state s); rewrite ?Hr, ?Hb, ?Hr; reflexivity.
Qed.

Section FirstVersionWorkingSensor.

Variable d : V1.Devices.
Hypothesis sensor_works : forall n, exists t, V1.thSensor d n = Ok t.

Lemma v1_updateLights_works s :
  exists temp,
    V1.updateLights d s = (Ok tt, v1_lights_set temp (read_once s)).
Proof.
  destruct (sensor_works (sensor_reads s)) as [t Ht].
  eexists. apply v1_updateLights_eq, Ht.
Qed.

Lemma v1_handle_works e s :
  exists s',
    V1.handle d e s = (Ok tt, s') /\
    setPoint s' = setPoint s + offset_delta e /\
    current_state s'
    = match e with CycleMode => next_mode (current_state s) | _ => current_state s end /\
    lights_match_mode s'.
Proof.
  destruct e; cbn [V1.handle offset_delta].
  - unfold V1.cycle, bind at 1, get at 1.
    destruct (current_state s) eqn:E;
      cbn [cycle_target cycle_transitions find State_eqb fst snd option_map
           V1.on_exit_state V1.on_enter_state next_mode].
    + unfold bind at 1, ret at 1, bind at 1, modify at 1.
      destruct (v1_updateLights_works (set_current_state heat s)) as [temp ->].
      eexists. split; [reflexivity|].
      split; [unfold v1_lights_set; cbn; lia|].
      split; [reflexivity|apply lights_match_v1_lights_set].
    + unfold bind at 1, modify at 1, bind at 1, modify at 1.
      destruct (v1_updateLights_works
                  (set_current_state cool (set_redLight LedOff s))) as [temp ->].
      eexists. split; [reflexivity|].
      split; [unfold v1_lights_set; cbn; lia|].
      split; [reflexivity|apply lights_match_v1_lights_set].
    + eexists. split; [reflexivity|]. split; [cbn; lia|].
      split; [reflexivity|split; reflexivity].
  - unfold V1.processTempIncButton, bind at 1, modify at 1.
    destruct (v1_updateLights_works (set_setPoint (setPoint s + 1) s))
      as [temp ->].
    eexists. split; [reflexivity|].
    split; [rewrite (v1_lights_set_frame setPoint) by ignored; reflexivity|].
    split; [rewrite (v1_lights_set_frame current_state) by ignored; reflexivity|].
    apply lights_match_v1_lights_set.
  - unfold V1.processTempDecButton, bind at 1, modify at 1.
    destruct (v1_updateLights_works (set_setPoint (setPoint s - 1) s))
      as [temp ->].
    eexists. split; [reflexivity|].
    split; [rewrite (v1_lights_set_frame setPoint) by ignored; reflexivity|].
    split; [rewrite (v1_lights_set_frame current_state) by ignored; reflexivity|].
    apply lights_match_v1_lights_set.
Qed.

Lemma v1_handle_all_works es :
  forall s,
  exists s',
    V1.handle_all d es s = (Ok tt, s') /\
    setPoint s' = setPoint s + net_presses es /\
    current_state s'
    = Nat.iter (mode_presses es) next_mode (current_state s) /\
    (lights_match_mode s -> lights_match_mode s').
Proof.
  induction es as [|e es IH]; intros s.
  - exists s. cbn. repeat split; [lia|tauto].
  - destruct (v1_handle_works e s) as (s1 & Hrun1 & Hsp1 & Hst1 & Hl1).
    destruct (IH s1) as (s' & Hrun & Hsp & Hst & Hl).
    exists s'. cbn [V1.handle_all]. unfold bind. rewrite Hrun1.
    split; [exact Hrun|]. split; [|split].
    + rewrite Hsp, Hsp1. cbn [net_presses fold_right].
      fold (net_presses es). lia.
    + rewrite Hst, Hst1.
      destruct e; unfold mode_presses; cbn [filter length]; try reflexivity.
      rewrite Nat.iter_succ_r. reflexivity.
    + intros _. apply Hl, Hl1.
Qed.

End FirstVersionWorkingSensor.

(** X18. In the first version, with a sensor that answers, button presses
    never fail and compose: the setpoint ends at its starting value plus
    the increase presses minus the decrease presses, the mode is advanced
    once per mode press, and the LEDs go on showing the mode. *)
Theorem first_version_presses_compose :
  forall (d : V1.Devices) (es : list Event) (s : Thermostat),
    (forall n, exists t, V1.thSensor d n = Ok t) ->
    exists s',
      V1.handle_all d es s = (Ok tt, s') /\
      setPoint s' = setPoint s + net_presses es /\
      current_state s'
      = Nat.iter (mode_presses es) next_mode (current_state s) /\
      (lights_match_mode s -> lights_match_mode s').
Proof.
  intros d es s Hworks. apply v1_handle_all_works, Hworks.
Qed.

Lemma first_version_presses_witness :
  let d :=
    {| V1.thSensor := fun _ => Ok (20 # 1)%Q;
       V1.ser := fun _ => Ok tt;
       V1.lcd := fun _ => Ok tt;
       V1.now := clock_at 12 30 |} in
  exists s',
    V1.handle_all d [Increment; CycleMode; Decrement; Increment] initial
    = (Ok tt, s') /\
    setPoint s' = 73.
Proof.
  intros d.
  destruct (first_version_presses_compose
              d [Increment; CycleMode; Decrement; Increment] initial)
    as (s' & Hrun & Hsp & _).
  - intros n. eexists. reflexivity.
  - exists s'. split; [exact Hrun|exact Hsp].
Defined.

Lemma v1_setupSerialOutput_eq d s t :
  V1.thSensor d (sensor_reads s) = Ok t ->
  V1.setupSerialOutput d s
  = (Ok (State_id (current_state s) ++ ","
          ++ str (Qfloor (fahrenheit t)) ++ ","
          ++ str (setPoint s))%string,
     read_once s).
Proof.
  intros Ht. unfold V1.setupSerialOutput, bind at 1, get at 1.
  unfold bind at 1. rewrite v1_getFahrenheit_eq, Ht. reflexivity.
Qed.

Lemma v1_updateScreen_eq d message s :
  V1.updateScreen d message s
  = (V1.lcd d (length (screen s)),
     set_screen (screen s ++ [screen_rows message]) s).
Proof. reflexivity. Qed.

(** X19. In the first version a status iteration, which always follows the
    tenth display row, reads the sensor once for the LEDs and, when the LCD
    has taken the rows, once more for the line, which holds the mode, the
    floor of that second reading in Fahrenheit and the setpoint.  When the
    write succeeds the counters go back to 1; when it raises, the exception
    leaves the loop, after the screen has been updated.  When the LCD
    raises, the exception leaves the loop before the line is formatted:
    the sensor has been read once and nothing is handed to the port. *)
Theorem first_version_status_iteration :
  forall (d : V1.Devices) (s : Thermostat) (t1 t2 : Q)
         (counter altCounter : Z),
    10 <= altCounter ->
    counter mod 30 = 0 ->
    V1.thSensor d (sensor_reads s) = Ok t1 ->
    V1.thSensor d (S (sensor_reads s)) = Ok t2 ->
    let line :=
      (State_id (current_state s) ++ ","
       ++ str (Qfloor (fadd (fmul (fdiv 9 5) t2) 32)) ++ ","
       ++ str (setPoint s) ++ newline)%string in
    (V1.lcd d (length (screen s)) = Ok tt ->
     (V1.ser d (length (ser_out s)) = Ok tt ->
      exists s',
        V1.tick d (counter, altCounter) s = (Ok (1, 1), s') /\
        ser_out s' = ser_out s ++ [line] /\
        sensor_reads s' = S (S (sensor_reads s))) /\
     (forall e,
         V1.ser d (length (ser_out s)) = Raise e ->
         exists s',
           V1.loop d 1 (counter, altCounter) s = (Raise e, s') /\
           ser_out s' = ser_out s ++ [line] /\
           length (screen s') = S (length (screen s)))) /\
    (forall e,
        V1.lcd d (length (screen s)) = Raise e ->
        exists s',
          V1.loop d 1 (counter, altCounter) s = (Raise e, s') /\
          ser_out s' = ser_out s /\
          sensor_reads s' = S (sensor_reads s)).
Proof.
  intros d s t1 t2 counter altCounter Ha Hc Ht1 Ht2 line.
  pose (s_lit := v1_lights_set (Qfloor (fahrenheit t1))
                   (read_once (set_clock_reads (S (clock_reads s)) s))).
  pose (s_scr :=
          set_screen
            (screen s
             ++ [screen_rows
                   ((ljust 16 (strftime (V1.now d (clock_reads s))) ++ newline)
                    ++ slice_to 16
                         (ljust 16 (upper (State_id (current_state s)))))%string])
            s_lit).
  assert (Hshown :
            V1.tick d (counter, altCounter) s
            = match V1.lcd d (length (screen s)) with
              | Ok _ =>
                  (match V1.ser d (length (ser_out s)) with
                   | Ok _ => Ok (1, 1)
                   | Raise e => Raise e
                   end,
                   set_ser_out (ser_out s ++ [line]) (read_once s_scr))
              | Raise e => (Raise e, s_scr)
              end).
  { unfold V1.tick. unfold bind at 1, V1.datetime_now at 1.
    destruct (Z.ltb_spec altCounter 6); [lia|].
    unfold bind at 1, bind at 1, get at 1.
    destruct (Z.geb_spec (altCounter + 1) 11); [|lia].
    rewrite (bind_ok _ _ _ _ _
               (v1_updateLights_eq d (set_clock_reads (S (clock_reads s)) s)
                  t1 Ht1)).
    fold s_lit.
    unfold ret at 1. cbn [fst snd current_state set_clock_reads].
    unfold bind at 1. rewrite v1_updateScreen_eq.
    assert (Hscr : screen s_lit = screen s)
      by (unfold s_lit; rewrite (v1_lights_set_frame screen) by ignored;
          reflexivity).
    assert (Hst : current_state s_lit = current_state s)
      by (unfold s_lit; rewrite (v1_lights_set_frame current_state) by ignored;
          reflexivity).
    assert (Hsp : setPoint s_lit = setPoint s)
      by (unfold s_lit; rewrite (v1_lights_set_frame setPoint) by ignored;
          reflexivity).
    assert (Hso : ser_out s_lit = ser_out s)
      by (unfold s_lit; rewrite (v1_lights_set_frame ser_out) by ignored;
          reflexivity).
    assert (Hsr : sensor_reads s_lit = S (sensor_reads s))
      by (unfold s_lit; rewrite (v1_lights_set_frame sensor_reads) by ignored;
          reflexivity).
    rewrite Hscr. fold s_scr.
    destruct (V1.lcd d (length (screen s))) as [[]|e]; [|reflexivity].
    rewrite Hc. cbn [Z.eqb].
    unfold bind at 1, bind at 1.
    rewrite (v1_setupSerialOutput_eq d s_scr t2)
      by (unfold s_scr; cbn [sensor_reads set_screen]; rewrite Hsr; exact Ht2).
    unfold bind at 1, ser_write at 1.
    cbn [ser_out read_once set_sensor_reads].
    assert (Hso' : ser_out s_scr = ser_out s) by exact Hso.
    assert (Hst' : current_state s_scr = current_state s) by exact Hst.
    assert (Hsp' : setPoint s_scr = setPoint s) by exact Hsp.
    rewrite Hso', Hst', Hsp'.
    assert (Hline :
             ((State_id (current_state s) ++ ","
               ++ str (Qfloor (fahrenheit t2)) ++ ","
               ++ str (setPoint s)) ++ newline)%string = line)
      by (unfold line, fahrenheit; rewrite !append_assoc_string; reflexivity).
    rewrite Hline.
    destruct (V1.ser d (length (ser_out s))) as [[]|e]; reflexivity. }
  split.
  - intros Hlcd. rewrite Hlcd in Hshown. split.
    + intros Hok. rewrite Hshown, Hok. eexists. split; [reflexivity|].
      split; [reflexivity|].
      unfold s_scr, s_lit.
      cbn [sensor_reads set_ser_out read_once set_sensor_reads set_screen].
      rewrite (v1_lights_set_frame sensor_reads) by ignored. reflexivity.
    + intros e He. cbn [V1.loop]. unfold bind. rewrite Hshown, He.
      eexists. split; [reflexivity|]. split; [reflexivity|].
      unfold s_scr.
      cbn [screen set_ser_out read_once set_sensor_reads set_screen].
      rewrite length_app. cbn [length]. lia.
  - intros e He. rewrite He in Hshown. cbn [V1.loop]. unfold bind.
    rewrite Hshown. eexists. split; [reflexivity|].
    unfold s_scr, s_lit. cbn [ser_out sensor_reads set_screen].
    rewrite (v1_lights_set_frame ser_out) by ignored.
    rewrite (v1_lights_set_frame sensor_reads) by ignored.
    split; reflexivity.
Qed.

Lemma first_version_status_witness :
  let t := float_of (2111111111111111 # 100000000000000) in
  let d :=
    {| V1.thSensor := fun _ => Ok t;
       V1.ser := fun _ => Raise SerialException;
       V1.lcd := fun _ => Ok tt;
       V1.now := clock_at 12 30 |} in
  exists s',
    V1.loop d 1 (30, 10) (set_setPoint 70 (set_current_state heat initial))
    = (Raise SerialException, s') /\
    ser_out s' = [("heat,70,70" ++ newline)%string].
Proof.
  intros t d.
  destruct (first_version_status_iteration
              d (set_setPoint 70 (set_current_state heat initial)) t t 30 10
              ltac:(lia) eq_refl eq_refl eq_refl) as [Hlcd _].
  destruct (Hlcd eq_refl) as [_ Hraise].
  destruct (Hraise SerialException eq_refl) as (s' & Hrun & Hs & _).
  exists s'. split; [exact Hrun|].
  rewrite Hs. vm_compute. reflexivity.
Defined.
